(** * Public character cards: codec, import drivers, listing and deletion

    A shallow embedding of the public character-card endpoint
    ([src/src/middleware/chatTracker.js], second document of the file) and
    of the operations it relies on, followed by the properties of the
    natural-language specification that were checked against it.

    Layout of the file:
    - Part I   : JavaScript strings, JSON values and property access;
    - Part II  : the [sanitize-filename] dependency and [getPngName];
    - Part III : the container codec (PNG chunks, text segments, base64);
    - Part IV  : the file system, the exception monad and the endpoint code;
    - Part V   : a concrete runtime and the inputs used in examples;
    - Part VI  : the vocabulary in which the properties are stated;
    - Part VII : chat tracking ([chatTrackerMiddleware], first document of
                 the same file) and the system monitor
                 ([src/src/system-monitor.js]);
    - Part VIII: invitation codes ([src/src/invitation-codes.js]);
    - Part IX  : the other routes of the card endpoint;
    - Part X   : lemmas and the checked properties;
    - Part XI  : properties of the tracker, the monitor, the codes and the
                 other routes. *)

From Stdlib Require Import ZArith NArith List String Ascii Lia Bool.
From Stdlib Require Sorting.Sorted.
From stdpp Require Import base gmap list strings option.

Local Open Scope N_scope.
Set Warnings "-register-all".

(* ===================================================================== *)
(** * Part I. JavaScript strings and values                               *)
(* ===================================================================== *)

(** A JavaScript string is a sequence of UTF-16 code units.  Regular
    expressions without the [u] flag, [String.prototype.replace],
    [charCodeAt] and [length] all work on code units. *)
Abbreviation jsstring := (list N).

(** String literals of the source, as code units (ASCII literals only). *)
Definition js (s : string) : jsstring :=
  map N_of_ascii (list_ascii_of_string s).

(** [a.endsWith(b)]. *)
Definition endsWith (s suffix : jsstring) : bool :=
  bool_decide (drop (length s - length suffix)%nat s = suffix).

(** [s.replace(pattern, replacement)] with a string pattern: only the first
    occurrence is replaced. *)
Fixpoint replaceFirst (pattern replacement s : jsstring) : jsstring :=
  match s with
  | [] => if bool_decide (pattern = []) then replacement else []
  | c :: s' =>
      if bool_decide (take (length pattern) s = pattern) then
        replacement ++ drop (length pattern) s
      else c :: replaceFirst pattern replacement s'
  end.

(** Lower-casing as far as a comparison with an ASCII word can observe it:
    [A-Z] go to [a-z].  In [keyword.toLowerCase() === 'chara'] the keyword
    is made of Latin-1 units, none of which lower-cases to an ASCII letter;
    under the [i] flag of a regular expression without the [u] flag a unit
    above 127 never canonicalises to an ASCII one. *)
Definition asciiLower (c : N) : N :=
  if (65 <=? c) && (c <=? 90) then c + 32 else c.

(** Raw bytes ([Buffer], [Uint8Array]): 8-bit values carried in [N]. *)
Abbreviation bytes := (list N).

(** ** JSON values

    A number is kept as a fraction; the code only ever tests numbers for
    truthiness.  An array carries, besides its items, the named properties
    that assignments such as [a.avatar = item] add to it. *)
Record number := Num { numerator : Z; denominator : positive }.

Inductive value :=
| VUndefined
| VNull
| VBool (b : bool)
| VNum (n : number)
| VStr (s : jsstring)
| VArr (items : list value) (named : list (jsstring * value))
| VObj (props : list (jsstring * value)).

(** Thrown values.  [Error] carries its [message]. *)
Inductive exn :=
| Error (message : jsstring)
| TypeError (message : jsstring)
| SyntaxError (message : jsstring)
| ENOENT (syscall : jsstring).

Definition message_of (e : exn) : jsstring :=
  match e with
  | Error m | TypeError m | SyntaxError m | ENOENT m => m
  end.

(** Own properties of an object, in insertion order. *)
Fixpoint assoc_get (k : jsstring) (o : list (jsstring * value)) : option value :=
  match o with
  | [] => None
  | (k', v) :: o' => if decide (k' = k) then Some v else assoc_get k o'
  end.

(** Assignment keeps the position of an existing key and appends a new one. *)
Fixpoint assoc_set (k : jsstring) (v : value) (o : list (jsstring * value))
  : list (jsstring * value) :=
  match o with
  | [] => [(k, v)]
  | (k', v') :: o' =>
      if decide (k' = k) then (k, v) :: o' else (k', v') :: assoc_set k v o'
  end.

Fixpoint assoc_del (k : jsstring) (o : list (jsstring * value))
  : list (jsstring * value) :=
  match o with
  | [] => []
  | (k', v') :: o' =>
      if decide (k' = k) then assoc_del k o' else (k', v') :: assoc_del k o'
  end.

(** [v[k]] for the property names this module uses (none of them is an
    array index, [length], or a member of a built-in prototype): reading a
    property of [null] or [undefined] throws, a primitive has none. *)
Definition getProp (v : value) (k : jsstring) : exn + value :=
  match v with
  | VUndefined | VNull =>
      inl (TypeError (js "Cannot read properties of null or undefined"))
  | VObj o => inr (default VUndefined (assoc_get k o))
  | VArr _ named => inr (default VUndefined (assoc_get k named))
  | VBool _ | VNum _ | VStr _ => inr VUndefined
  end.

(** [v[k] = x].  The file is an ES module, hence strict code: assigning a
    property on a primitive throws. *)
Definition setProp (v : value) (k : jsstring) (x : value) : exn + value :=
  match v with
  | VObj o => inr (VObj (assoc_set k x o))
  | VArr items named => inr (VArr items (assoc_set k x named))
  | VUndefined | VNull =>
      inl (TypeError (js "Cannot set properties of null or undefined"))
  | VBool _ | VNum _ | VStr _ =>
      inl (TypeError (js "Cannot create property on primitive"))
  end.

(** [delete v[k]]. *)
Definition deleteProp (v : value) (k : jsstring) : exn + value :=
  match v with
  | VObj o => inr (VObj (assoc_del k o))
  | VArr items named => inr (VArr items (assoc_del k named))
  | VUndefined | VNull =>
      inl (TypeError (js "Cannot convert undefined or null to object"))
  | VBool _ | VNum _ | VStr _ => inr v
  end.

(** [ToBoolean]. *)
Definition truthy (v : value) : bool :=
  match v with
  | VUndefined | VNull => false
  | VBool b => b
  | VNum n => negb (numerator n =? 0)%Z
  | VStr s => negb (bool_decide (s = []))
  | VArr _ _ | VObj _ => true
  end.

(** [a || b] and [a ?? b]. *)
Definition orElse (a b : value) : value := if truthy a then a else b.

Definition nullish (a b : value) : value :=
  match a with
  | VUndefined | VNull => b
  | _ => a
  end.

(** [v !== undefined]. *)
Definition isDefined (v : value) : bool :=
  match v with
  | VUndefined => false
  | _ => true
  end.

(** [a === b] where [b] is a string. *)
Definition strictEqualsString (a : value) (b : jsstring) : bool :=
  match a with
  | VStr s => bool_decide (s = b)
  | _ => false
  end.

(* ===================================================================== *)
(** * Part II. File-name sanitisation                                     *)
(* ===================================================================== *)

(** ** The [sanitize-filename] dependency

    [import sanitize from 'sanitize-filename'] is a third-party package and
    not part of the repository.  The definitions below follow its
    [index.js] (version 1.6.x) called with no replacement option:
<<
    var illegalRe = /[\/\?<>\\:\*\|DQUOTE]/g;   (DQUOTE: the double quote)
    var controlRe = /[\x00-\x1f\x80-\x9f]/g;
    var reservedRe = /^\.+$/;
    var windowsReservedRe = /^(con|prn|aux|nul|com[0-9]|lpt[0-9])(EXT)?$/i;
                            (EXT: a dot followed by any characters)
    var windowsTrailingRe = /[\. ]+$/;
    input.replace(illegalRe, '').replace(controlRe, '')
         .replace(reservedRe, '').replace(windowsReservedRe, '')
         .replace(windowsTrailingRe, '');   then   truncate(sanitized, 255)
>>
    and the package [truncate-utf8-bytes] it calls. *)
Module SanitizeFilename.

(** The class of [illegalRe]: slash, question mark, angle brackets,
    backslash, colon, star, bar, double quote. *)
Definition illegalRe (c : N) : bool :=
  existsb (N.eqb c) [47; 63; 60; 62; 92; 58; 42; 124; 34].

(** [/[\x00-\x1f\x80-\x9f]/] *)
Definition controlRe (c : N) : bool :=
  (c <=? 0x1f) || ((0x80 <=? c) && (c <=? 0x9f)).

(** [/^\.+$/] : the whole string is one or more dots. *)
Definition reservedRe (s : jsstring) : bool :=
  match s with
  | [] => false
  | _ => forallb (N.eqb 46) s
  end.

Definition isDigit (c : N) : bool := (48 <=? c) && (c <=? 57).

(** Line terminators, which [.] does not match. *)
Definition lineTerminator (c : N) : bool :=
  existsb (N.eqb c) [10; 13; 0x2028; 0x2029].

(** The optional extension group followed by [$]: the rest of the string
    is empty, or a dot followed by characters that [.] matches. *)
Definition extensionTail (r : jsstring) : bool :=
  match r with
  | [] => true
  | d :: r' => (d =? 46) && forallb (fun c => negb (lineTerminator c)) r'
  end.

Definition unitsEqb (a b : jsstring) : bool := bool_decide (a = b).

(** [windowsReservedRe]: a device name, then the optional extension. *)
Definition windowsReservedRe (s : jsstring) : bool :=
  let head := map asciiLower (take 3 s) in
  (existsb (unitsEqb head) [js "con"; js "prn"; js "aux"; js "nul"]
     && extensionTail (drop 3 s))
  || (existsb (unitsEqb head) [js "com"; js "lpt"]
        && match drop 3 s with
           | d :: r => isDigit d && extensionTail r
           | [] => false
           end).

Definition isDotOrSpace (c : N) : bool := (c =? 46) || (c =? 32).

(** [.replace(/[\. ]+$/, '')] : the maximal trailing run of dots and
    spaces is removed. *)
Fixpoint windowsTrailing (s : jsstring) : jsstring :=
  match s with
  | [] => []
  | c :: r =>
      match windowsTrailing r with
      | [] => if isDotOrSpace c then [] else [c]
      | r' => c :: r'
      end
  end.

(** [truncate-utf8-bytes]: surrogate tests and the UTF-8 length of one
    segment ([Buffer.byteLength]); a lone surrogate is encoded as U+FFFD. *)
Definition isHighSurrogate (c : N) : bool := (0xd800 <=? c) && (c <=? 0xdbff).
Definition isLowSurrogate (c : N) : bool := (0xdc00 <=? c) && (c <=? 0xdfff).

Definition unitByteLength (c : N) : N :=
  if c <? 0x80 then 1 else if c <? 0x800 then 2 else 3.

(** The loop of [truncate(getLength, string, byteLength)], started with
    [curByteLength = cur]; the result is the kept prefix of [s]. *)
Fixpoint truncateFrom (cur limit : N) (s : jsstring) : jsstring :=
  match s with
  | [] => []
  | c :: rest =>
      match rest with
      | d :: rest' =>
          if isHighSurrogate c && isLowSurrogate d then
            let cur' := cur + 4 in
            if cur' =? limit then [c; d]
            else if limit <? cur' then []
            else c :: d :: truncateFrom cur' limit rest'
          else
            let cur' := cur + unitByteLength c in
            if cur' =? limit then [c]
            else if limit <? cur' then []
            else c :: truncateFrom cur' limit rest
      | [] =>
          let cur' := cur + unitByteLength c in
          if cur' =? limit then [c]
          else if limit <? cur' then []
          else [c]
      end
  end.

Definition truncate (s : jsstring) (byteLength : N) : jsstring :=
  truncateFrom 0 byteLength s.

(** [sanitize(input)] for a string input. *)
Definition sanitize (input : jsstring) : jsstring :=
  let s1 := List.filter (fun c => negb (illegalRe c)) input in
  let s2 := List.filter (fun c => negb (controlRe c)) s1 in
  let s3 := if reservedRe s2 then [] else s2 in
  let s4 := if windowsReservedRe s3 then [] else s3 in
  let s5 := windowsTrailing s4 in
  truncate s5 255.

(** UTF-8 length of a whole string, by the same segmentation. *)
Fixpoint byteLength (s : jsstring) : N :=
  match s with
  | [] => 0
  | c :: rest =>
      match rest with
      | d :: rest' =>
          if isHighSurrogate c && isLowSurrogate d then 4 + byteLength rest'
          else unitByteLength c + byteLength rest
      | [] => unitByteLength c
      end
  end.

End SanitizeFilename.

(** ** [getPngName] (chatTracker.js, lines 362-367) *)

(** The character class [[a-zA-Z0-9一-鿿]]. *)
Definition keptUnit (c : N) : bool :=
  ((97 <=? c) && (c <=? 122))
  || ((65 <=? c) && (c <=? 90))
  || ((48 <=? c) && (c <=? 57))
  || ((0x4e00 <=? c) && (c <=? 0x9fff)).

(** [s.replace(/[^a-zA-Z0-9一-鿿]/g, '_')] *)
Definition replaceSpecial (s : jsstring) : jsstring :=
  map (fun c => if keptUnit c then c else 95) s.

Definition getPngName (name : jsstring) : jsstring :=
  let sanitizedName := SanitizeFilename.sanitize name in
  replaceSpecial sanitizedName.

(** Path separators and control characters, the classes the specification
    speaks of. *)
Definition pathSeparator (c : N) : bool := (c =? 47) || (c =? 92).
Definition controlCharacter (c : N) : bool :=
  (c <=? 0x1f) || ((0x7f <=? c) && (c <=? 0x9f)).

(* ===================================================================== *)
(** * Part III. The container codec                                       *)
(* ===================================================================== *)

(** The container is a PNG file: an 8-byte signature followed by chunks,
    each framed as a 4-byte big-endian length, a 4-byte name, the data and
    the CRC-32 of name and data.  A text segment is a [tEXt] chunk whose
    data is a keyword, a zero byte and the text.  The signature, the chunk
    name [tEXt] and the keywords [chara] and [ccv3] are the ones
    [importFromPng] uses; the framing follows the packages
    [png-chunks-extract], [png-chunks-encode] and [png-chunk-text]. *)
Module Codec.

Definition signature : bytes :=
  [0x89; 0x50; 0x4E; 0x47; 0x0D; 0x0A; 0x1A; 0x0A].

Record chunk := Chunk { name : bytes; data : bytes }.

(** *** 32-bit big-endian integers *)
Definition be32 (n : N) : bytes :=
  [(n / 16777216) mod 256; (n / 65536) mod 256; (n / 256) mod 256; n mod 256].

Definition unbe32 (b3 b2 b1 b0 : N) : N :=
  ((b3 * 256 + b2) * 256 + b1) * 256 + b0.

(** *** CRC-32 (polynomial 0xEDB88320), on 32 bits *)
Definition crcStep (c : N) : N :=
  if N.testbit c 0 then N.lxor (N.shiftr c 1) 0xEDB88320 else N.shiftr c 1.

Definition crcByte (c b : N) : N :=
  Nat.iter 8 crcStep (N.lxor c b).

Definition crc32 (bs : bytes) : N :=
  (N.lxor (fold_left crcByte bs 0xFFFFFFFF) 0xFFFFFFFF) mod 4294967296.

(** *** Chunk stream *)
Definition IHDR : bytes := js "IHDR".
Definition IEND : bytes := js "IEND".
Definition tEXt : bytes := js "tEXt".

(** [extract(data)] after the signature: chunks are read until [IEND],
    whose data and CRC are not looked at; the first chunk must be [IHDR];
    every other chunk must be complete and carry the right CRC.  [fuel]
    bounds the number of chunks. *)
Fixpoint extractFrom (fuel : nat) (first : bool) (stream : bytes)
  : exn + list chunk :=
  match fuel with
  | O => inl (Error (js ".png file ended prematurely: no IEND header was found"))
  | S fuel' =>
      match stream with
      | l3 :: l2 :: l1 :: l0 :: n0 :: n1 :: n2 :: n3 :: rest =>
          let len := N.to_nat (unbe32 l3 l2 l1 l0) in
          let nm := [n0; n1; n2; n3] in
          if first && negb (bool_decide (nm = IHDR)) then
            inl (Error (js "IHDR header missing"))
          else if bool_decide (nm = IEND) then
            inr [Chunk nm []]
          else if (length rest <? len + 4)%nat then
            inl (Error (js ".png file ended prematurely: no IEND header was found"))
          else
            let body := take len rest in
            match drop len rest with
            | c3 :: c2 :: c1 :: c0 :: rest' =>
                if unbe32 c3 c2 c1 c0 =? crc32 (nm ++ body) then
                  match extractFrom fuel' false rest' with
                  | inr chunks => inr (Chunk nm body :: chunks)
                  | inl e => inl e
                  end
                else
                  inl (Error (js "CRC values for header do not match, PNG file is likely corrupted"))
            | _ =>
                inl (Error (js ".png file ended prematurely: no IEND header was found"))
            end
      | _ =>
          inl (Error (js ".png file ended prematurely: no IEND header was found"))
      end
  end.

Definition extract (image : bytes) : exn + list chunk :=
  if bool_decide (take 8 image = signature) then
    extractFrom (S (length image)) true (drop 8 image)
  else inl (Error (js "Invalid .png file header")).

(** [encode(chunks)] of [png-chunks-encode]. *)
Definition frame (c : chunk) : bytes :=
  be32 (N.of_nat (length (data c))) ++ name c ++ data c
    ++ be32 (crc32 (name c ++ data c)).

Definition encodeChunks (chunks : list chunk) : bytes :=
  signature ++ concat (map frame chunks).

(** *** Text segments *)
Definition textEncode (keyword text : bytes) : chunk :=
  Chunk tEXt (keyword ++ 0 :: text).

(** [PNGtext.decode]: the keyword runs to the first zero byte; a second
    zero byte is an error. *)
Fixpoint splitKeyword (d : bytes) : bytes * option bytes :=
  match d with
  | [] => ([], None)
  | b :: d' =>
      if b =? 0 then ([], Some d')
      else let '(k, t) := splitKeyword d' in (b :: k, t)
  end.

Definition textDecode (d : bytes) : exn + (bytes * bytes) :=
  match splitKeyword d with
  | (k, None) => inr (k, [])
  | (k, Some t) =>
      if existsb (N.eqb 0) t then
        inl (Error (js "Invalid NULL character found. 0x00 character is not permitted in tEXt content"))
      else inr (k, t)
  end.

(** [keyword.toLowerCase() === 'chara' || keyword.toLowerCase() === 'ccv3'] *)
Definition isCardKeyword (keyword : bytes) : bool :=
  let k := map asciiLower keyword in
  bool_decide (k = js "chara") || bool_decide (k = js "ccv3").

Definition isTextChunk (c : chunk) : bool := bool_decide (name c = tEXt).

(** A text segment carrying a character card. *)
Definition isCardChunk (c : chunk) : bool :=
  isTextChunk c &&
  match textDecode (data c) with
  | inr (k, _) => isCardKeyword k
  | inl _ => false
  end.

(** *** Base64 (RFC 4648, with padding) *)
Definition alphabet : bytes :=
  js "ABCDEFGHIJKLMNOPQRSTUVWXYZabcdefghijklmnopqrstuvwxyz0123456789+/".

Definition sextetChar (n : N) : N := nth (N.to_nat n) alphabet 61.

Definition charSextet (c : N) : option N :=
  if (65 <=? c) && (c <=? 90) then Some (c - 65)
  else if (97 <=? c) && (c <=? 122) then Some (c - 71)
  else if (48 <=? c) && (c <=? 57) then Some (c + 4)
  else if c =? 43 then Some 62
  else if c =? 47 then Some 63
  else None.

Fixpoint base64Encode (bs : bytes) : bytes :=
  match bs with
  | [] => []
  | [b1] =>
      [sextetChar (b1 / 4); sextetChar ((b1 mod 4) * 16); 61; 61]
  | [b1; b2] =>
      [sextetChar (b1 / 4); sextetChar ((b1 mod 4) * 16 + b2 / 16);
       sextetChar ((b2 mod 16) * 4); 61]
  | b1 :: b2 :: b3 :: rest =>
      sextetChar (b1 / 4) :: sextetChar ((b1 mod 4) * 16 + b2 / 16)
        :: sextetChar ((b2 mod 16) * 4 + b3 / 64) :: sextetChar (b3 mod 64)
        :: base64Encode rest
  end.

Fixpoint base64Decode (cs : bytes) : option bytes :=
  match cs with
  | [] => Some []
  | c1 :: c2 :: c3 :: c4 :: rest =>
      match charSextet c1, charSextet c2 with
      | Some s1, Some s2 =>
          let b1 := s1 * 4 + s2 / 16 in
          if (c3 =? 61) && (c4 =? 61) then
            match rest with [] => Some [b1] | _ => None end
          else
            match charSextet c3 with
            | Some s3 =>
                let b2 := (s2 mod 16) * 16 + s3 / 4 in
                if c4 =? 61 then
                  match rest with [] => Some [b1; b2] | _ => None end
                else
                  match charSextet c4, base64Decode rest with
                  | Some s4, Some bs => Some (b1 :: b2 :: (s3 mod 4) * 64 + s4 :: bs)
                  | _, _ => None
                  end
            | None => None
            end
      | _, _ => None
      end
  | _ => None
  end.

(** *** [decode] and [encode] *)
Inductive codecError := MalformedContainer | NotACharacterCard.

(** Modelled from the spec: [../character-card-parser.js] ([read]) is not
    among the sources.  Section 4.1: "scans the container's chunk stream
    for a text segment whose keyword is chara or ccv3 (case-insensitive);
    returns the first match's decoded value.  Fails with NotACharacterCard
    if no such segment exists, or MalformedContainer if the byte stream
    does not begin with the container's required signature."  A stream
    that has the signature but no readable chunk sequence, or a matching
    segment whose text is not base64, is reported as malformed too. *)
Definition decode (imageBytes : bytes) : codecError + bytes :=
  match extract imageBytes with
  | inl _ => inl MalformedContainer
  | inr chunks =>
      match List.find isCardChunk chunks with
      | None => inl NotACharacterCard
      | Some c =>
          match textDecode (data c) with
          | inr (_, text) =>
              match base64Decode text with
              | Some payload => inr payload
              | None => inl MalformedContainer
              end
          | inl _ => inl MalformedContainer
          end
      end
  end.

(** Insertion immediately before the last chunk (the terminal marker). *)
Fixpoint insertBeforeLast (c : chunk) (chunks : list chunk) : list chunk :=
  match chunks with
  | [] => [c]
  | [final] => [c; final]
  | x :: chunks' => x :: insertBeforeLast c chunks'
  end.

(** Modelled from the spec: [../character-card-parser.js] ([write]) is not
    among the sources.  Section 4.1: "strips any pre-existing chara/ccv3
    text segments, inserts a new one immediately before the terminal
    marker segment, and returns a byte-valid container"; the payload is
    stored as base64 (Section 3) under the keyword [chara]. *)
Definition encode (imageBytes : bytes) (jsonPayload : bytes) : codecError + bytes :=
  match extract imageBytes with
  | inl _ => inl MalformedContainer
  | inr chunks =>
      let kept := List.filter (fun c => negb (isCardChunk c)) chunks in
      let segment := textEncode (js "chara") (base64Encode jsonPayload) in
      inr (encodeChunks (insertBeforeLast segment kept))
  end.

End Codec.

(* ===================================================================== *)
(** * Part IV. File system, exceptions and the endpoint code              *)
(* ===================================================================== *)

(** ** Paths and the file system

    The module touches two places: [PUBLIC_CHARACTERS_DIR], the flat public
    directory whose entries are addressed by file name
    ([path.join(PUBLIC_CHARACTERS_DIR, name)] with a separator-free [name]),
    and paths outside of it (the upload temp file that multer wrote, the
    default avatar). *)
Inductive path :=
| Outside (p : jsstring)
| InPublic (fileName : jsstring).

Global Instance path_eq_dec : EqDecision path.
Proof. solve_decision. Defined.

Definition path_to_sum (p : path) : jsstring + jsstring :=
  match p with Outside s => inl s | InPublic s => inr s end.

Definition path_of_sum (x : jsstring + jsstring) : path :=
  match x with inl s => Outside s | inr s => InPublic s end.

Global Instance path_countable : Countable path.
Proof.
  refine (inj_countable' path_to_sum path_of_sum _).
  intros p. destruct p; reflexivity.
Defined.

Record file := File { content : bytes; ctimeMs : N }.

(** The state the code runs in: the files, the clock, and a log of every
    [fs.unlinkSync] call with its outcome (kept to count deletions). *)
Record world := World {
  files : gmap path file;
  clock : N;
  unlinkLog : list (path * bool);
}.

(** ** Computations that may throw *)
Definition M (A : Type) : Type := world -> (exn + A) * world.

Definition ret {A} (a : A) : M A := fun w => (inr a, w).

Definition throw {A} (e : exn) : M A := fun w => (inl e, w).

Definition bind {A B} (m : M A) (k : A -> M B) : M B :=
  fun w =>
    match m w with
    | (inr a, w') => k a w'
    | (inl e, w') => (inl e, w')
    end.

(** [try { m } catch (e) { h e }]: the handler runs in the state reached
    when the exception was thrown. *)
Definition tryCatch {A} (m : M A) (h : exn -> M A) : M A :=
  fun w =>
    match m w with
    | (inl e, w') => h e w'
    | r => r
    end.

(** A pure step that may throw. *)
Definition lift {A} (r : exn + A) : M A := fun w => (r, w).

Declare Scope js_scope.
Delimit Scope js_scope with js.
Notation "'do' x <- m ; k" := (bind m (fun x => k))
  (at level 10, x name, m at level 100, k at level 200) : js_scope.
Notation "'run' m ; k" := (bind m (fun _ => k))
  (at level 10, m at level 100, k at level 200) : js_scope.
Local Open Scope js_scope.

(** ** [node:fs] *)
Definition readFileSync (p : path) : M bytes :=
  fun w =>
    match files w !! p with
    | Some f => (inr (content f), w)
    | None => (inl (ENOENT (js "open")), w)
    end.

Definition existsSync (p : path) : M bool :=
  fun w => (inr (bool_decide (is_Some (files w !! p))), w).

Definition statSync (p : path) : M file :=
  fun w =>
    match files w !! p with
    | Some f => (inr f, w)
    | None => (inl (ENOENT (js "stat")), w)
    end.

Definition unlinkSync (p : path) : M unit :=
  fun w =>
    match files w !! p with
    | Some _ =>
        (inr tt, {| files := delete p (files w); clock := clock w;
                    unlinkLog := unlinkLog w ++ [(p, true)] |})
    | None =>
        (inl (ENOENT (js "unlink")),
         {| files := files w; clock := clock w;
            unlinkLog := unlinkLog w ++ [(p, false)] |})
    end.

(** [writeFileAtomicSync]: the file appears with its whole content. *)
Definition writeFileAtomicSync (p : path) (b : bytes) : M unit :=
  fun w =>
    (inr tt, {| files := <[p := File b (clock w)]> (files w);
                clock := clock w; unlinkLog := unlinkLog w |}).

Definition publicName (e : path * file) : option jsstring :=
  match fst e with
  | InPublic n => Some n
  | Outside _ => None
  end.

(** [fs.readdirSync(PUBLIC_CHARACTERS_DIR)] *)
Definition readdirSync_public : M (list jsstring) :=
  fun w => (inr (omap publicName (map_to_list (files w))), w).

Definition dateNow : M N := fun w => (inr (clock w), w).

(** How often [fs.unlinkSync p] was called, and how often it succeeded. *)
Definition unlinkAttempts (p : path) (w : world) : nat :=
  length (List.filter (fun e => bool_decide (fst e = p)) (unlinkLog w)).

Definition unlinkSuccesses (p : path) (w : world) : nat :=
  length (List.filter (fun e => bool_decide (fst e = p) && snd e) (unlinkLog w)).

(** ** What the module imports

    Language built-ins, third-party packages and the modules of the
    repository that are not among the sources, with the types the code uses
    them at.  [read] and [write] are the two functions of
    [../character-card-parser.js]; [read] receives a buffer at some call
    sites and a path string at others. *)
Inductive jsarg :=
| ArgString (s : jsstring)
| ArgBuffer (b : bytes).

Record Crop := {
  crop_x : N; crop_y : N; crop_width : N; crop_height : N;
  want_resize : bool;
}.

Class Runtime := {
  JSON_parse : jsstring -> exn + value;
  JSON_stringify : value -> jsstring;
  yaml_parse : jsstring -> exn + value;
  utf8_toString : bytes -> jsstring;
  path_parse_name : jsstring -> jsstring;
  humanizedISO8601DateTime : N -> jsstring;
  image : Type;
  Jimp_read_buffer : bytes -> exn + image;
  Jimp_read_path : gmap path file -> jsstring -> exn + image;
  Jimp_crop : image -> N -> N -> N -> N -> exn + image;
  Jimp_resize : image -> N -> N -> exn + image;
  Jimp_getBuffer_png : image -> exn + bytes;
  read : jsarg -> exn + jsstring;
  write : bytes -> jsstring -> exn + bytes;
  AVATAR_WIDTH : N;
  AVATAR_HEIGHT : N;
  DEFAULT_AVATAR_PATH : jsstring;
  PUBLIC_CHARACTERS_DIR : jsstring;
}.

Section Endpoint.
Context `{Runtime}.

(** The string [path.join(PUBLIC_CHARACTERS_DIR, item)], where the code
    hands a path to [read]. *)
Definition publicPathString (item : jsstring) : jsstring :=
  PUBLIC_CHARACTERS_DIR ++ js "/" ++ item.

(** [sanitize(input)] on an arbitrary value: the package throws unless
    the input is a string. *)
Definition sanitizeValue (input : value) : exn + jsstring :=
  match input with
  | VStr s => inr (SanitizeFilename.sanitize s)
  | _ => inl (Error (js "Input must be string"))
  end.

(** [getPngName(name)] on an arbitrary value. *)
Definition getPngNameValue (name : value) : exn + jsstring :=
  match sanitizeValue name with
  | inr sanitizedName => inr (replaceSpecial sanitizedName)
  | inl e => inl e
  end.

(** [preservedFileName || <derived>] : an empty preserved name is falsy. *)
Definition preservedOr (preservedFileName : option jsstring)
    (derived : M jsstring) : M jsstring :=
  match preservedFileName with
  | Some (c :: n) => ret (c :: n)
  | _ => derived
  end.

(** [humanizedISO8601DateTime()] : the current date. *)
Definition humanizedNow : M jsstring :=
  do t <- dateNow; ret (humanizedISO8601DateTime t).

(** *** [readCharacterData] (lines 236-250), called with the default
    format ['png'] throughout *)
Definition readCharacterData (inputFile : jsarg) : M (option jsstring) :=
  tryCatch
    (do result <- lift (read inputFile); ret (Some result))
    (fun error => ret None).

(** *** [parseImageBuffer] and [tryReadImage] (lines 323-355) *)
Definition processImage (image0 : image) (crop : option Crop) : M bytes :=
  do image1 <-
    match crop with
    | Some c =>
        lift (Jimp_crop image0 (crop_x c) (crop_y c) (crop_width c) (crop_height c))
    | None => ret image0
    end;
  do image2 <-
    match crop with
    | Some c =>
        if want_resize c then lift (Jimp_resize image1 AVATAR_WIDTH AVATAR_HEIGHT)
        else ret image1
    | None => ret image1
    end;
  lift (Jimp_getBuffer_png image2).

Definition parseImageBuffer (buffer : bytes) (crop : option Crop) : M bytes :=
  do image0 <- lift (Jimp_read_buffer buffer);
  processImage image0 crop.

Definition tryReadImage (filePath : jsstring) (crop : option Crop) : M bytes :=
  do image0 <- (fun w => (Jimp_read_path (files w) filePath, w));
  processImage image0 crop.

(** *** [writeCharacterData] and its inner [getInputImage]
    (lines 260-315) *)
Definition getInputImage (inputFile : jsarg) (crop : option Crop) : M bytes :=
  tryCatch
    (match inputFile with
     | ArgBuffer buffer => parseImageBuffer buffer crop
     | ArgString filePath => tryReadImage filePath crop
     end)
    (fun error =>
       match inputFile with
       | ArgString filePath =>
           if endsWith filePath (js ".png") then
             tryCatch
               (do originalBuffer <- readFileSync (Outside filePath);
                parseImageBuffer originalBuffer crop)
               (fun extractError => readFileSync (Outside DEFAULT_AVATAR_PATH))
           else readFileSync (Outside DEFAULT_AVATAR_PATH)
       | ArgBuffer _ => readFileSync (Outside DEFAULT_AVATAR_PATH)
       end).

Definition writeCharacterData (inputFile : jsarg) (data : jsstring)
    (outputFile : jsstring) (crop : option Crop) : M bool :=
  tryCatch
    (do inputImage <- getInputImage inputFile crop;
     do outputImage <- lift (write inputImage data);
     let outputImagePath := InPublic (outputFile ++ js ".png") in
     run writeFileAtomicSync outputImagePath outputImage;
     do savedFile <- statSync outputImagePath;
     ret true)
    (fun err => ret false).

(** *** [unsetPrivateFields] and [readFromV2] (lines 644-660) *)
Definition privateFields : list jsstring :=
  [js "user_notes"; js "user_notes_private"; js "user_notes_public";
   js "user_notes_private_visible"; js "user_notes_public_visible"].

Definition unsetPrivateFields (card : value) : exn + value :=
  match deleteProp card (js "user_notes") with
  | inl e => inl e
  | inr c1 =>
  match deleteProp c1 (js "user_notes_private") with
  | inl e => inl e
  | inr c2 =>
  match deleteProp c2 (js "user_notes_public") with
  | inl e => inl e
  | inr c3 =>
  match deleteProp c3 (js "user_notes_private_visible") with
  | inl e => inl e
  | inr c4 => deleteProp c4 (js "user_notes_public_visible")
  end end end end.

Definition readFromV2 (card : value) : value := card.

(** [jsonData.data?.name] *)
Definition dataName (jsonData : value) : exn + value :=
  match getProp jsonData (js "data") with
  | inl e => inl e
  | inr VUndefined => inr VUndefined
  | inr VNull => inr VUndefined
  | inr d => getProp d (js "name")
  end.

(** The three assignments shared by every import branch:
    [create_date], [uploader], [uploader_handle]. *)
Definition stamp (jsonData : value) (uploaderHandle uploaderName : jsstring)
  : M value :=
  do date <- humanizedNow;
  do j1 <- lift (setProp jsonData (js "create_date") (VStr date));
  do j2 <- lift (setProp j1 (js "uploader") (VStr uploaderName));
  lift (setProp j2 (js "uploader_handle") (VStr uploaderHandle)).

(** *** [processCharacter] (lines 374-425) *)
Definition stub (item : jsstring) : value :=
  VObj [(js "date_added", VNum (Num 0 1));
        (js "name", VStr (replaceFirst (js ".png") [] item));
        (js "uploader", VStr (js "Unknown"));
        (js "uploader_handle", VStr (js "unknown"))].

Definition processCharacter (item : jsstring) : M value :=
  tryCatch
    (let imgFile := InPublic item in
     do imgData <-
       tryCatch
         (do fileBuffer <- readFileSync imgFile;
          do text <- lift (read (ArgBuffer fileBuffer));
          ret (Some text))
         (fun bufferError =>
            tryCatch
              (readCharacterData (ArgString (publicPathString item)))
              (fun fileError => throw (Error (js "Failed to read character file"))));
     match imgData with
     | None => throw (Error (js "Failed to read character file"))
     | Some imgData =>
         do jsonObject <- lift (JSON_parse imgData);
         do c1 <- lift (setProp jsonObject (js "avatar") (VStr item));
         do c2 <- lift (setProp c1 (js "json_data") (VStr imgData));
         do charStat <- statSync (InPublic item);
         do c3 <- lift (setProp c2 (js "date_added")
                          (VNum (Num (Z.of_N (ctimeMs charStat)) 1)));
         do create_date <- lift (getProp c3 (js "create_date"));
         do c4 <- lift (setProp c3 (js "create_date")
                          (orElse create_date
                             (VStr (humanizedISO8601DateTime (ctimeMs charStat)))));
         do uploader <- lift (getProp c4 (js "uploader"));
         do c5 <- lift (setProp c4 (js "uploader")
                          (orElse uploader (VStr (js "Unknown"))));
         do uploader_handle <- lift (getProp c5 (js "uploader_handle"));
         do c6 <- lift (setProp c5 (js "uploader_handle")
                          (orElse uploader_handle (VStr (js "unknown"))));
         do description <- lift (getProp c6 (js "description"));
         do c7 <- lift (setProp c6 (js "description")
                          (orElse description (VStr [])));
         do tags <- lift (getProp c7 (js "tags"));
         lift (setProp c7 (js "tags") (orElse tags (VArr [] [])))
     end)
    (fun err => ret (stub item)).

(** *** [importFromYaml] (lines 435-463) *)
Definition importFromYaml (uploadPath uploaderHandle uploaderName : jsstring)
    (preservedFileName : option jsstring) : M jsstring :=
  do fileBytes <- readFileSync (Outside uploadPath);
  let fileText := utf8_toString fileBytes in
  run unlinkSync (Outside uploadPath);
  do yamlData0 <- lift (yaml_parse fileText);
  do rawName <- lift (getProp yamlData0 (js "name"));
  do name <- lift (sanitizeValue rawName);
  do yamlData <- lift (setProp yamlData0 (js "name") (VStr name));
  do fileName <- preservedOr preservedFileName (ret (getPngName name));
  do context <- lift (getProp yamlData (js "context"));
  do greeting <- lift (getProp yamlData (js "greeting"));
  do create_date <- humanizedNow;
  do chat_date <- humanizedNow;
  do tags <- lift (getProp yamlData (js "tags"));
  let char :=
    VObj [(js "name", VStr name);
          (js "description", nullish context (VStr []));
          (js "first_mes", nullish greeting (VStr []));
          (js "create_date", VStr create_date);
          (js "chat", VStr (name ++ js " - " ++ chat_date));
          (js "personality", VStr []);
          (js "creatorcomment", VStr []);
          (js "avatar", VStr (js "none"));
          (js "mes_example", VStr []);
          (js "scenario", VStr []);
          (js "talkativeness", VNum (Num 1 2));
          (js "creator", VStr []);
          (js "tags", orElse tags (VArr [] []));
          (js "uploader", VStr uploaderName);
          (js "uploader_handle", VStr uploaderHandle)] in
  do result <- writeCharacterData (ArgString DEFAULT_AVATAR_PATH)
                 (JSON_stringify char) fileName None;
  ret (if result then fileName else []).

(** *** [importFromJson] (lines 473-502) *)
Definition importFromJson (uploadPath uploaderHandle uploaderName : jsstring)
    (preservedFileName : option jsstring) : M jsstring :=
  do fileBytes <- readFileSync (Outside uploadPath);
  let data := utf8_toString fileBytes in
  run unlinkSync (Outside uploadPath);
  do jsonData <- lift (JSON_parse data);
  do spec <- lift (getProp jsonData (js "spec"));
  if isDefined spec then
    do scrubbed <- lift (unsetPrivateFields jsonData);
    let v2 := readFromV2 scrubbed in
    do stamped <- stamp v2 uploaderHandle uploaderName;
    do pngName <- preservedOr preservedFileName
                    (do dn <- lift (dataName stamped);
                     do n <- lift (getProp stamped (js "name"));
                     lift (getPngNameValue (orElse dn n)));
    let char := JSON_stringify stamped in
    do result <- writeCharacterData (ArgString DEFAULT_AVATAR_PATH) char pngName None;
    ret (if result then pngName else [])
  else
    do name <- lift (getProp jsonData (js "name"));
    if isDefined name then
      do stamped <- stamp jsonData uploaderHandle uploaderName;
      do pngName <- preservedOr preservedFileName
                      (do n <- lift (getProp stamped (js "name"));
                       lift (getPngNameValue n));
      let char := JSON_stringify stamped in
      do result <- writeCharacterData (ArgString DEFAULT_AVATAR_PATH) char pngName None;
      ret (if result then pngName else [])
    else ret [].

(** *** [importFromPng] (lines 512-638) *)

(** The structure check of lines 550-578, reached when both ways of
    reading the metadata threw. *)
Definition analysePng (fileBuffer : bytes) : M (option jsstring) :=
  tryCatch
    (do chunks <- lift (Codec.extract fileBuffer);
     let textChunks := List.filter Codec.isTextChunk chunks in
     if (length textChunks =? 0)%nat then
       throw (Error (js "PNG file does not contain any text chunks (not a character card)"))
     else
       let hasChara :=
         existsb
           (fun chunk =>
              match Codec.textDecode (Codec.data chunk) with
              | inr (keyword, _) => Codec.isCardKeyword keyword
              | inl e => false
              end)
           textChunks in
       if negb hasChara then
         throw (Error (js "PNG file does not contain character card data (chara or ccv3 chunks)"))
       else
         throw (Error (js "PNG file structure is valid but data extraction failed")))
    (fun chunkError =>
       throw (Error (js "PNG analysis failed: " ++ message_of chunkError))).

Definition importFromPng (uploadPath uploaderHandle uploaderName : jsstring)
    (preservedFileName : option jsstring) : M jsstring :=
  tryCatch
    (do fileBuffer <- readFileSync (Outside uploadPath);
     let pngHeader := take 8 fileBuffer in
     let validPngHeader := [0x89; 0x50; 0x4E; 0x47; 0x0D; 0x0A; 0x1A; 0x0A] in
     if negb (bool_decide (pngHeader = validPngHeader)) then
       throw (Error (js "Invalid PNG file header"))
     else
     do imgData <-
       tryCatch
         (do text <- lift (read (ArgBuffer fileBuffer)); ret (Some text))
         (fun readError =>
            tryCatch
              (readCharacterData (ArgString uploadPath))
              (fun fileReadError => analysePng fileBuffer));
     match imgData with
     | None => throw (Error (js "Failed to read character data from PNG"))
     | Some imgData =>
         do jsonData0 <-
           tryCatch (lift (JSON_parse imgData))
             (fun parseError => throw (Error (js "Invalid JSON data in PNG file")));
         do name0 <- lift (getProp jsonData0 (js "name"));
         do dataName0 <- lift (dataName jsonData0);
         if negb (truthy name0) && negb (truthy dataName0) then
           throw (Error (js "Character name not found in PNG file"))
         else
         let originalName := orElse dataName0 name0 in
         do sanitized <- lift (sanitizeValue originalName);
         do jsonData <- lift (setProp jsonData0 (js "name") (VStr sanitized));
         do pngName <- preservedOr preservedFileName (ret (getPngName sanitized));
         do spec <- lift (getProp jsonData (js "spec"));
         if isDefined spec then
           do scrubbed <- lift (unsetPrivateFields jsonData);
           let v2 := readFromV2 scrubbed in
           do stamped <- stamp v2 uploaderHandle uploaderName;
           let char := JSON_stringify stamped in
           do result <- writeCharacterData (ArgString uploadPath) char pngName None;
           run unlinkSync (Outside uploadPath);
           ret (if result then pngName else [])
         else
           do name <- lift (getProp jsonData (js "name"));
           if isDefined name then
             do stamped <- stamp jsonData uploaderHandle uploaderName;
             let char := JSON_stringify stamped in
             do result <- writeCharacterData (ArgString uploadPath) char pngName None;
             run unlinkSync (Outside uploadPath);
             ret (if result then pngName else [])
           else throw (Error (js "Unsupported character card format"))
     end)
    (fun error =>
       do stillThere <- existsSync (Outside uploadPath);
       run (if stillThere then unlinkSync (Outside uploadPath) else ret tt);
       throw error).

(** *** [getPreservedName] (lines 667-669) *)
Definition getPreservedName (preserved_name : option jsstring) : option jsstring :=
  match preserved_name with
  | Some (c :: n) => Some (path_parse_name (c :: n))
  | _ => None
  end.

(** ** The routes *)
Record response := Response { status : N; body : value }.

(** [router.post('/all')] (lines 672-683) *)
Fixpoint processAll (pngFiles : list jsstring) : M (list value) :=
  match pngFiles with
  | [] => ret []
  | file :: rest =>
      do c <- processCharacter file;
      do cs <- processAll rest;
      ret (c :: cs)
  end.

Fixpoint keepNamed (cs : list value) : exn + list value :=
  match cs with
  | [] => inr []
  | c :: rest =>
      match getProp c (js "name"), keepNamed rest with
      | inr n, inr kept => inr (if truthy n then c :: kept else kept)
      | inl e, _ => inl e
      | _, inl e => inl e
      end
  end.

Definition listAll : M response :=
  tryCatch
    (do entries <- readdirSync_public;
     let pngFiles := List.filter (fun file => endsWith file (js ".png")) entries in
     do characters <- processAll pngFiles;
     do data <- lift (keepNamed characters);
     ret (Response 200 (VArr data [])))
    (fun err => ret (Response 500 (VObj [(js "error", VBool true)]))).

(** [router.post('/upload')] (lines 686-758), for a request that has a
    body and a file.  [file_type] and [preserved_name] are form fields: a
    string or absent. *)
Record uploadRequest := UploadRequest {
  upload_path : jsstring;
  file_type : option jsstring;
  preserved_name : option jsstring;
  user_handle : jsstring;
  user_name : jsstring;
}.

Inductive importFunction := ImportYaml | ImportJson | ImportPng.

(** [formatImportFunctions[format]].  The table is an object literal, so
    besides its four own keys the lookup also sees the members inherited
    from [Object.prototype]. *)
Inductive formatLookup :=
| OwnDriver (f : importFunction)
| Absent
| InheritedMember (name : jsstring).

Definition objectPrototypeMembers : list jsstring :=
  [js "constructor"; js "hasOwnProperty"; js "isPrototypeOf";
   js "propertyIsEnumerable"; js "toLocaleString"; js "toString";
   js "valueOf"; js "__proto__"; js "__defineGetter__";
   js "__defineSetter__"; js "__lookupGetter__"; js "__lookupSetter__"].

Definition formatKey (format : option jsstring) : jsstring :=
  match format with
  | Some f => f
  | None => js "undefined"
  end.

Definition formatImportFunctions (format : option jsstring) : formatLookup :=
  let key := formatKey format in
  if bool_decide (key = js "yaml") then OwnDriver ImportYaml
  else if bool_decide (key = js "yml") then OwnDriver ImportYaml
  else if bool_decide (key = js "json") then OwnDriver ImportJson
  else if bool_decide (key = js "png") then OwnDriver ImportPng
  else if bool_decide (key ∈ objectPrototypeMembers) then InheritedMember key
  else Absent.

Definition callImport (f : importFunction)
    (uploadPath uploaderHandle uploaderName : jsstring)
    (preservedFileName : option jsstring) : M jsstring :=
  match f with
  | ImportYaml => importFromYaml uploadPath uploaderHandle uploaderName preservedFileName
  | ImportJson => importFromJson uploadPath uploaderHandle uploaderName preservedFileName
  | ImportPng => importFromPng uploadPath uploaderHandle uploaderName preservedFileName
  end.

Definition errorBody (message : jsstring) : value :=
  VObj [(js "error", VStr message)].

(** What [await importFunction(uploadPath, uploaderHandle, uploaderName,
    preservedFileName)] yields when [importFunction] is a member inherited
    from [Object.prototype].  The call is a plain call in module code,
    which is strict: [this] is [undefined].
    - [constructor] is [Object]: [Object(uploadPath)] is a [String]
      object, which is truthy whatever its length and which
      [response.json] writes as the string;
    - [toString] returns the tag of [undefined];
    - [isPrototypeOf] returns [false], its argument being no object;
    - [__proto__] is [Object.prototype] itself, which is truthy and is no
      function;
    - the other eight convert [this] to an object and throw (the wording
      of the two messages is the engine's). *)
Inductive inheritedResult :=
| StringObject (s : jsstring)
| Primitive (v : value).

Definition callInherited (name uploadPath : jsstring) : exn + inheritedResult :=
  if bool_decide (name = js "constructor") then inr (StringObject uploadPath)
  else if bool_decide (name = js "toString") then
    inr (Primitive (VStr (js "[object Undefined]")))
  else if bool_decide (name = js "isPrototypeOf") then
    inr (Primitive (VBool false))
  else if bool_decide (name = js "__proto__") then
    inl (TypeError (js "importFunction is not a function"))
  else inl (TypeError (js "Cannot convert undefined or null to object")).

(** [!fileName] and the [fileName] that [response.json] writes. *)
Definition resultTruthy (r : inheritedResult) : bool :=
  match r with
  | StringObject _ => true
  | Primitive v => truthy v
  end.

Definition resultJson (r : inheritedResult) : value :=
  match r with
  | StringObject s => VStr s
  | Primitive v => v
  end.

(** The handler proper, given the outcome of the table lookup. *)
Definition uploadWith (found : formatLookup) (request : uploadRequest)
  : M response :=
  let uploadPath := upload_path request in
  let format := file_type request in
  let preservedFileName := getPreservedName (preserved_name request) in
  let uploaderHandle := user_handle request in
  let uploaderName := user_name request in
  tryCatch
    (match found with
     | Absent => throw (Error (js "Unsupported format: " ++ formatKey format))
     | OwnDriver importFunction =>
         do fileName <- callImport importFunction uploadPath uploaderHandle
                          uploaderName preservedFileName;
         if bool_decide (fileName = []) then
           ret (Response 400 (errorBody (js "Failed to import character")))
         else ret (Response 200 (VObj [(js "file_name", VStr fileName)]))
     | InheritedMember name =>
         do fileName <- lift (callInherited name uploadPath);
         if negb (resultTruthy fileName) then
           ret (Response 400 (errorBody (js "Failed to import character")))
         else ret (Response 200 (VObj [(js "file_name", resultJson fileName)]))
     end)
    (fun err =>
       do stillThere <- existsSync (Outside uploadPath);
       run (if stillThere then
              tryCatch (unlinkSync (Outside uploadPath)) (fun cleanupError => ret tt)
            else ret tt);
       ret (Response 400
              (errorBody (match message_of err with
                          | [] => js "Upload failed"
                          | m => m
                          end)))).

Definition upload (request : uploadRequest) : M response :=
  uploadWith (formatImportFunctions (file_type request)) request.

(** [router.post('/delete')] (lines 794-838), after the
    [validateAvatarUrlMiddleware] let the request through;
    [character_name] is a separator-free string or absent. *)
Record deleteRequest := DeleteRequest {
  character_name : option jsstring;
  requester_handle : jsstring;
  requester_admin : bool;
}.

Definition deleteCharacter (request : deleteRequest) : M response :=
  tryCatch
    (match character_name request with
     | Some (c :: n) =>
         let character_name := c :: n in
         let characterPath := InPublic (character_name ++ js ".png") in
         do found <- existsSync characterPath;
         if negb found then
           ret (Response 404 (errorBody (js "Character not found")))
         else
           do info <-
             tryCatch
               (do characterInfo <- processCharacter (character_name ++ js ".png");
                ret (Some characterInfo))
               (fun error => ret None);
           match info with
           | None => ret (Response 500 (errorBody (js "Failed to read character info")))
           | Some characterInfo =>
               let currentUser := requester_handle request in
               let isAdmin := requester_admin request in
               do uploader_handle <- lift (getProp characterInfo (js "uploader_handle"));
               let isUploader := strictEqualsString uploader_handle currentUser in
               if negb isAdmin && negb isUploader then
                 ret (Response 403
                        (errorBody (js "Permission denied. Only admins or the character uploader can delete this character.")))
               else
                 run unlinkSync characterPath;
                 ret (Response 200 (VObj [(js "success", VBool true)]))
           end
     | _ => ret (Response 400 (errorBody (js "Character name is required")))
     end)
    (fun err => ret (Response 500 (errorBody (js "Failed to delete character")))).
End Endpoint.

(* ===================================================================== *)
(** * Part V. A concrete runtime and concrete inputs                      *)
(* ===================================================================== *)

(** The properties of Part X hold for every [Runtime].  To run the code on
    inputs one instance is fixed here: the codec of Part III for [read] and
    [write], an image decoder that accepts exactly the well-formed chunk
    streams, a JSON printer, and a JSON reader that knows the documents of
    the examples. *)
Module Demo.

(** Decimal digits of a natural number. *)
Fixpoint digitsFrom (fuel : nat) (n : N) (acc : jsstring) : jsstring :=
  match fuel with
  | O => acc
  | S fuel' =>
      let acc' := (48 + n mod 10) :: acc in
      if n <? 10 then acc' else digitsFrom fuel' (n / 10) acc'
  end.

Definition decimal (n : N) : jsstring :=
  digitsFrom (S (N.to_nat (N.log2 n))) n [].

Fixpoint fractionDigits (fuel : nat) (r d : N) : jsstring :=
  match fuel with
  | O => []
  | S fuel' =>
      if r =? 0 then []
      else (48 + (r * 10) / d) :: fractionDigits fuel' ((r * 10) mod d) d
  end.

Definition printNumber (n : number) : jsstring :=
  let d := Npos (denominator n) in
  let a := Z.abs_N (numerator n) in
  let sign := if (numerator n <? 0)%Z then js "-" else [] in
  let frac := fractionDigits 17 (a mod d) d in
  sign ++ decimal (a / d) ++ match frac with [] => [] | _ => 46 :: frac end.

(** String literals: only the quote and the backslash are escaped. *)
Definition quote (s : jsstring) : jsstring :=
  34 :: flat_map (fun c => if (c =? 34) || (c =? 92) then [92; c] else [c]) s
    ++ [34].

Definition commaSep (parts : list jsstring) : jsstring :=
  match parts with
  | [] => []
  | p :: ps => p ++ flat_map (fun q => 44 :: q) ps
  end.

(** [JSON.stringify] on the values of Part I. *)
Fixpoint stringify (v : value) : jsstring :=
  match v with
  | VUndefined => js "null"
  | VNull => js "null"
  | VBool true => js "true"
  | VBool false => js "false"
  | VNum n => printNumber n
  | VStr s => quote s
  | VArr items _ =>
      91 :: commaSep (map stringify items) ++ [93]
  | VObj props =>
      123 :: commaSep (map (fun kv => quote (fst kv) ++ 58 :: stringify (snd kv)) props)
        ++ [125]
  end.

(** The documents the examples upload or store. *)
Definition v1Card : value :=
  VObj [(js "name", VStr (js "Aria"));
        (js "uploader", VStr (js "Mallory"));
        (js "uploader_handle", VStr (js "mallory"));
        (js "create_date", VStr (js "1999-1-1 @0h 0m 0s 0ms"))].

Definition v2Card : value :=
  VObj [(js "spec", VStr (js "chara_card_v2"));
        (js "name", VStr (js "Bran"));
        (js "user_notes", VStr (js "private"));
        (js "user_notes_private", VStr (js "more private"));
        (js "data", VObj [(js "name", VStr (js "Bran"))])].

Definition anonymousCard : value :=
  VObj [(js "name", VStr (js "Ghost"))].

Definition documents : list value := [v1Card; v2Card; anonymousCard].

Definition parse (text : jsstring) : exn + value :=
  match List.find (fun v => bool_decide (stringify v = text)) documents with
  | Some v => inr v
  | None => inl (SyntaxError (js "Unexpected token"))
  end.

(** [path.parse(p).name]: the base name without its last extension. *)
Fixpoint afterLastSlash (p acc : jsstring) : jsstring :=
  match p with
  | [] => acc
  | c :: p' => if c =? 47 then afterLastSlash p' p' else afterLastSlash p' acc
  end.

Fixpoint dropExtension (b : jsstring) : jsstring :=
  match b with
  | [] => []
  | c :: b' =>
      if (c =? 46) && negb (existsb (N.eqb 46) b') then []
      else c :: dropExtension b'
  end.

Definition parseName (p : jsstring) : jsstring :=
  match afterLastSlash p p with
  | [] => []
  | c :: b => c :: dropExtension b
  end.

(** A decoded image is represented by its PNG bytes; decoding succeeds
    exactly on well-formed chunk streams. *)
Definition decodeImage (b : bytes) : exn + bytes :=
  match Codec.extract b with
  | inr _ => inr b
  | inl e => inl e
  end.

Definition readCard (input : jsarg) : exn + jsstring :=
  match input with
  | ArgBuffer b =>
      match Codec.decode b with
      | inr payload => inr payload
      | inl Codec.NotACharacterCard => inl (Error (js "No PNG metadata."))
      | inl Codec.MalformedContainer => inl (Error (js "Invalid .png file header"))
      end
  | ArgString _ => inl (Error (js "Invalid .png file header"))
  end.

Definition writeCard (image : bytes) (data : jsstring) : exn + bytes :=
  match Codec.encode image data with
  | inr b => inr b
  | inl _ => inl (Error (js "Invalid .png file header"))
  end.

#[export] Instance runtime : Runtime := {|
  JSON_parse := parse;
  JSON_stringify := stringify;
  yaml_parse := parse;
  utf8_toString := fun b => b;
  path_parse_name := parseName;
  humanizedISO8601DateTime := fun t => decimal t ++ js "ms";
  image := bytes;
  Jimp_read_buffer := decodeImage;
  Jimp_read_path := fun fs p =>
    match fs !! Outside p with
    | Some f => decodeImage (content f)
    | None => inl (ENOENT (js "open"))
    end;
  Jimp_crop := fun i _ _ _ _ => inr i;
  Jimp_resize := fun i _ _ => inr i;
  Jimp_getBuffer_png := fun i => inr i;
  read := readCard;
  write := writeCard;
  AVATAR_WIDTH := 512;
  AVATAR_HEIGHT := 768;
  DEFAULT_AVATAR_PATH := js "public/img/ai4.png";
  PUBLIC_CHARACTERS_DIR := js "data/public_characters";
|}.

(** Images: a one-pixel header, no text segment / a foreign text segment /
    a character card. *)
Definition header : Codec.chunk :=
  Codec.Chunk Codec.IHDR [0; 0; 0; 1; 0; 0; 0; 1; 8; 0; 0; 0; 0].

Definition final : Codec.chunk := Codec.Chunk Codec.IEND [].

Definition plainPng : bytes := Codec.encodeChunks [header; final].

Definition foreignTextPng : bytes :=
  Codec.encodeChunks [header; Codec.textEncode (js "other") (js "hello"); final].

Definition cardPng (v : value) : bytes :=
  Codec.encodeChunks
    [header; Codec.textEncode (js "chara") (Codec.base64Encode (stringify v)); final].

Definition notPng : bytes := js "GIF89a".

Definition tmp : jsstring := js "uploads/3f2a".

Definition avatar : file := File plainPng 7.

(** A world with the default avatar, one upload and a clock at 1000. *)
Definition worldWith (upload : bytes) : world :=
  {| files := <[Outside tmp := File upload 900]>
                (<[Outside (js "public/img/ai4.png") := avatar]> ∅);
     clock := 1000;
     unlinkLog := [] |}.

(** A public directory with one good card, one unreadable artifact and
    one artifact whose metadata names no uploader. *)
Definition library : world :=
  {| files := <[InPublic (js "Aria.png") := File (cardPng v1Card) 10]>
                (<[InPublic (js "Broken.png") := File notPng 20]>
                   (<[InPublic (js "Ghost.png") := File (cardPng anonymousCard) 30]>
                      (<[Outside (js "public/img/ai4.png") := avatar]> ∅)));
     clock := 1000;
     unlinkLog := [] |}.

(** A public directory whose only artifact is an unreadable file named
    [.png]. *)
Definition unnamedLibrary : world :=
  {| files := <[InPublic (js ".png") := File notPng 20]>
                (<[Outside (js "public/img/ai4.png") := avatar]> ∅);
     clock := 1000;
     unlinkLog := [] |}.

Definition alice : jsstring := js "alice".
Definition Alice : jsstring := js "Alice".

Definition pngUpload : uploadRequest :=
  {| upload_path := tmp; file_type := Some (js "png"); preserved_name := None;
     user_handle := alice; user_name := Alice |}.

(** The same upload with a format that names a member of
    [Object.prototype]. *)
Definition toStringUpload : uploadRequest :=
  {| upload_path := tmp; file_type := Some (js "toString");
     preserved_name := None; user_handle := alice; user_name := Alice |}.

(** A JSON upload by the same user. *)
Definition jsonUpload : uploadRequest :=
  {| upload_path := tmp; file_type := Some (js "json"); preserved_name := None;
     user_handle := alice; user_name := Alice |}.


End Demo.

(* ===================================================================== *)
(** * Part VI. Vocabulary of the properties                               *)
(* ===================================================================== *)

(** ** File names *)

(** What [replaceSpecial] leaves in a string: kept units and the filler. *)
Definition safeUnit (c : N) : bool := keptUnit c || (c =? 95).

(** Units outside the surrogate range are encoded one by one. *)
Definition sumUnits (s : jsstring) : N :=
  fold_right (fun c n => SanitizeFilename.unitByteLength c + n) 0 s.

(** Letters of the Latin-1 Supplement block (general category L): U+00C0
    to U+00FF without the multiplication and division signs. *)
Definition latin1Letter (c : N) : bool :=
  (0xC0 <=? c) && (c <=? 0xFF) && negb (c =? 0xD7) && negb (c =? 0xF7).

(** The code units that the sanitiser deletes wherever they stand: the
    C0 and C1 control characters and the nine characters
    [DQUOTE * / : < > ? \ |]. *)
Definition droppedUnit (c : N) : bool :=
  (c <=? 31) || ((128 <=? c) && (c <=? 159))
  || existsb (N.eqb c) [34; 42; 47; 58; 60; 62; 63; 92; 124].

(** ASCII digits, ASCII letters and the ideographs U+4E00 to U+9FFF. *)
Definition lastingUnit (c : N) : bool :=
  ((48 <=? c) && (c <=? 57)) || ((65 <=? c) && (c <=? 90))
  || ((97 <=? c) && (c <=? 122)) || ((19968 <=? c) && (c <=? 40959)).

(** A name that the later steps of the sanitiser leave whole: it does
    not end in a dot or a space, it is no device name that the sanitiser
    reserves ([windowsReservedRe]: con, prn, aux, nul, com0 to com9, lpt0
    to lpt9, in any case, alone or with an extension), and it is at most
    255 bytes long in UTF-8. *)
Definition ordinaryName (s : jsstring) : Prop :=
  list.last s <> Some 46 /\ list.last s <> Some 32
  /\ SanitizeFilename.windowsReservedRe s = false
  /\ SanitizeFilename.byteLength s <= 255.

(** ** The codec *)
Definition isByte (b : N) : Prop := b < 256.

Definition sextetOk (s : N) : bool :=
  match Codec.charSextet (Codec.sextetChar s) with
  | Some s' =>
      (s' =? s) && negb (Codec.sextetChar s =? 61) && negb (Codec.sextetChar s =? 0)
  | None => false
  end.

(** A chunk sequence that [extract] can return: names of four bytes, the
    header first, the end marker last and nowhere else, data that fits a
    32-bit length. *)
Fixpoint streamOk (first : bool) (chunks : list Codec.chunk) : Prop :=
  match chunks with
  | [] => False
  | c :: rest =>
      length (Codec.name c) = 4%nat
      /\ (first = true -> Codec.name c = Codec.IHDR)
      /\ if bool_decide (Codec.name c = Codec.IEND)
         then rest = [] /\ Codec.data c = []
         else N.of_nat (length (Codec.data c)) < 4294967296 /\ streamOk false rest
  end.

(** The segment that [encode] inserts. *)
Definition cardSegment (payload : bytes) : Codec.chunk :=
  Codec.textEncode (js "chara") (Codec.base64Encode payload).

(** A payload whose base64 text, with its keyword, fits the 32-bit length
    of a chunk. *)
Definition fitsChunk (payload : bytes) : Prop :=
  N.of_nat (4 * ((length payload + 2) / 3) + 6) < 4294967296.

(** The result of [encode], chunk by chunk. *)
Definition encodedChunks (chunks : list Codec.chunk) (payload : bytes)
  : list Codec.chunk :=
  Codec.insertBeforeLast (cardSegment payload)
    (List.filter (fun c => negb (Codec.isCardChunk c)) chunks).

(** Modelled from the spec: the canonical record of Section 3
    ([CharacterRecord]); the sources build records as plain JSON objects and
    have no such type.  [rawJson] is "the canonical serialized form", and
    [serialize] returns it as the bytes that get embedded. *)
Inductive specVersion := V1 | V2 | V3.

Record CharacterRecord := {
  recordName : jsstring;
  description : jsstring;
  personality : jsstring;
  scenario : jsstring;
  firstMessage : jsstring;
  exampleDialogue : jsstring;
  creatorNotes : jsstring;
  tags : list jsstring;
  version : specVersion;
  createdAt : N;
  uploaderHandle : jsstring;
  uploaderDisplayName : jsstring;
  rawJson : bytes;
}.

Definition serialize (R : CharacterRecord) : bytes := rawJson R.

(** A record whose serialized form is a byte string that one chunk can
    hold. *)
Definition canonical (R : CharacterRecord) : Prop :=
  Forall isByte (rawJson R) /\ fitsChunk (rawJson R).

(** ** States *)
Definition removeFile (p : path) (w : world) : world :=
  {| files := delete p (files w); clock := clock w;
     unlinkLog := unlinkLog w ++ [(p, true)] |}.

Definition putFile (p : path) (b : bytes) (w : world) : world :=
  {| files := <[p := File b (clock w)]> (files w); clock := clock w;
     unlinkLog := unlinkLog w |}.

(** A computation that reads the state only. *)
Definition readOnly {A} (m : M A) : Prop := forall w, snd (m w) = w.

(** The file [p] and the deletion log are as before. *)
Definition kept (p : path) (w w' : world) : Prop :=
  files w' !! p = files w !! p /\ unlinkLog w' = unlinkLog w.

(** The file [p] is gone, after exactly one more [unlinkSync], which was
    on [p] and succeeded. *)
Definition gone (p : path) (w w' : world) : Prop :=
  files w' !! p = None /\ unlinkLog w' = unlinkLog w ++ [(p, true)].

Definition quiet (p : path) {A} (m : M A) : Prop :=
  forall w, kept p w (snd (m w)).

(** [m] deletes [p] exactly once, whatever its result. *)
Definition deletes (p : path) {A} (m : M A) : Prop :=
  forall w, is_Some (files w !! p) -> gone p w (snd (m w)).

(** [m] deletes [p] exactly once when it returns, and leaves it alone when
    it throws. *)
Definition deletesOnSuccess (p : path) {A} (m : M A) : Prop :=
  forall w, is_Some (files w !! p) ->
    match fst (m w) with
    | inr _ => gone p w (snd (m w))
    | inl _ => kept p w (snd (m w))
    end.

(** The three inherited members that return when the upload route calls
    them as an import function; the other nine throw. *)
Definition returningMembers : list jsstring :=
  [js "constructor"; js "toString"; js "isPrototypeOf"].

(** ** Objects *)

(** [Object.hasOwn(v, k)] for the named properties. *)
Definition hasOwn (v : value) (k : jsstring) : bool :=
  match v with
  | VObj o | VArr _ o => bool_decide (is_Some (assoc_get k o))
  | _ => false
  end.

(** A value that has properties: an object or an array. *)
Definition objectLike (v : value) : Prop :=
  match v with
  | VObj _ | VArr _ _ => True
  | _ => False
  end.

(** The properties [processCharacter] assigns. *)
Definition assignedKeys : list jsstring :=
  [js "avatar"; js "json_data"; js "date_added"; js "create_date";
   js "uploader"; js "uploader_handle"; js "description"; js "tags"].

(** [pattern] occurs in [s] at offset [i]. *)
Definition occursAt (pattern s : jsstring) (i : nat) : Prop :=
  take (length pattern) (drop i s) = pattern.

Section Vocabulary.
Context `{Runtime}.

(** ** The avatar *)

(** The decode attempt of [getInputImage] and its retry on the bytes of
    the original file. *)
Definition decodeAttempt (inputFile : jsarg) (crop : option Crop) : M bytes :=
  match inputFile with
  | ArgBuffer buffer => parseImageBuffer buffer crop
  | ArgString filePath => tryReadImage filePath crop
  end.

Definition decodeRetry (filePath : jsstring) (crop : option Crop) : M bytes :=
  do originalBuffer <- readFileSync (Outside filePath);
  parseImageBuffer originalBuffer crop.

(** The image [getInputImage] settles on when the default avatar is
    [avatar]. *)
Definition chosenImage (inputFile : jsarg) (crop : option Crop)
    (avatar : file) (w : world) : bytes :=
  match fst (decodeAttempt inputFile crop w) with
  | inr imageBytes => imageBytes
  | inl _ =>
      match inputFile with
      | ArgString filePath =>
          if endsWith filePath (js ".png") then
            match fst (decodeRetry filePath crop w) with
            | inr imageBytes => imageBytes
            | inl _ => content avatar
            end
          else content avatar
      | ArgBuffer _ => content avatar
      end
  end.








(** ** Imports *)

(** What the record carries once an import has stamped it. *)
Definition stampedBy (uploaderHandle uploaderName : jsstring) (t : N)
    (record : value) : Prop :=
  getProp record (js "uploader") = inr (VStr uploaderName)
  /\ getProp record (js "uploader_handle") = inr (VStr uploaderHandle)
  /\ getProp record (js "create_date")
     = inr (VStr (humanizedISO8601DateTime t)).

Definition stampKeys : list jsstring :=
  [js "create_date"; js "uploader"; js "uploader_handle"].

(** No private-note field is left on the record. *)
Definition scrubbed (record : value) : Prop :=
  forall k, k ∈ privateFields -> hasOwn record k = false.

(** The artifact [fileName.png] of the public directory embeds
    [record]. *)
Definition persisted (w : world) (fileName : jsstring) (record : value) : Prop :=
  exists image stored,
    write image (JSON_stringify record) = inr stored
    /\ files w !! InPublic (fileName ++ js ".png") = Some (File stored (clock w)).

(** The text an import reads from the upload: the file itself, or for a
    PNG the metadata that [read] finds in it (given the buffer, or else
    given the path). *)
Definition uploadedText (f : importFunction) (uploadPath : jsstring)
    (w : world) : option jsstring :=
  match files w !! Outside uploadPath with
  | None => None
  | Some upload =>
      match f with
      | ImportPng =>
          match read (ArgBuffer (content upload)) with
          | inr text => Some text
          | inl _ =>
              match read (ArgString uploadPath) with
              | inr text => Some text
              | inl _ => None
              end
          end
      | _ => Some (utf8_toString (content upload))
      end
  end.

(** The payload an import works on. *)
Definition parsedPayload (f : importFunction) (uploadPath : jsstring)
    (w : world) : option value :=
  match uploadedText f uploadPath w with
  | None => None
  | Some text =>
      match (match f with ImportYaml => yaml_parse | _ => JSON_parse end) text with
      | inr payload => Some payload
      | inl _ => None
      end
  end.

(** What an accepted import has stored. *)
Definition acceptedRecord (f : importFunction) (uploadPath h n : jsstring)
    (w w' : world) (fileName : jsstring) (record : value) : Prop :=
  persisted w' fileName record
  /\ clock w' = clock w
  /\ stampedBy h n (clock w) record
  /\ (f <> ImportYaml ->
      (exists payload,
          parsedPayload f uploadPath w = Some payload
          /\ getProp record (js "spec") = getProp payload (js "spec"))
      /\ forall spec, getProp record (js "spec") = inr spec ->
                      isDefined spec = true -> scrubbed record).

(** ** The listing *)

(** The metadata text of a stored artifact, as [processCharacter] gets it,
    and the record it parses to. *)
Definition storedText (item : jsstring) (w : world) : option jsstring :=
  match
    match files w !! InPublic item with
    | Some artifact => read (ArgBuffer (content artifact))
    | None => inl (ENOENT (js "open"))
    end
  with
  | inr text => Some text
  | inl _ =>
      match read (ArgString (publicPathString item)) with
      | inr text => Some text
      | inl _ => None
      end
  end.

Definition storedRecord (item : jsstring) (w : world) : option value :=
  match storedText item w with
  | None => None
  | Some text =>
      match JSON_parse text with
      | inr record => Some record
      | inl _ => None
      end
  end.

(** The entry of the listing for [item]. *)
Definition entryOf (w : world) (item : jsstring) : value :=
  match fst (processCharacter item w) with
  | inr character => character
  | inl _ => stub item
  end.

(** [c => c.name] *)
Definition listed (c : value) : bool :=
  match getProp c (js "name") with
  | inr n => truthy n
  | inl _ => false
  end.

Definition pngFiles (w : world) : list jsstring :=
  List.filter (fun file => endsWith file (js ".png"))
    (omap publicName (map_to_list (files w))).

(** ** Deletion *)

(** The handle [router.post('/delete')] compares the requester with. *)
Definition effectiveHandle (w : world) (item : jsstring) : value :=
  match getProp (entryOf w item) (js "uploader_handle") with
  | inr handle => handle
  | inl _ => VUndefined
  end.

Definition permissionDenied : response :=
  Response 403
    (errorBody (js "Permission denied. Only admins or the character uploader can delete this character.")).

Definition deleted : response :=
  Response 200 (VObj [(js "success", VBool true)]).

End Vocabulary.

(** A record for the examples. *)
Definition exampleRecord : CharacterRecord :=
  {| recordName := js "Aria"; description := []; personality := [];
     scenario := []; firstMessage := []; exampleDialogue := [];
     creatorNotes := []; tags := []; version := V1; createdAt := 1000;
     uploaderHandle := Demo.alice; uploaderDisplayName := Demo.Alice;
     rawJson := Demo.stringify Demo.v1Card |}.

(** Two imports of the examples: a V1 JSON file that claims another
    uploader, and a V2 card with private notes inside a PNG. *)
Definition v1JsonRun : (exn + jsstring) * world :=
  callImport (H := Demo.runtime) ImportJson Demo.tmp Demo.alice Demo.Alice None
    (Demo.worldWith (Demo.stringify Demo.v1Card)).

Definition v2PngRun : (exn + jsstring) * world :=
  callImport (H := Demo.runtime) ImportPng Demo.tmp Demo.alice Demo.Alice None
    (Demo.worldWith (Demo.cardPng Demo.v2Card)).

(* ===================================================================== *)
(** * Part VII. Chat tracking and the system monitor                      *)
(* ===================================================================== *)

(** ** Computations over any state

    The shape of [M], for the modules whose state is not the file system:
    a computation returns a value or throws, and leaves a state behind in
    both cases. *)
Definition Eff (S A : Type) : Type := S -> (exn + A) * S.

Definition pure {S A} (a : A) : Eff S A := fun s => (inr a, s).

Definition raise {S A} (e : exn) : Eff S A := fun s => (inl e, s).

Definition andThen {S A B} (m : Eff S A) (k : A -> Eff S B) : Eff S B :=
  fun s =>
    match m s with
    | (inr a, s') => k a s'
    | (inl e, s') => (inl e, s')
    end.

(** [try { m } catch (e) { h e }] *)
Definition attempt {S A} (m : Eff S A) (h : exn -> Eff S A) : Eff S A :=
  fun s =>
    match m s with
    | (inl e, s') => h e s'
    | r => r
    end.

Definition fromResult {S A} (r : exn + A) : Eff S A := fun s => (r, s).

Definition gets {S A} (f : S -> A) : Eff S A := fun s => (inr (f s), s).

Definition modify {S} (f : S -> S) : Eff S unit := fun s => (inr tt, f s).

Declare Scope eff_scope.
Delimit Scope eff_scope with eff.
Notation "'do' x <- m ; k" := (andThen m (fun x => k))
  (at level 10, x name, m at level 100, k at level 200) : eff_scope.
Notation "'run' m ; k" := (andThen m (fun _ => k))
  (at level 10, m at level 100, k at level 200) : eff_scope.

(** [items.forEach(f)]: an exception thrown by [f] ends the loop. *)
Fixpoint forEach {S A} (items : list A) (f : A -> Eff S unit) : Eff S unit :=
  match items with
  | [] => pure tt
  | item :: rest => andThen (f item) (fun _ => forEach rest f)
  end.

(** [s.includes(part)] *)
Fixpoint includes (s part : jsstring) : bool :=
  bool_decide (take (length part) s = part)
  || match s with
     | [] => false
     | _ :: s' => includes s' part
     end.

(** [x++] on a counter.  A counter is a JavaScript number holding a whole
    value: the increment is exact below 2^53 and leaves 2^53 as it is. *)
Definition increment (n : N) : N := N.min (n + 1) 9007199254740992.

(** ** What the two modules take from the platform

    The clock, the load probes of [node:os] and the conversions of the
    language.  [getSystemLoad] (system-monitor.js, lines 52-68) and the
    methods it calls read the clock and the operating system and keep their
    own fields ([lastCpuInfo], [lastCpuTime], [cpuUsageHistory],
    [lastNetworkStats]); all of that is the [environment], and the value
    they return is a [loadSample]. *)
Class Platform := {
  environment : Type;
  Date_now : environment -> N * environment;
  toDateString : N -> jsstring;
  Number_toString : number -> jsstring;
  ToPrimitive_string : value -> exn + jsstring;
  Date_getTime : value -> exn + value;
  loadSample : Type;
  getSystemLoad : environment -> loadSample * environment;
}.

Module SystemMonitor.
Local Open Scope eff_scope.

(** ** The statistics kept per user (system-monitor.js, lines 314-325,
    347-352 and 370-375) *)
Record dayStats := DayStats {
  messages : N;
  day_userMessages : N;
  day_characterMessages : N;
  firstMessage : N;
}.

Record charStats := CharStats {
  chat_totalMessages : N;
  chat_userMessages : N;
  chat_characterMessages : N;
  lastChat : N;
}.

Record userStats := UserStats {
  totalUserMessages : N;
  totalCharacterMessages : N;
  totalMessages : N;
  sessionsToday : N;
  lastActivity : N;
  firstActivity : N;
  todayMessages : N;
  lastMessageTime : N;
  characterChats : gmap jsstring charStats;
  dailyStats : gmap jsstring dayStats;
}.

(** [characterChats] is an object literal indexed by a name the client
    chooses, so a lookup also sees [Object.prototype]: its eleven function
    members, the accessor [__proto__] (which yields [Object.prototype]
    itself), and whatever an earlier call stored there.  A call whose
    character name is [__proto__] stores [lastChat] on [Object.prototype];
    the other three properties it touches there hold [NaN], which is
    falsy. *)
Definition functionMembers : list jsstring :=
  [js "constructor"; js "hasOwnProperty"; js "isPrototypeOf";
   js "propertyIsEnumerable"; js "toLocaleString"; js "toString";
   js "valueOf"; js "__defineGetter__"; js "__defineSetter__";
   js "__lookupGetter__"; js "__lookupSetter__"].

Inductive member :=
| OwnStats (c : charStats)
| BuiltinFunction
| ObjectPrototype
| InheritedNumber (t : N)
| NoMember.

Definition lookupChat (chats : gmap jsstring charStats)
    (prototypeLastChat : option N) (name : jsstring) : member :=
  match chats !! name with
  | Some c => OwnStats c
  | None =>
      if bool_decide (name = js "__proto__") then ObjectPrototype
      else if bool_decide (name ∈ functionMembers) then BuiltinFunction
      else
        match prototypeLastChat with
        | Some t =>
            if bool_decide (name = js "lastChat") then InheritedNumber t
            else NoMember
        | None => NoMember
        end
  end.

Definition memberTruthy (found : member) : bool :=
  match found with
  | OwnStats _ | BuiltinFunction | ObjectPrototype => true
  | InheritedNumber t => negb (t =? 0)
  | NoMember => false
  end.

Section Monitor.
Context `{Platform}.

Record loadEntry := LoadEntry { load : loadSample; activeUsers : N }.

(** The fields of the [SystemMonitor] instance that the methods below use,
    with the environment and the one piece of [Object.prototype] that
    [recordUserChatActivity] can write and read back. *)
Record monitor := Monitor {
  userLoadStats : gmap jsstring userStats;
  systemLoadHistory : list loadEntry;
  prototypeLastChat : option N;
  host : environment;
}.

Definition St (A : Type) : Type := Eff monitor A.

(** [Date.now()] *)
Definition now : St N :=
  fun m =>
    let reading := Date_now (host m) in
    (inr (fst reading),
     Monitor (userLoadStats m) (systemLoadHistory m) (prototypeLastChat m)
       (snd reading)).

(** [this.getSystemLoad()] *)
Definition sampleLoad : St loadSample :=
  fun m =>
    let probe := getSystemLoad (host m) in
    (inr (fst probe),
     Monitor (userLoadStats m) (systemLoadHistory m) (prototypeLastChat m)
       (snd probe)).

(** [this.userLoadStats.get(userHandle)], used at once: a property access
    on [undefined] throws. *)
Definition getUser (userHandle : jsstring) : St userStats :=
  fun m =>
    match userLoadStats m !! userHandle with
    | Some u => (inr u, m)
    | None =>
        (inl (TypeError (js "Cannot read properties of undefined")), m)
    end.

(** The statistics object of a user is shared with the map: an assignment
    to one of its properties is an update of the map. *)
Definition setUser (userHandle : jsstring) (u : userStats) : St unit :=
  modify (fun m =>
    Monitor (<[userHandle := u]> (userLoadStats m)) (systemLoadHistory m)
      (prototypeLastChat m) (host m)).

Definition setPrototypeLastChat (t : N) : St unit :=
  modify (fun m =>
    Monitor (userLoadStats m) (systemLoadHistory m) (Some t) (host m)).

Definition maxHistoryLength : nat := 100.

(** [10 * 60 * 1000] *)
Definition activeThreshold : Z := 600000.

(** [currentTime - stats.lastActivity <= activeThreshold] *)
Definition active (currentTime : N) (stats : userStats) : bool :=
  (Z.of_N currentTime - Z.of_N (lastActivity stats) <=? activeThreshold)%Z.

(** [ToPropertyKey]: the conversion of [obj[v]]. *)
Definition ToPropertyKey (v : value) : exn + jsstring :=
  match v with
  | VStr s => inr s
  | VUndefined => inr (js "undefined")
  | VNull => inr (js "null")
  | VBool true => inr (js "true")
  | VBool false => inr (js "false")
  | VNum n => inr (Number_toString n)
  | VArr _ _ | VObj _ => ToPrimitive_string v
  end.

(** [messageType === 'user'] and [messageType === 'character'] *)
Definition isUser (messageType : value) : bool :=
  strictEqualsString messageType (js "user").

Definition isCharacter (messageType : value) : bool :=
  negb (isUser messageType) && strictEqualsString messageType (js "character").

(** *** [recordUserChatActivity] (system-monitor.js, lines 312-388) *)

(** Lines 314-325. *)
Definition newUserStats (t1 t2 t3 : N) : userStats :=
  {| totalUserMessages := 0; totalCharacterMessages := 0; totalMessages := 0;
     sessionsToday := 0; lastActivity := t1; firstActivity := t2;
     todayMessages := 0; lastMessageTime := t3;
     characterChats := ∅; dailyStats := ∅ |}.

(** Lines 332-341. *)
Definition countMessage (messageType : value) (t1 t2 : N) (u : userStats)
  : userStats :=
  {| totalUserMessages :=
       if isUser messageType then increment (totalUserMessages u)
       else totalUserMessages u;
     totalCharacterMessages :=
       if isCharacter messageType then increment (totalCharacterMessages u)
       else totalCharacterMessages u;
     totalMessages := increment (totalMessages u);
     sessionsToday := sessionsToday u;
     lastActivity := t1;
     firstActivity := firstActivity u;
     todayMessages := todayMessages u;
     lastMessageTime := t2;
     characterChats := characterChats u;
     dailyStats := dailyStats u |}.

Definition withDailyStats (days : gmap jsstring dayStats) (today : N)
    (u : userStats) : userStats :=
  {| totalUserMessages := totalUserMessages u;
     totalCharacterMessages := totalCharacterMessages u;
     totalMessages := totalMessages u;
     sessionsToday := sessionsToday u;
     lastActivity := lastActivity u;
     firstActivity := firstActivity u;
     todayMessages := today;
     lastMessageTime := lastMessageTime u;
     characterChats := characterChats u;
     dailyStats := days |}.

Definition withCharacterChats (chats : gmap jsstring charStats)
    (u : userStats) : userStats :=
  {| totalUserMessages := totalUserMessages u;
     totalCharacterMessages := totalCharacterMessages u;
     totalMessages := totalMessages u;
     sessionsToday := sessionsToday u;
     lastActivity := lastActivity u;
     firstActivity := firstActivity u;
     todayMessages := todayMessages u;
     lastMessageTime := lastMessageTime u;
     characterChats := chats;
     dailyStats := dailyStats u |}.

(** Lines 347-352. *)
Definition newDayStats (t : N) : dayStats :=
  {| messages := 0; day_userMessages := 0; day_characterMessages := 0;
     firstMessage := t |}.

(** Lines 356-361. *)
Definition countDay (messageType : value) (d : dayStats) : dayStats :=
  {| messages := increment (messages d);
     day_userMessages :=
       if isUser messageType then increment (day_userMessages d)
       else day_userMessages d;
     day_characterMessages :=
       if isCharacter messageType then increment (day_characterMessages d)
       else day_characterMessages d;
     firstMessage := firstMessage d |}.

(** Lines 370-375. *)
Definition newCharStats (t : N) : charStats :=
  {| chat_totalMessages := 0; chat_userMessages := 0;
     chat_characterMessages := 0; lastChat := t |}.

(** Lines 379-386. *)
Definition countChat (messageType : value) (t : N) (c : charStats) : charStats :=
  {| chat_totalMessages := increment (chat_totalMessages c);
     chat_userMessages :=
       if isUser messageType then increment (chat_userMessages c)
       else chat_userMessages c;
     chat_characterMessages :=
       if isCharacter messageType then increment (chat_characterMessages c)
       else chat_characterMessages c;
     lastChat := t |}.

(** Lines 368-387, once the name is known to be truthy. *)
Definition recordCharacter (userHandle : jsstring) (messageType : value)
    (name : jsstring) : St unit :=
  do u <- getUser userHandle;
  do proto <- gets prototypeLastChat;
  run (if memberTruthy (lookupChat (characterChats u) proto name) then pure tt
       else
         do t <- now;
         setUser userHandle
           (withCharacterChats (<[name := newCharStats t]> (characterChats u)) u));
  do u <- getUser userHandle;
  match lookupChat (characterChats u) proto name with
  | OwnStats c =>
      do t <- now;
      setUser userHandle
        (withCharacterChats
           (<[name := countChat messageType t c]> (characterChats u)) u)
  | ObjectPrototype => do t <- now; setPrototypeLastChat t
  | BuiltinFunction => do t <- now; pure tt
  | InheritedNumber _ =>
      raise (TypeError (js "Cannot create property 'totalMessages' on number"))
  | NoMember => raise (TypeError (js "Cannot read properties of undefined"))
  end.

(** Lines 313-365: the totals and the statistics of the day.  The key
    [today] has the form of [Tue Nov 03 2026]; it never names a member of
    [Object.prototype], so [dailyStats[today]] is a lookup among the own
    properties. *)
Definition recordTotals (userHandle : jsstring) (messageType : value) : St unit :=
  do known <- gets (fun m => bool_decide (is_Some (userLoadStats m !! userHandle)));
  run (if known then pure tt
       else
         do t1 <- now; do t2 <- now; do t3 <- now;
         setUser userHandle (newUserStats t1 t2 t3));
  do userStats <- getUser userHandle;
  do today <- (do t <- now; pure (toDateString t));
  do t1 <- now;
  do t2 <- now;
  let userStats := countMessage messageType t1 t2 userStats in
  run setUser userHandle userStats;
  do days <-
    match dailyStats userStats !! today with
    | Some _ => pure (dailyStats userStats)
    | None => do t <- now; pure (<[today := newDayStats t]> (dailyStats userStats))
    end;
  do todayStats <-
    match days !! today with
    | Some d => pure (countDay messageType d)
    | None => raise (TypeError (js "Cannot read properties of undefined"))
    end;
  setUser userHandle
    (withDailyStats (<[today := todayStats]> days) (messages todayStats) userStats).

Definition recordUserChatActivity (userHandle : jsstring)
    (messageType messageData : value) : St unit :=
  let messageData :=
    match messageData with
    | VUndefined => VObj []
    | _ => messageData
    end in
  run recordTotals userHandle messageType;
  do characterName <- fromResult (getProp messageData (js "characterName"));
  if truthy characterName then
    do name <- fromResult (ToPropertyKey characterName);
    recordCharacter userHandle messageType name
  else pure tt.

(** *** [getActiveUserCount] (lines 292-304) *)
Definition getActiveUserCount : St N :=
  do currentTime <- now;
  gets (fun m =>
    N.of_nat (length (List.filter (fun e => active currentTime (snd e))
                        (map_to_list (userLoadStats m))))).

(** *** [updateSystemLoad] (lines 261-286) *)
Definition pushHistory (entry : loadEntry) : St unit :=
  modify (fun m =>
    let history := systemLoadHistory m ++ [entry] in
    Monitor (userLoadStats m)
      (if (maxHistoryLength <? length history)%nat then drop 1 history
       else history)
      (prototypeLastChat m) (host m)).

Definition updateSystemLoad : St unit :=
  do currentTime <- now;
  do hasActiveUsers <-
    gets (fun m =>
      existsb (fun e => active currentTime (snd e))
        (map_to_list (userLoadStats m)));
  if hasActiveUsers then
    do currentLoad <- sampleLoad;
    do count <- getActiveUserCount;
    pushHistory (LoadEntry currentLoad count)
  else pure tt.

(** *** [getSystemLoadHistory] (lines 487-489) *)

(** [a.slice(start)] for a whole [start]. *)
Definition slice {A} (start : Z) (a : list A) : list A :=
  let len := Z.of_nat (length a) in
  let k := if (start <? 0)%Z then Z.max (len + start) 0 else Z.min start len in
  drop (Z.to_nat k) a.

Definition getSystemLoadHistory (limit : Z) (m : monitor) : list loadEntry :=
  slice (- limit) (systemLoadHistory m).

(** *** [resetUserStats] (lines 495-497) *)
Definition resetUserStats (userHandle : jsstring) : St unit :=
  modify (fun m =>
    Monitor (delete userHandle (userLoadStats m)) (systemLoadHistory m)
      (prototypeLastChat m) (host m)).

(** *** [calculateChatActivityLevel] (lines 447-455) *)
Definition calculateChatActivityLevel (u : userStats) : jsstring :=
  let todayMessages := todayMessages u in
  if 100 <=? todayMessages then js "very_high"
  else if 50 <=? todayMessages then js "high"
  else if 20 <=? todayMessages then js "medium"
  else if 5 <=? todayMessages then js "low"
  else js "minimal".

(** ** The chat tracker (chatTracker.js, first document, lines 1-186) *)

(** The request as the middleware reads it.  [user_profile_handle] is
    [request.user?.profile?.handle]: a string, or absent. *)
Record trackedRequest := TrackedRequest {
  request_path : jsstring;
  request_method : jsstring;
  request_body : value;
  user_profile_handle : option jsstring;
}.

(** The two properties of the response that the tracker uses. *)
Record trackedResponse := TrackedResponse {
  chatTracked : bool;
  statusCode : N;
}.

Definition chatEndpoints : list jsstring :=
  [js "/api/chats/save";
   js "/api/chats/group/save";
   js "/api/backends/chat-completions/generate";
   js "/api/backends/text-completions/generate";
   js "/api/generate";
   js "/api/openai/generate"].

(** Lines 19-23. *)
Definition isChatEndpoint (request : trackedRequest) : bool :=
  existsb
    (fun endpoint =>
       bool_decide (request_path request = endpoint)
       || includes (request_path request) (js "/generate")
       || includes (request_path request) (js "/save"))
    chatEndpoints.

(** [request.user?.profile?.handle || 'anonymous'] *)
Definition userHandleOf (request : trackedRequest) : jsstring :=
  match user_profile_handle request with
  | Some (c :: h) => c :: h
  | _ => js "anonymous"
  end.

(** The callback of the three [forEach] loops (lines 50-61, 71-82 and
    168-180); [fallback] is the name used when the message has none. *)
Definition trackMessage (userHandle fallback : jsstring) (message : value)
  : St unit :=
  do mes <- fromResult (getProp message (js "mes"));
  do send_date <- fromResult (getProp message (js "send_date"));
  if truthy mes && truthy send_date then
    do is_user <- fromResult (getProp message (js "is_user"));
    let messageType := if truthy is_user then js "user" else js "character" in
    do name <- fromResult (getProp message (js "name"));
    do timestamp <- fromResult (Date_getTime send_date);
    let messageData :=
      VObj [(js "content", mes);
            (js "characterName", orElse name (VStr fallback));
            (js "timestamp", timestamp)] in
    recordUserChatActivity userHandle (VStr messageType) messageData
  else pure tt.

(** Lines 44-62 and 65-83. *)
Definition trackSavedChat (userHandle fallback : jsstring) (body : value)
  : St unit :=
  do chatData <- fromResult (getProp body (js "chat"));
  match chatData with
  | VArr items _ => forEach items (trackMessage userHandle fallback)
  | _ => pure tt
  end.

(** [a[a.length - 1]] *)
Definition lastItem (items : list value) : value :=
  List.last items VUndefined.

(** [lastMessage?.content] and [lastMessage?.text] *)
Definition optionalProp (v : value) (k : jsstring) : exn + value :=
  match v with
  | VUndefined | VNull => inr VUndefined
  | _ => getProp v k
  end.

(** The names of the two save endpoints in Chinese: [unknownCharacter] is
    the literal of lines 55 and 88, [groupChat] the one of line 76. *)
Definition unknownCharacter : jsstring := [0x672A; 0x77E5; 0x89D2; 0x8272].
Definition groupChat : jsstring := [0x7FA4; 0x804A].

(** Lines 86-116. *)
Definition trackGeneration (userHandle : jsstring) (body : value)
    (response : trackedResponse) : St unit :=
  if statusCode response =? 200 then
    do messages <- fromResult (getProp body (js "messages"));
    do userMessage <-
      match messages with
      | VArr items _ =>
          let lastMessage := lastItem items in
          do content <- fromResult (optionalProp lastMessage (js "content"));
          if truthy content then pure content
          else
            do text <- fromResult (optionalProp lastMessage (js "text"));
            pure (orElse text (VStr []))
      | _ =>
          do prompt <- fromResult (getProp body (js "prompt"));
          if truthy prompt then pure prompt
          else
            do text <- fromResult (getProp body (js "text"));
            pure (if truthy text then text else VStr [])
      end;
    do character_name <- fromResult (getProp body (js "character_name"));
    do characterName <-
      (if truthy character_name then pure character_name
       else
         do name <- fromResult (getProp body (js "name"));
         pure (if truthy name then name else VStr unknownCharacter));
    if truthy userMessage then
      do timestamp <- now;
      let requestData :=
        VObj [(js "content", userMessage);
              (js "characterName", characterName);
              (js "timestamp", VNum (Num (Z.of_N timestamp) 1));
              (js "isGeneration", VBool true)] in
      recordUserChatActivity userHandle (VStr (js "user")) requestData
    else pure tt
  else pure tt.

(** [trackChatActivity] (lines 36-121): the closure that [response.send],
    [response.json] and the [finish] and [close] events all call. *)
Definition trackChatActivity (request : trackedRequest)
    (response : trackedResponse) : St trackedResponse :=
  if chatTracked response then pure response
  else
    let response := TrackedResponse true (statusCode response) in
    let userHandle := userHandleOf request in
    let isPost := bool_decide (request_method request = js "POST") in
    run attempt
          (if bool_decide (request_path request = js "/api/chats/save") && isPost then
             trackSavedChat userHandle unknownCharacter (request_body request)
           else if bool_decide (request_path request = js "/api/chats/group/save") && isPost then
             trackSavedChat userHandle groupChat (request_body request)
           else if includes (request_path request) (js "/generate") && isPost then
             trackGeneration userHandle (request_body request) response
           else pure tt)
          (fun error => pure tt);
    pure response.

(** The middleware proper (lines 8-140): whether it wraps the response
    before it calls [next()]. *)
Definition chatTrackerMiddleware (request : trackedRequest) : bool :=
  isChatEndpoint request.

(** [recordChatMessage] (lines 150-156) *)
Definition recordChatMessage (userHandle : jsstring)
    (messageType messageData : value) : St unit :=
  attempt (recordUserChatActivity userHandle messageType messageData)
    (fun error => pure tt).

(** [recordChatHistory] (lines 164-186) *)
Definition recordChatHistory (userHandle : jsstring) (chatHistory : value)
  : St unit :=
  attempt
    (match chatHistory with
     | VArr items _ => forEach items (trackMessage userHandle (js "Unknown"))
     | _ => pure tt
     end)
    (fun error => pure tt).

End Monitor.
End SystemMonitor.

(** ** Vocabulary of the monitor and of the tracker *)
Section MonitorVocabulary.
Import SystemMonitor.
Local Open Scope eff_scope.
Context `{Platform}.

(** The statistics of [userHandle], or those of a user seen for the
    first time. *)
Definition previous (m : monitor) (userHandle : jsstring) : userStats :=
  default (newUserStats 0 0 0) (userLoadStats m !! userHandle).

(** The statistics [u] after lines 328-365 counted one message on the day
    [today]; [t1], [t2] and [t3] are the readings of the clock. *)
Definition counted (messageType : value) (today : jsstring) (t1 t2 t3 : N)
    (u : userStats) : userStats :=
  let d :=
    countDay messageType (default (newDayStats t3) (dailyStats u !! today)) in
  withDailyStats (<[today := d]> (dailyStats u)) (messages d)
    (countMessage messageType t1 t2 u).

(** One call of [recordChatMessage]. *)
Record activity := Activity {
  activity_user : jsstring;
  activity_type : value;
  activity_data : value;
}.

(** A run of calls, one after the other. *)
Definition recordEach (calls : list activity) : St unit :=
  forEach calls
    (fun c => recordChatMessage (activity_user c) (activity_type c) (activity_data c)).

(** How many of the calls are for [userHandle] with a type [kind] accepts. *)
Definition callsOf (userHandle : jsstring) (kind : value -> bool)
    (calls : list activity) : N :=
  N.of_nat (length (List.filter
    (fun c => bool_decide (activity_user c = userHandle) && kind (activity_type c))
    calls)).

(** The value of a counter that was incremented [n] times from zero. *)
Definition saturated (n : N) : N := N.min n 9007199254740992.

(** The messages of all days together. *)
Definition sumMessages (days : gmap jsstring dayStats) : N :=
  map_fold (fun _ d total => messages d + total) 0 days.

(** Some user was active in the ten minutes before [currentTime]. *)
Definition someoneActive (currentTime : N) (m : monitor) : Prop :=
  exists userHandle stats,
    userLoadStats m !! userHandle = Some stats /\ active currentTime stats = true.

(** The reading [Date.now()] gives in the state [m]. *)
Definition reading (m : monitor) : N := fst (Date_now (host m)).

(** The message has a text and a date: the test of lines 51, 72 and 169. *)
Definition hasTextAndDate (message : value) : bool :=
  match getProp message (js "mes"), getProp message (js "send_date") with
  | inr mes, inr send_date => truthy mes && truthy send_date
  | _, _ => false
  end.

(** A name that is absent, or a string other than [__proto__] and
    [lastChat]. *)
Definition plainName (name : value) : bool :=
  match name with
  | VStr s =>
      negb (bool_decide (s = js "__proto__"))
      && negb (bool_decide (s = js "lastChat"))
  | _ => negb (truthy name)
  end.

(** A message on which the callback of the loops does not throw: it is
    not [null], and if it has a text and a date then its date converts and
    its name is plain. *)
Definition plainMessage (message : value) : bool :=
  match getProp message (js "mes"), getProp message (js "send_date"),
        getProp message (js "name") with
  | inr mes, inr send_date, inr name =>
      negb (truthy mes && truthy send_date)
      || (plainName name
          && match Date_getTime send_date with
             | inr _ => true
             | inl _ => false
             end)
  | _, _, _ => false
  end.

(** How many of the items have a text and a date. *)
Definition countRecorded (items : list value) : N :=
  N.of_nat (length (List.filter hasTextAndDate items)).

(** The two endpoints whose body is a saved chat. *)
Definition saveEndpoints : list jsstring :=
  [js "/api/chats/save"; js "/api/chats/group/save"].
End MonitorVocabulary.

(** ** A concrete platform and concrete inputs *)
Module DemoPlatform.
Import SystemMonitor.

(** The environment is the clock, which advances by one second at each
    reading; the number of the day stands for the date string, and a load
    sample carries nothing. *)
#[export] Instance platform : Platform := {|
  environment := N;
  Date_now := fun t => (t, t + 1000);
  toDateString := fun t => js "day " ++ Demo.decimal (t / 86400000);
  Number_toString := Demo.printNumber;
  ToPrimitive_string := fun v => inr (js "[object Object]");
  Date_getTime := fun v => inr (VNum (Num 0 1));
  loadSample := unit;
  getSystemLoad := fun t => (tt, t);
|}.

Definition startTime : N := 1700000000000.

Definition idle : monitor := Monitor ∅ [] None startTime.

Definition character (name : string) : value :=
  VObj [(js "characterName", VStr (js name))].

Definition calls : list activity :=
  [Activity (js "alice") (VStr (js "user")) (character "Aria");
   Activity (js "bob") (VStr (js "user")) (character "Bran");
   Activity (js "alice") (VStr (js "character")) (character "Aria");
   Activity (js "alice") (VStr (js "system")) VNull].

Definition message (mes send_date : string) (name : value) : value :=
  VObj [(js "mes", VStr (js mes)); (js "send_date", VStr (js send_date));
        (js "is_user", VBool true); (js "name", name)].

Definition chat : list value :=
  [message "Hello" "2026-11-03" (VStr (js "Aria"));
   message "" "2026-11-03" (VStr (js "Aria"));
   message "Bye" "2026-11-03" VUndefined].

Definition savedChat : trackedRequest :=
  TrackedRequest (js "/api/chats/save") (js "POST")
    (VObj [(js "chat", VArr chat [])]) (Some (js "alice")).

Definition settingsRead : trackedRequest :=
  TrackedRequest (js "/api/settings/save") (js "GET") VUndefined None.

Definition fresh : trackedResponse := TrackedResponse false 200.

End DemoPlatform.

(* ===================================================================== *)
(** * Part VIII. Invitation codes                                         *)
(* ===================================================================== *)

(** [src/src/invitation-codes.js], first document (lines 1-205).  Every
    function is modelled as one run from its call to its return: the
    [await]s are the steps of the run, and no other request is served in
    between. *)

(** What the module takes from the platform: the clock, the random bytes
    of [node:crypto], upper-casing outside ASCII, and the configuration
    value [enableInvitationCodes]. *)
Class Services := {
  services : Type;
  clock_now : services -> N * services;
  crypto_randomBytes : N -> services -> bytes * services;
  unicodeUpper : jsstring -> jsstring;
  ENABLE_INVITATION_CODES : bool;
}.

Module InvitationCodes.
Local Open Scope eff_scope.

(** ** Whole numbers in doubles

    A JavaScript number is an IEEE 754 double.  The product and the sum
    of two doubles that hold whole numbers are the exact result rounded
    to the nearest double, ties to the even significand: the result is
    exact below 2^53 in magnitude, a multiple of a power of two from
    there on, and infinite once it rounds to 2^1024 or more. *)
Inductive double :=
| Finite (z : Z)
| Infinite (negative : bool).

Definition roundToDouble (z : Z) : double :=
  let magnitude := Z.abs z in
  if (magnitude <? 2 ^ 53)%Z then Finite z
  else
    let unit := (2 ^ (Z.log2 magnitude - 52))%Z in
    let significand := (magnitude / unit)%Z in
    let rest := (magnitude mod unit)%Z in
    let roundsUp :=
      (unit <? 2 * rest)%Z || ((2 * rest =? unit)%Z && Z.odd significand) in
    let rounded :=
      ((if roundsUp then significand + 1 else significand) * unit)%Z in
    if (2 ^ 1024 <=? rounded)%Z then Infinite (z <? 0)%Z
    else Finite (Z.sgn z * rounded).

(** [a * c] for a whole [c] above zero, and [t + a] for a time [t]. *)
Definition timesDouble (a : double) (c : positive) : double :=
  match a with
  | Finite x => roundToDouble (x * Z.pos c)
  | Infinite negative => Infinite negative
  end.

Definition plusDouble (t : N) (a : double) : double :=
  match a with
  | Finite x => roundToDouble (Z.of_N t + x)
  | Infinite negative => Infinite negative
  end.

(** The typedef of lines 8-17.  [usedBy], [usedAt] and [expiresAt] are
    [null] until they are set; times are whole milliseconds. *)
Record InvitationCode := Invitation {
  code : jsstring;
  createdBy : jsstring;
  createdAt : N;
  used : bool;
  usedBy : option jsstring;
  usedAt : option N;
  expiresAt : option double;
}.

(** [JSON.parse(JSON.stringify(invitation))]: [node-persist] keeps the
    JSON text of a value in a file and parses it at every [getItem].
    JSON writes an infinite number as [null]; the other fields come back
    as they were. *)
Definition jsonCopy (invitation : InvitationCode) : InvitationCode :=
  {| code := code invitation;
     createdBy := createdBy invitation;
     createdAt := createdAt invitation;
     used := used invitation;
     usedBy := usedBy invitation;
     usedAt := usedAt invitation;
     expiresAt :=
       match expiresAt invitation with
       | Some (Infinite _) => None
       | expiry => expiry
       end |}.

(** The value [validateInvitationCode] returns. *)
Record validation := Validation {
  valid : bool;
  reason : option jsstring;
  invitation : option InvitationCode;
}.

Definition INVITATION_PREFIX : jsstring := js "invitation:".

Definition toInvitationKey (code : jsstring) : jsstring :=
  INVITATION_PREFIX ++ code.

(** [s.startsWith(prefix)] *)
Definition startsWith (s prefix : jsstring) : bool :=
  bool_decide (take (length prefix) s = prefix).

(** [buffer.toString('hex')]: two lower-case digits per byte. *)
Definition hexDigit (d : N) : N := if d <? 10 then 48 + d else 87 + d.

Definition hex (b : bytes) : jsstring :=
  flat_map (fun byte => [hexDigit ((byte / 16) mod 16); hexDigit (byte mod 16)]) b.

Definition asciiUpper (c : N) : N :=
  if (97 <=? c) && (c <=? 122) then c - 32 else c.

Section Codes.
Context `{Services}.

(** [s.toUpperCase()]: on a string of ASCII units the letters [a-z] go to
    [A-Z]; other strings follow the Unicode tables. *)
Definition toUpperCase (s : jsstring) : jsstring :=
  if forallb (fun c => c <? 128) s then map asciiUpper s else unicodeUpper s.

(** The items of [node-persist] by key, and the environment. *)
Record store := Store {
  items : gmap jsstring InvitationCode;
  outside : services;
}.

Definition St (A : Type) : Type := Eff store A.

(** [Date.now()] *)
Definition now : St N :=
  fun s =>
    let reading := clock_now (outside s) in
    (inr (fst reading), Store (items s) (snd reading)).

(** [crypto.randomBytes(size)] *)
Definition randomBytes (size : N) : St bytes :=
  fun s =>
    let drawn := crypto_randomBytes size (outside s) in
    (inr (fst drawn), Store (items s) (snd drawn)).

(** [storage.getItem], [storage.setItem], [storage.removeItem] and
    [storage.keys]. *)
Definition getItem (key : jsstring) : St (option InvitationCode) :=
  gets (fun s => items s !! key).

Definition setItem (key : jsstring) (value : InvitationCode) : St unit :=
  modify (fun s => Store (<[key := jsonCopy value]> (items s)) (outside s)).

Definition removeItem (key : jsstring) : St unit :=
  modify (fun s => Store (delete key (items s)) (outside s)).

Definition keys : St (list jsstring) :=
  gets (fun s => map fst (map_to_list (items s))).

(** [generateInvitationCode] (lines 32-34) *)
Definition generateInvitationCode : St jsstring :=
  do random <- randomBytes 8;
  pure (toUpperCase (hex random)).

(** [createInvitationCode] (lines 42-65).  [expiresInHours] is a whole
    number of hours that a double holds, or [null]. *)
Definition createInvitationCode (createdBy : jsstring)
    (expiresInHours : option Z) : St InvitationCode :=
  if negb ENABLE_INVITATION_CODES then
    raise (Error (js "Invitation codes are disabled"))
  else
    do code <- generateInvitationCode;
    do now <- now;
    let expiresAt :=
      match expiresInHours with
      | Some hours =>
          if (hours =? 0)%Z then None
          else
            Some (plusDouble now
                    (timesDouble (timesDouble (timesDouble (Finite hours) 60) 60)
                       1000))
      | None => None
      end in
    let invitation :=
      {| code := code; createdBy := createdBy; createdAt := now;
         used := false; usedBy := None; usedAt := None;
         expiresAt := expiresAt |} in
    run setItem (toInvitationKey code) invitation;
    pure invitation.

(** [invitation.expiresAt && Date.now() > invitation.expiresAt]: the
    clock is read only when [expiresAt] is truthy. *)
Definition isExpired (invitation : InvitationCode) : St bool :=
  match expiresAt invitation with
  | Some (Finite expiry) =>
      if (expiry =? 0)%Z then pure false
      else do now <- now; pure (expiry <? Z.of_N now)%Z
  | Some (Infinite negative) => do now <- now; pure negative
  | None => pure false
  end.

(** [validateInvitationCode] (lines 72-96) *)
Definition validateInvitationCode (code : value) : St validation :=
  if negb ENABLE_INVITATION_CODES then pure (Validation true None None)
  else
    match code with
    | VStr (c :: rest) =>
        do invitation <- getItem (toInvitationKey (toUpperCase (c :: rest)));
        match invitation with
        | None =>
            pure (Validation false (Some (js "Invitation code not found")) None)
        | Some invitation =>
            if used invitation then
              pure (Validation false (Some (js "Invitation code already used")) None)
            else
              do expired <- isExpired invitation;
              if expired then
                pure (Validation false (Some (js "Invitation code expired")) None)
              else pure (Validation true None (Some invitation))
        end
    | _ =>
        pure (Validation false (Some (js "Invalid invitation code format")) None)
    end.

(** [useInvitationCode] (lines 104-123) *)
Definition useInvitationCode (code : value) (usedBy : jsstring) : St bool :=
  if negb ENABLE_INVITATION_CODES then pure true
  else
    do validation <- validateInvitationCode code;
    if negb (valid validation) then pure false
    else
      match invitation validation, code with
      | Some invitation, VStr code =>
          do now <- now;
          let invitation :=
            {| code := InvitationCodes.code invitation;
               createdBy := createdBy invitation;
               createdAt := createdAt invitation;
               used := true; usedBy := Some usedBy; usedAt := Some now;
               expiresAt := expiresAt invitation |} in
          run setItem (toInvitationKey (toUpperCase code)) invitation;
          pure true
      | _, _ => raise (TypeError (js "Cannot set properties of undefined"))
      end.

(** [invitations.sort((a, b) => b.createdAt - a.createdAt)]: the sort of
    the language is stable. *)
Fixpoint insertNewestFirst (a : InvitationCode) (sorted : list InvitationCode)
  : list InvitationCode :=
  match sorted with
  | [] => [a]
  | b :: rest =>
      if createdAt b <=? createdAt a then a :: b :: rest
      else b :: insertNewestFirst a rest
  end.

Definition sortNewestFirst (invitations : list InvitationCode)
  : list InvitationCode :=
  foldr insertNewestFirst [] invitations.

(** The loop of lines 138-143. *)
Fixpoint collect (invitationKeys : list jsstring) : St (list InvitationCode) :=
  match invitationKeys with
  | [] => pure []
  | key :: rest =>
      do invitation <- getItem key;
      do invitations <- collect rest;
      pure (match invitation with
            | Some invitation => invitation :: invitations
            | None => invitations
            end)
  end.

(** [getAllInvitationCodes] (lines 129-147) *)
Definition getAllInvitationCodes : St (list InvitationCode) :=
  if negb ENABLE_INVITATION_CODES then pure []
  else
    do keys <- keys;
    let invitationKeys :=
      List.filter (fun key => startsWith key INVITATION_PREFIX) keys in
    do invitations <- collect invitationKeys;
    pure (sortNewestFirst invitations).

(** [deleteInvitationCode] (lines 154-170) *)
Definition deleteInvitationCode (code : jsstring) : St bool :=
  if negb ENABLE_INVITATION_CODES then pure false
  else
    let key := toInvitationKey (toUpperCase code) in
    do invitation <- getItem key;
    match invitation with
    | None => pure false
    | Some _ => run removeItem key; pure true
    end.

Definition isInvitationCodesEnabled : bool := ENABLE_INVITATION_CODES.

(** The loop of lines 193-198; [cleanedCount] is a counter. *)
Fixpoint cleanupLoop (invitations : list InvitationCode) (now : N)
    (cleanedCount : N) : St N :=
  match invitations with
  | [] => pure cleanedCount
  | invitation :: rest =>
      if match expiresAt invitation with
         | Some (Finite expiry) => negb (expiry =? 0)%Z && (expiry <? Z.of_N now)%Z
         | Some (Infinite negative) => negative
         | None => false
         end
      then
        run deleteInvitationCode (code invitation);
        cleanupLoop rest now (increment cleanedCount)
      else cleanupLoop rest now cleanedCount
  end.

(** [cleanupExpiredInvitationCodes] (lines 184-205) *)
Definition cleanupExpiredInvitationCodes : St N :=
  if negb ENABLE_INVITATION_CODES then pure 0
  else
    do invitations <- getAllInvitationCodes;
    do now <- now;
    cleanupLoop invitations now 0.

End Codes.
End InvitationCodes.

(** ** Vocabulary of the invitation codes *)
Section InvitationVocabulary.
Import InvitationCodes.
Local Open Scope eff_scope.
Context `{Services}.

(** The invitation has an expiry time and [time] is past it. *)
Definition expiredAt (time : N) (invitation : InvitationCode) : bool :=
  match expiresAt invitation with
  | Some (Finite expiry) => negb (expiry =? 0)%Z && (expiry <? Z.of_N time)%Z
  | Some (Infinite negative) => negative
  | None => false
  end.

(** The reading [Date.now()] gives in the state [s]. *)
Definition timeAt (s : store) : N := fst (clock_now (outside s)).

(** Every item under the prefix sits at the key of its own code. *)
Definition wellKeyed (s : store) : Prop :=
  forall key invitation,
    items s !! key = Some invitation ->
    startsWith key INVITATION_PREFIX = true ->
    key = toInvitationKey (toUpperCase (code invitation)).

(** The answers of [validateInvitationCode]. *)
Definition accepted (invitation : InvitationCode) : validation :=
  Validation true None (Some invitation).

Definition rejected (reason : string) : validation :=
  Validation false (Some (js reason)) None.

(** The items under the prefix, newest first. *)
Definition storedInvitations (s : store) : list InvitationCode :=
  sortNewestFirst
    (map snd
       (List.filter (fun item => startsWith (fst item) INVITATION_PREFIX)
          (map_to_list (items s)))).

(** The key [deleteInvitationCode] computes for the code of an item. *)
Definition keyOf (invitation : InvitationCode) : jsstring :=
  toInvitationKey (toUpperCase (code invitation)).
End InvitationVocabulary.

(** ** Concrete services and stores *)
Module DemoServices.
Import InvitationCodes.

(** The environment is the clock, which advances by one second at each
    reading; the random bytes repeat the seconds of the clock. *)
#[export] Instance demo : Services := {|
  services := N;
  clock_now := fun t => (t, t + 1000);
  crypto_randomBytes := fun size t =>
    (repeat ((t / 1000) mod 256) (N.to_nat size), t + 1000);
  unicodeUpper := fun s => s;
  ENABLE_INVITATION_CODES := true;
|}.

Definition blank : store := Store ∅ 1700000000000.

(** One invitation without expiry, then one that expired an hour before
    it was made. *)
Definition lasting : store :=
  snd (createInvitationCode (js "admin") None blank).

Definition stale : store :=
  snd (createInvitationCode (js "admin") (Some (-1)%Z) lasting).

Definition firstCode : value := VStr (js "0000000000000000").

End DemoServices.

(* ===================================================================== *)
(** * Part IX. The other routes of the card endpoint                      *)
(* ===================================================================== *)

(** ** One more route of the public character cards *)
Section MoreRoutes.
Context `{Runtime}.

(** [router.post('/get')] (chatTracker.js, second document, lines
    868-888); [character_name] is a separator-free string or absent, as
    for [router.post('/delete')]. *)
Definition getCharacter (character_name : option jsstring) : M response :=
  tryCatch
    (match character_name with
     | Some (c :: n) =>
         let character_name := c :: n in
         let characterPath := InPublic (character_name ++ js ".png") in
         do found <- existsSync characterPath;
         if negb found then
           ret (Response 404 (errorBody (js "Character not found")))
         else
           do character <- processCharacter (character_name ++ js ".png");
           ret (Response 200 character)
     | _ => ret (Response 400 (errorBody (js "Character name is required")))
     end)
    (fun err => ret (Response 500 (errorBody (js "Failed to get character")))).

(** The artifact a request for [character_name] is about. *)
Definition artifactOf (character_name : option jsstring) : option path :=
  match character_name with
  | Some (c :: n) => Some (InPublic ((c :: n) ++ js ".png"))
  | _ => None
  end.

(** The answer to a request that names no character. *)
Definition nameRequired : response :=
  Response 400 (errorBody (js "Character name is required")).

Definition notFound : response :=
  Response 404 (errorBody (js "Character not found")).

(** The answers of [router.post('/upload')]. *)
Definition uploaded (fileName : jsstring) : response :=
  Response 200 (VObj [(js "file_name", VStr fileName)]).

Definition refused (message : jsstring) : response :=
  Response 400 (errorBody message).

(** A name made of ASCII letters, digits, [_] and the ideographs
    [U+4E00] to [U+9FFF]. *)
Definition safeName (fileName : jsstring) : Prop :=
  Forall (fun c => safeUnit c = true) fileName.
End MoreRoutes.

(** ** A runtime that reads one more document *)
Module DemoDots.

(** A card whose name the sanitiser erases. *)
Definition dotCard : value := VObj [(js "name", VStr (js "..."))].

Definition parse (text : jsstring) : exn + value :=
  if bool_decide (text = Demo.stringify dotCard) then inr dotCard
  else Demo.parse text.

Definition runtime : Runtime := {|
  JSON_parse := parse;
  JSON_stringify := Demo.stringify;
  yaml_parse := parse;
  utf8_toString := fun b => b;
  path_parse_name := Demo.parseName;
  humanizedISO8601DateTime := fun t => Demo.decimal t ++ js "ms";
  image := bytes;
  Jimp_read_buffer := Demo.decodeImage;
  Jimp_read_path := fun fs p =>
    match fs !! Outside p with
    | Some f => Demo.decodeImage (content f)
    | None => inl (ENOENT (js "open"))
    end;
  Jimp_crop := fun i _ _ _ _ => inr i;
  Jimp_resize := fun i _ _ => inr i;
  Jimp_getBuffer_png := fun i => inr i;
  read := Demo.readCard;
  write := Demo.writeCard;
  AVATAR_WIDTH := 512;
  AVATAR_HEIGHT := 768;
  DEFAULT_AVATAR_PATH := js "public/img/ai4.png";
  PUBLIC_CHARACTERS_DIR := js "data/public_characters";
|}.

Definition jsonUpload : uploadRequest :=
  {| upload_path := Demo.tmp; file_type := Some (js "json");
     preserved_name := None;
     user_handle := Demo.alice; user_name := Demo.Alice |}.

End DemoDots.

(* ===================================================================== *)
(** * Part X. Lemmas and checked properties                               *)
(* ===================================================================== *)

(** ** File-name sanitisation *)
Section FileNames.
Import SanitizeFilename.

(** Turns the boolean tests on code units into arithmetic facts. *)
Ltac units :=
  cbn [orb andb negb existsb forallb] in *;
  rewrite ?orb_true_iff, ?andb_true_iff, ?orb_false_iff, ?andb_false_iff,
    ?negb_true_iff, ?negb_false_iff, ?N.leb_le, ?N.leb_gt, ?N.ltb_lt,
    ?N.ltb_ge, ?N.eqb_eq, ?N.eqb_neq in *;
  try lia.

(** Induction that follows the two-unit look-ahead of the UTF-8 walk. *)
Lemma units_ind2 (P : jsstring -> Prop) :
  P [] ->
  (forall c, P [c]) ->
  (forall c d r, P r -> P (d :: r) -> P (c :: d :: r)) ->
  forall s, P s.
Proof.
  intros Hnil Hone Hstep.
  assert (Hboth : forall s, P s /\ forall c, P (c :: s)).
  { induction s as [|d r [IHr IHcr]]; split; auto. }
  intros s. apply Hboth.
Qed.

Lemma replaceSpecial_safe (s : jsstring) :
  Forall (fun c => safeUnit c = true) (replaceSpecial s).
Proof.
  unfold replaceSpecial. apply Forall_map, Forall_true. intros c. simpl.
  unfold safeUnit. destruct (keptUnit c) eqn:Hk; [by rewrite Hk | reflexivity].
Qed.

Lemma replaceSpecial_fixes_safe (s : jsstring) :
  Forall (fun c => safeUnit c = true) s -> replaceSpecial s = s.
Proof.
  unfold replaceSpecial. induction 1 as [|c r Hc _ IH]; [reflexivity|].
  cbn [map]. rewrite IH. f_equal.
  unfold safeUnit in Hc. destruct (keptUnit c); [reflexivity|].
  cbn [orb] in Hc. apply N.eqb_eq in Hc. by subst.
Qed.

Lemma safeUnit_not_separator (c : N) :
  safeUnit c = true -> pathSeparator c = false /\ controlCharacter c = false.
Proof.
  unfold safeUnit, keptUnit, pathSeparator, controlCharacter. intros Hc.
  split; units.
Qed.

Lemma safeUnit_plain (c : N) :
  safeUnit c = true ->
  illegalRe c = false
  /\ controlRe c = false
  /\ isDotOrSpace c = false
  /\ isHighSurrogate c = false.
Proof.
  unfold safeUnit, keptUnit, illegalRe, controlRe, isDotOrSpace, isHighSurrogate.
  intros Hc. repeat split; units.
Qed.

Lemma filter_all {A} (f : A -> bool) (l : list A) :
  Forall (fun a => f a = true) l -> List.filter f l = l.
Proof.
  induction 1 as [|a l Ha _ IH]; cbn [List.filter]; [reflexivity|].
  by rewrite Ha, IH.
Qed.

Lemma windowsTrailing_plain (s : jsstring) :
  Forall (fun c => isDotOrSpace c = false) s -> windowsTrailing s = s.
Proof.
  induction 1 as [|c r Hc _ IH]; cbn [windowsTrailing]; [reflexivity|].
  rewrite IH. destruct r; [by rewrite Hc | reflexivity].
Qed.

Lemma reservedRe_plain (s : jsstring) :
  Forall (fun c => isDotOrSpace c = false) s -> reservedRe s = false.
Proof.
  destruct 1 as [|c r Hc _]; [reflexivity|].
  unfold isDotOrSpace in Hc. cbn [reservedRe forallb]. units.
Qed.

(** *** UTF-8 length and truncation *)
Lemma unitByteLength_pos (c : N) : 0 < unitByteLength c.
Proof. unfold unitByteLength. repeat case_match; lia. Qed.

Lemma byteLength_cons2 (c d : N) (r : jsstring) :
  byteLength (c :: d :: r) =
    if isHighSurrogate c && isLowSurrogate d then 4 + byteLength r
    else unitByteLength c + byteLength (d :: r).
Proof. reflexivity. Qed.

Lemma truncateFrom_cons2 (cur limit c d : N) (r : jsstring) :
  truncateFrom cur limit (c :: d :: r) =
    if isHighSurrogate c && isLowSurrogate d then
      if cur + 4 =? limit then [c; d]
      else if limit <? cur + 4 then []
      else c :: d :: truncateFrom (cur + 4) limit r
    else
      if cur + unitByteLength c =? limit then [c]
      else if limit <? cur + unitByteLength c then []
      else c :: truncateFrom (cur + unitByteLength c) limit (d :: r).
Proof. reflexivity. Qed.

Lemma truncateFrom_one (cur limit c : N) :
  truncateFrom cur limit [c] =
    if limit <? cur + unitByteLength c then [] else [c].
Proof.
  cbn [truncateFrom]. destruct (N.eqb_spec (cur + unitByteLength c) limit);
    destruct (N.ltb_spec limit (cur + unitByteLength c)); try reflexivity; lia.
Qed.

Lemma byteLength_zero (s : jsstring) : byteLength s = 0 -> s = [].
Proof.
  destruct s as [|c [|d r]]; [reflexivity| |].
  - cbn [byteLength]. pose proof (unitByteLength_pos c). lia.
  - rewrite byteLength_cons2. pose proof (unitByteLength_pos c).
    destruct (isHighSurrogate c && isLowSurrogate d); lia.
Qed.

Lemma truncateFrom_fits (s : jsstring) : forall cur limit,
  cur + byteLength s <= limit -> truncateFrom cur limit s = s.
Proof.
  induction s as [|c|c d r IHr IHdr] using units_ind2; intros cur limit Hfit.
  - reflexivity.
  - rewrite truncateFrom_one. cbn [byteLength] in Hfit.
    destruct (N.ltb_spec limit (cur + unitByteLength c)); [lia | reflexivity].
  - rewrite byteLength_cons2 in Hfit. rewrite truncateFrom_cons2.
    destruct (isHighSurrogate c && isLowSurrogate d).
    + destruct (N.eqb_spec (cur + 4) limit) as [Heq|Hne].
      * assert (r = []) as -> by (apply byteLength_zero; lia). reflexivity.
      * destruct (N.ltb_spec limit (cur + 4)); [lia|].
        rewrite IHr by lia. reflexivity.
    + destruct (N.eqb_spec (cur + unitByteLength c) limit) as [Heq|Hne].
      * assert (d :: r = []) by (apply byteLength_zero; lia). discriminate.
      * destruct (N.ltb_spec limit (cur + unitByteLength c)); [lia|].
        rewrite IHdr by lia. reflexivity.
Qed.

(** The kept prefix starts like the string it was cut from. *)
Lemma truncateFrom_head (cur limit d : N) (r : jsstring) :
  truncateFrom cur limit (d :: r) = [] \/
  exists t, truncateFrom cur limit (d :: r) = d :: t.
Proof.
  destruct r as [|e r].
  - rewrite truncateFrom_one. case_match; eauto.
  - rewrite truncateFrom_cons2. repeat case_match; eauto.
Qed.

Lemma truncateFrom_bound (s : jsstring) : forall cur limit,
  cur <= limit -> cur + byteLength (truncateFrom cur limit s) <= limit.
Proof.
  induction s as [|c|c d r IHr IHdr] using units_ind2; intros cur limit Hle.
  - cbn [truncateFrom byteLength]. lia.
  - rewrite truncateFrom_one.
    destruct (N.ltb_spec limit (cur + unitByteLength c)); cbn [byteLength]; lia.
  - rewrite truncateFrom_cons2.
    destruct (isHighSurrogate c && isLowSurrogate d) eqn:Hpair.
    + destruct (N.eqb_spec (cur + 4) limit) as [Heq|Hne].
      * rewrite byteLength_cons2, Hpair. cbn [byteLength]. lia.
      * destruct (N.ltb_spec limit (cur + 4)); [cbn [byteLength]; lia|].
        rewrite byteLength_cons2, Hpair.
        specialize (IHr (cur + 4) limit). lia.
    + destruct (N.eqb_spec (cur + unitByteLength c) limit) as [Heq|Hne].
      * cbn [byteLength]. lia.
      * destruct (N.ltb_spec limit (cur + unitByteLength c)); [cbn [byteLength]; lia|].
        specialize (IHdr (cur + unitByteLength c) limit).
        destruct (truncateFrom_head (cur + unitByteLength c) limit d r) as [Hnil|[t Ht]].
        -- rewrite Hnil in *. cbn [byteLength] in *. lia.
        -- rewrite Ht in *. rewrite byteLength_cons2, Hpair. lia.
Qed.

Lemma byteLength_no_surrogate (s : jsstring) :
  Forall (fun c => isHighSurrogate c = false) s -> byteLength s = sumUnits s.
Proof.
  induction s as [|c|c d r IHr IHdr] using units_ind2; intros Hs.
  - reflexivity.
  - cbn [byteLength sumUnits fold_right]. lia.
  - rewrite byteLength_cons2. inversion Hs as [|? ? Hc Hrest]; subst.
    rewrite Hc. cbn [andb]. rewrite IHdr by assumption. reflexivity.
Qed.

Lemma unit_replaced_le (c : N) :
  unitByteLength (if keptUnit c then c else 95) <= unitByteLength c.
Proof.
  destruct (keptUnit c); [lia|].
  pose proof (unitByteLength_pos c). change (unitByteLength 95) with 1. lia.
Qed.

Lemma surrogate_replaced (c : N) :
  isHighSurrogate c = true \/ isLowSurrogate c = true -> keptUnit c = false.
Proof. unfold isHighSurrogate, isLowSurrogate, keptUnit. intros Hc. units. Qed.

Lemma sumUnits_replaceSpecial (s : jsstring) :
  sumUnits (replaceSpecial s) <= byteLength s.
Proof.
  induction s as [|c|c d r IHr IHdr] using units_ind2.
  - reflexivity.
  - cbn [replaceSpecial map sumUnits fold_right byteLength].
    pose proof (unit_replaced_le c). lia.
  - rewrite byteLength_cons2.
    change (sumUnits (replaceSpecial (c :: d :: r))) with
      (unitByteLength (if keptUnit c then c else 95)
       + sumUnits (replaceSpecial (d :: r))).
    destruct (isHighSurrogate c && isLowSurrogate d) eqn:Hpair.
    + apply andb_true_iff in Hpair as [Hc Hd].
      change (sumUnits (replaceSpecial (d :: r))) with
        (unitByteLength (if keptUnit d then d else 95)
         + sumUnits (replaceSpecial r)).
      rewrite (surrogate_replaced c), (surrogate_replaced d) by auto.
      change (unitByteLength 95) with 1. lia.
    + pose proof (unit_replaced_le c). lia.
Qed.

Lemma byteLength_replaceSpecial (s : jsstring) :
  byteLength (replaceSpecial s) <= byteLength s.
Proof.
  rewrite byteLength_no_surrogate.
  - apply sumUnits_replaceSpecial.
  - eapply Forall_impl; [|apply replaceSpecial_safe].
    intros c Hc. by apply safeUnit_plain in Hc as (_ & _ & _ & ?).
Qed.

(** *** The sanitiser on a name that is already clean *)
Lemma sanitize_safe (t : jsstring) :
  Forall (fun c => safeUnit c = true) t ->
  byteLength t <= 255 ->
  sanitize t = if windowsReservedRe t then [] else t.
Proof.
  intros Hsafe Hlen. unfold sanitize.
  assert (Hplain : Forall (fun c => isDotOrSpace c = false) t).
  { eapply Forall_impl; [|exact Hsafe].
    intros c Hc. by apply safeUnit_plain in Hc as (_ & _ & ? & _). }
  rewrite (filter_all (fun c => negb (illegalRe c)) t).
  2:{ eapply Forall_impl; [|exact Hsafe].
      intros c Hc. apply safeUnit_plain in Hc as (-> & _). reflexivity. }
  rewrite (filter_all (fun c => negb (controlRe c)) t).
  2:{ eapply Forall_impl; [|exact Hsafe].
      intros c Hc. apply safeUnit_plain in Hc as (_ & -> & _). reflexivity. }
  rewrite (reservedRe_plain t Hplain).
  destruct (windowsReservedRe t); [reflexivity|].
  rewrite (windowsTrailing_plain t Hplain).
  unfold truncate. apply truncateFrom_fits. lia.
Qed.

Lemma getPngName_byteLength (x : jsstring) : byteLength (getPngName x) <= 255.
Proof.
  unfold getPngName.
  etransitivity; [apply byteLength_replaceSpecial|].
  unfold sanitize, truncate.
  match goal with
  | |- byteLength (truncateFrom 0 255 ?s) <= 255 =>
      pose proof (truncateFrom_bound s 0 255)
  end.
  lia.
Qed.

(** C6, amended.  The name that [getPngName] returns contains only ASCII
    letters, ASCII digits, the ideographs U+4E00 to U+9FFF and the filler
    [_], hence no path separator and no control character; and applying
    [getPngName] to it again returns it unchanged, unless it is a device
    name that the sanitiser reserves ([windowsReservedRe]: con, prn, aux,
    nul, com0 to com9, lpt0 to lpt9, in any case), in which case the second
    application returns the empty string. *)
Theorem getPngName_stability (x : jsstring) :
  Forall (fun c => pathSeparator c = false /\ controlCharacter c = false)
    (getPngName x)
  /\ getPngName (getPngName x) =
       if windowsReservedRe (getPngName x) then [] else getPngName x.
Proof.
  assert (Hsafe : Forall (fun c => safeUnit c = true) (getPngName x))
    by apply replaceSpecial_safe.
  split.
  - eapply Forall_impl; [|exact Hsafe]. intros c. apply safeUnit_not_separator.
  - unfold getPngName at 1.
    rewrite (sanitize_safe _ Hsafe (getPngName_byteLength x)).
    destruct (windowsReservedRe (getPngName x)); [reflexivity|].
    by apply replaceSpecial_fixes_safe.
Qed.

(** C6 as stated fails: the name [con ] (with a trailing space) is
    sanitised to [con], and [con] is sanitised to the empty string. *)
Lemma getPngName_not_idempotent :
  getPngName (js "con ") = js "con"
  /\ getPngName (getPngName (js "con ")) = []
  /\ getPngName (getPngName (js "con ")) <> getPngName (js "con ").
Proof. vm_compute. repeat split; discriminate. Qed.

(** *** The sanitiser on any name *)
Lemma droppedUnit_spec (c : N) :
  negb (droppedUnit c) = negb (illegalRe c) && negb (controlRe c).
Proof.
  unfold droppedUnit, illegalRe, controlRe.
  assert (Hsame : existsb (N.eqb c) [34; 42; 47; 58; 60; 62; 63; 92; 124]
                  = existsb (N.eqb c) [47; 63; 60; 62; 92; 58; 42; 124; 34]).
  { cbn [existsb].
    repeat match goal with
    | |- context [c =? ?k] =>
        destruct (N.eqb_spec c k) as [->|?]; [vm_compute; reflexivity|]
    end.
    reflexivity. }
  rewrite Hsame.
  generalize (existsb (N.eqb c) [47; 63; 60; 62; 92; 58; 42; 124; 34]),
    (c <=? 31), ((128 <=? c) && (c <=? 159)).
  intros [] [] []; reflexivity.
Qed.

Lemma lastingUnit_spec (c : N) : lastingUnit c = keptUnit c.
Proof.
  unfold lastingUnit, keptUnit.
  generalize ((48 <=? c) && (c <=? 57)), ((65 <=? c) && (c <=? 90)),
    ((97 <=? c) && (c <=? 122)), ((19968 <=? c) && (c <=? 40959)).
  intros [] [] [] []; reflexivity.
Qed.

Lemma filter_twice {A} (f g : A -> bool) (l : list A) :
  List.filter g (List.filter f l) = List.filter (fun a => f a && g a) l.
Proof.
  induction l as [|a l IH]; [reflexivity|]. cbn [List.filter].
  destruct (f a); cbn [List.filter andb]; [|exact IH].
  destruct (g a); by rewrite IH.
Qed.

Lemma windowsTrailing_prefix (s : jsstring) :
  exists n, windowsTrailing s = take n s.
Proof.
  induction s as [|c r [n IH]]; [by exists 0%nat|].
  cbn [windowsTrailing].
  destruct (windowsTrailing r) as [|d r'] eqn:Hr.
  - destruct (isDotOrSpace c); [by exists 0%nat | by exists 1%nat].
  - exists (S n). cbn [take]. by rewrite <- IH.
Qed.

Lemma truncateFrom_prefix (s : jsstring) : forall cur limit,
  exists n, truncateFrom cur limit s = take n s.
Proof.
  induction s as [|c|c d r IHr IHdr] using units_ind2; intros cur limit.
  - by exists 0%nat.
  - rewrite truncateFrom_one. case_match; [by exists 0%nat | by exists 1%nat].
  - rewrite truncateFrom_cons2.
    repeat case_match; try (by exists 0%nat); try (by exists 1%nat);
      try (by exists 2%nat).
    + destruct (IHr (cur + 4) limit) as [n ->]. by exists (S (S n)).
    + destruct (IHdr (cur + unitByteLength c) limit) as [n ->]. by exists (S n).
Qed.

(** The sanitiser returns a prefix of what the two global replacements
    leave. *)
Lemma sanitize_prefix (name : jsstring) :
  exists n,
    sanitize name = take n (List.filter (fun c => negb (droppedUnit c)) name).
Proof.
  unfold sanitize. rewrite filter_twice.
  rewrite (List.filter_ext _ (fun c => negb (droppedUnit c)))
    by (intros c; symmetry; apply droppedUnit_spec).
  set (rest := List.filter _ name).
  assert (Hs4 : exists n,
            (if windowsReservedRe (if reservedRe rest then [] else rest)
             then [] else if reservedRe rest then [] else rest) = take n rest).
  { destruct (reservedRe rest).
    - exists 0%nat. by destruct (windowsReservedRe []).
    - destruct (windowsReservedRe rest);
        [by exists 0%nat | exists (length rest); by rewrite take_ge]. }
  destruct Hs4 as [n4 ->].
  destruct (windowsTrailing_prefix (take n4 rest)) as [n5 ->].
  unfold truncate.
  destruct (truncateFrom_prefix (take n5 (take n4 rest)) 0 255) as [n6 ->].
  rewrite !take_take. eauto.
Qed.

Lemma windowsTrailing_whole (s : jsstring) :
  list.last s <> Some 46 -> list.last s <> Some 32 -> windowsTrailing s = s.
Proof.
  induction s as [|c r IH]; [reflexivity|]. intros Hdot Hspace.
  cbn [windowsTrailing]. destruct r as [|d r].
  - cbn [windowsTrailing]. cbn in Hdot, Hspace.
    unfold isDotOrSpace.
    destruct (c =? 46) eqn:H1; [apply N.eqb_eq in H1; congruence|].
    destruct (c =? 32) eqn:H2; [apply N.eqb_eq in H2; congruence|].
    reflexivity.
  - rewrite IH by (by rewrite last_cons_cons in Hdot, Hspace).
    reflexivity.
Qed.

Lemma reservedRe_whole (s : jsstring) :
  list.last s <> Some 46 -> reservedRe s = false.
Proof.
  intros Hdot. destruct (reservedRe s) eqn:Hr; [exfalso|reflexivity].
  apply Hdot. unfold reservedRe in Hr. destruct s as [|c r]; [discriminate|].
  rewrite forallb_forall in Hr.
  destruct (list.last (c :: r)) as [d|] eqn:Hlast; [|by apply last_None in Hlast].
  f_equal. symmetry. apply N.eqb_eq, Hr.
  apply list_elem_of_In, last_Some_elem_of. exact Hlast.
Qed.

(** On an ordinary name the sanitiser only takes out the dropped units. *)
Lemma sanitize_ordinary (name : jsstring) :
  ordinaryName (List.filter (fun c => negb (droppedUnit c)) name) ->
  sanitize name = List.filter (fun c => negb (droppedUnit c)) name.
Proof.
  intros (Hdot & Hspace & Hdevice & Hlen). unfold sanitize.
  rewrite filter_twice.
  rewrite (List.filter_ext _ (fun c => negb (droppedUnit c)))
    by (intros c; symmetry; apply droppedUnit_spec).
  set (rest := List.filter _ name) in *.
  rewrite (reservedRe_whole rest Hdot), Hdevice.
  rewrite (windowsTrailing_whole rest Hdot Hspace).
  unfold truncate. apply truncateFrom_fits. lia.
Qed.

(** What [windowsTrailing] removes is a run of dots and spaces at the
    end, and what it keeps does not end in one. *)
Lemma windowsTrailing_split (s : jsstring) :
  exists trailing,
    s = windowsTrailing s ++ trailing
    /\ Forall (fun c => c = 46 \/ c = 32) trailing
    /\ list.last (windowsTrailing s) <> Some 46
    /\ list.last (windowsTrailing s) <> Some 32.
Proof.
  induction s as [|c r (trailing & Hr & Htrailing & Hdot & Hspace)].
  - exists []. repeat split; [constructor | discriminate | discriminate].
  - cbn [windowsTrailing].
    destruct (windowsTrailing r) as [|d r'] eqn:Hkept.
    + cbn [app] in Hr. subst r.
      destruct (isDotOrSpace c) eqn:Hc.
      * exists (c :: trailing). split; [reflexivity|].
        split; [|split; discriminate].
        constructor; [|exact Htrailing]. unfold isDotOrSpace in Hc. units.
      * exists trailing. split; [reflexivity|]. split; [exact Htrailing|].
        unfold isDotOrSpace in Hc.
        split; intros [= ->]; discriminate.
    + exists trailing. split; [by rewrite Hr at 1|].
      split; [exact Htrailing|]. by rewrite !last_cons_cons.
Qed.

Lemma byteLength_app_plain (p t : jsstring) :
  Forall (fun c => c = 46 \/ c = 32) t ->
  byteLength (p ++ t) = byteLength p + byteLength t.
Proof.
  intros Ht.
  induction p as [|c|c d r IHr IHdr] using units_ind2.
  - reflexivity.
  - destruct t as [|d t']; [cbn [app byteLength]; lia|].
    change ([c] ++ d :: t') with (c :: d :: t'). rewrite byteLength_cons2.
    replace (isLowSurrogate d) with false; [rewrite andb_false_r; reflexivity|].
    inversion Ht as [|? ? [-> | ->] _]; reflexivity.
  - change ((c :: d :: r) ++ t) with (c :: d :: (r ++ t)).
    rewrite !byteLength_cons2.
    destruct (isHighSurrogate c && isLowSurrogate d).
    + rewrite IHr. lia.
    + change (d :: r ++ t) with ((d :: r) ++ t). rewrite IHdr. lia.
Qed.

(** The sanitiser on a name that is not cut at 255 bytes. *)
Lemma sanitize_short (name : jsstring) :
  let rest := List.filter (fun c => negb (droppedUnit c)) name in
  byteLength rest <= 255 ->
  sanitize name
  = if reservedRe rest || windowsReservedRe rest then []
    else windowsTrailing rest.
Proof.
  cbv zeta. intros Hlen. unfold sanitize. rewrite filter_twice.
  rewrite (List.filter_ext _ (fun c => negb (droppedUnit c)))
    by (intros c; symmetry; apply droppedUnit_spec).
  set (rest := List.filter _ name) in *.
  destruct (reservedRe rest); [reflexivity|]. cbn [orb].
  destruct (windowsReservedRe rest); [reflexivity|].
  destruct (windowsTrailing_split rest) as (trailing & Hrest & Htrailing & _).
  unfold truncate. apply truncateFrom_fits.
  rewrite Hrest, byteLength_app_plain in Hlen by exact Htrailing. lia.
Qed.

(** C7, amended.  [getPngName] takes out of the name the units the
    sanitiser deletes wherever they stand, and maps what is left unit by
    unit: an ASCII digit, an ASCII letter or an ideograph in U+4E00 to
    U+9FFF stays as it is and where it is, every other unit becomes one
    filler [_].  That is the whole result on an ordinary name, where a
    unit that was not taken out therefore survives exactly when it is in
    that class or is the filler itself.  On a name of at most 255 bytes
    the dots and spaces at the end are removed as well, and a name made of
    dots or a device name gives the empty string; on any name the result
    is obtained in this way from a prefix of what is left. *)
Theorem getPngName_of_name (name : jsstring) :
  let rest := List.filter (fun c => negb (droppedUnit c)) name in
  (exists n,
     getPngName name
     = map (fun c => if lastingUnit c then c else 95) (take n rest))
  /\ (byteLength rest <= 255 ->
      exists kept trailing,
        rest = kept ++ trailing
        /\ Forall (fun c => c = 46 \/ c = 32) trailing
        /\ list.last kept <> Some 46
        /\ list.last kept <> Some 32
        /\ getPngName name
           = if reservedRe rest || windowsReservedRe rest then []
             else map (fun c => if lastingUnit c then c else 95) kept)
  /\ (ordinaryName rest ->
      getPngName name = map (fun c => if lastingUnit c then c else 95) rest)
  /\ (ordinaryName rest ->
      forall (i : nat) (c : N),
        rest !! i = Some c ->
        (getPngName name !! i = Some c <-> lastingUnit c = true \/ c = 95)).
Proof.
  cbv zeta.
  assert (Hmap : forall s,
            replaceSpecial s = map (fun c => if lastingUnit c then c else 95) s).
  { intros s. unfold replaceSpecial. apply map_ext.
    intros c. by rewrite lastingUnit_spec. }
  assert (Hwhole : ordinaryName (List.filter (fun c => negb (droppedUnit c)) name) ->
            getPngName name
            = map (fun c => if lastingUnit c then c else 95)
                (List.filter (fun c => negb (droppedUnit c)) name)).
  { intros Hordinary. unfold getPngName. by rewrite Hmap, sanitize_ordinary. }
  split; [|split; [|split; [exact Hwhole|]]].
  - unfold getPngName. rewrite Hmap.
    destruct (sanitize_prefix name) as [n ->]. eauto.
  - intros Hlen. unfold getPngName. rewrite Hmap, (sanitize_short name Hlen).
    destruct (windowsTrailing_split
                (List.filter (fun c => negb (droppedUnit c)) name))
      as (trailing & Hrest & Htrailing & Hdot & Hspace).
    exists (windowsTrailing (List.filter (fun c => negb (droppedUnit c)) name)),
      trailing.
    split; [exact Hrest|]. split; [exact Htrailing|].
    split; [exact Hdot|]. split; [exact Hspace|].
    by destruct (_ || _).
  - intros Hordinary i c Hi. rewrite (Hwhole Hordinary).
    change (map ?f ?l) with (f <$> l). rewrite list_lookup_fmap, Hi.
    cbn [fmap option_fmap option_map].
    destruct (lastingUnit c) eqn:Hlasting.
    + split; auto.
    + split.
      * intros [= Heq]. by right.
      * intros [Hfalse| ->]; [discriminate | reflexivity].
Qed.

(** C7 at an input: the slash is taken out, the letter, the ideograph
    and the digit stay, the space and the letter U+00E9 become fillers. *)
Lemma getPngName_of_name_witness :
  ordinaryName
    (List.filter (fun c => negb (droppedUnit c)) [65; 47; 20013; 32; 233; 55])
  /\ getPngName [65; 47; 20013; 32; 233; 55] = [65; 20013; 95; 95; 55].
Proof.
  assert (Hordinary : ordinaryName
            (List.filter (fun c => negb (droppedUnit c)) [65; 47; 20013; 32; 233; 55])).
  { split; [|split; [|split]]; vm_compute; (reflexivity || discriminate). }
  split; [exact Hordinary|].
  exact (proj1 (proj2 (proj2 (getPngName_of_name [65; 47; 20013; 32; 233; 55])))
           Hordinary).
Defined.

(** C7 as stated fails in both directions: the letter U+00E9 does not
    survive, and the filler, which is no letter or digit, does. *)
Lemma getPngName_drops_latin_letter :
  latin1Letter 0xE9 = true
  /\ getPngName [0xE9] = js "_"
  /\ getPngName (js "_") = js "_".
Proof. vm_compute. repeat split. Qed.

End FileNames.

(** ** The container codec *)
Section CodecFacts.
Import Codec.

(** Arithmetic with quotients and remainders by constants. *)
Ltac divmod := zify; Z.to_euclidean_division_equations; lia.

(** *** Base64 *)
Lemma sextets_below (P : N -> bool) (bound : nat) :
  forallb P (map N.of_nat (seq 0 bound)) = true ->
  forall s, s < N.of_nat bound -> P s = true.
Proof.
  intros Hall s Hs. rewrite forallb_forall in Hall. apply Hall.
  apply in_map_iff. exists (N.to_nat s). split; [lia|].
  apply in_seq. lia.
Qed.

Lemma sextetChar_inverse (s : N) :
  s < 64 ->
  charSextet (sextetChar s) = Some s /\ sextetChar s <> 61 /\ sextetChar s <> 0.
Proof.
  intros Hs.
  assert (Hok : sextetOk s = true).
  { apply (sextets_below sextetOk 64); [by vm_compute | exact Hs]. }
  unfold sextetOk in Hok.
  destruct (charSextet (sextetChar s)) as [s'|]; [|discriminate].
  apply andb_true_iff in Hok as [Hok H0]. apply andb_true_iff in Hok as [Heq H61].
  apply N.eqb_eq in Heq as ->.
  apply negb_true_iff, N.eqb_neq in H61. apply negb_true_iff, N.eqb_neq in H0.
  done.
Qed.

(** Induction on a list of bytes, three at a time. *)
Lemma bytes_ind3 (P : bytes -> Prop) :
  P [] ->
  (forall b1, P [b1]) ->
  (forall b1 b2, P [b1; b2]) ->
  (forall b1 b2 b3 rest, P rest -> P (b1 :: b2 :: b3 :: rest)) ->
  forall bs, P bs.
Proof.
  intros H0 H1 H2 H3.
  assert (Hall : forall bs, P bs /\ (forall a, P (a :: bs))
                            /\ (forall a b, P (a :: b :: bs))).
  { induction bs as [|c bs (IH0 & IH1 & IH2)]; repeat split; auto. }
  intros bs. apply Hall.
Qed.

Lemma base64Encode_step b1 b2 b3 rest :
  base64Encode (b1 :: b2 :: b3 :: rest) =
    sextetChar (b1 / 4) :: sextetChar ((b1 mod 4) * 16 + b2 / 16)
      :: sextetChar ((b2 mod 16) * 4 + b3 / 64) :: sextetChar (b3 mod 64)
      :: base64Encode rest.
Proof. reflexivity. Qed.

Lemma base64Decode_step c1 c2 c3 c4 rest :
  base64Decode (c1 :: c2 :: c3 :: c4 :: rest) =
    match charSextet c1, charSextet c2 with
    | Some s1, Some s2 =>
        let b1 := s1 * 4 + s2 / 16 in
        if (c3 =? 61) && (c4 =? 61) then
          match rest with [] => Some [b1] | _ => None end
        else
          match charSextet c3 with
          | Some s3 =>
              let b2 := (s2 mod 16) * 16 + s3 / 4 in
              if c4 =? 61 then
                match rest with [] => Some [b1; b2] | _ => None end
              else
                match charSextet c4, base64Decode rest with
                | Some s4, Some bs => Some (b1 :: b2 :: (s3 mod 4) * 64 + s4 :: bs)
                | _, _ => None
                end
          | None => None
          end
    | _, _ => None
    end.
Proof. reflexivity. Qed.

Ltac sextet s :=
  let Hinv := fresh "Hinv" in let Hpad := fresh "Hpad" in let Hnul := fresh "Hnul" in
  destruct (sextetChar_inverse s) as (Hinv & Hpad & Hnul); [divmod|];
  rewrite ?Hinv; apply N.eqb_neq in Hpad; rewrite ?Hpad.

Lemma base64_roundtrip (bs : bytes) :
  Forall isByte bs -> base64Decode (base64Encode bs) = Some bs.
Proof.
  unfold isByte.
  induction bs as [|b1|b1 b2|b1 b2 b3 rest IH] using bytes_ind3; intros Hbs.
  - reflexivity.
  - inversion_clear Hbs as [|? ? Hb1 _].
    cbn [base64Encode]. rewrite base64Decode_step.
    sextet (b1 / 4). sextet ((b1 mod 4) * 16).
    cbn [N.eqb Pos.eqb andb]. cbv zeta. do 2 f_equal. divmod.
  - inversion_clear Hbs as [|? ? Hb1 Hbs']. inversion_clear Hbs' as [|? ? Hb2 _].
    cbn [base64Encode]. rewrite base64Decode_step.
    sextet (b1 / 4). sextet ((b1 mod 4) * 16 + b2 / 16).
    sextet ((b2 mod 16) * 4).
    cbn [N.eqb Pos.eqb andb]. cbv zeta.
    f_equal. f_equal; [divmod|]. f_equal. divmod.
  - inversion_clear Hbs as [|? ? Hb1 Hbs']. inversion_clear Hbs' as [|? ? Hb2 Hbs''].
    inversion_clear Hbs'' as [|? ? Hb3 Hrest].
    rewrite base64Encode_step, base64Decode_step.
    sextet (b1 / 4). sextet ((b1 mod 4) * 16 + b2 / 16).
    sextet ((b2 mod 16) * 4 + b3 / 64). sextet (b3 mod 64).
    cbn [andb]. rewrite IH by assumption. cbv zeta.
    f_equal. f_equal; [divmod|]. f_equal; [divmod|]. f_equal. divmod.
Qed.

Lemma base64Encode_no_zero (bs : bytes) :
  Forall isByte bs -> existsb (N.eqb 0) (base64Encode bs) = false.
Proof.
  unfold isByte.
  assert (Hz : forall s, s < 64 -> (0 =? sextetChar s) = false).
  { intros s Hs. apply N.eqb_neq. intros Heq.
    by destruct (sextetChar_inverse s Hs) as (_ & _ & []). }
  induction bs as [|b1|b1 b2|b1 b2 b3 rest IH] using bytes_ind3; intros Hbs.
  - reflexivity.
  - inversion_clear Hbs as [|? ? Hb1 _]. cbn [base64Encode existsb].
    rewrite !Hz by divmod. reflexivity.
  - inversion_clear Hbs as [|? ? Hb1 Hbs']. inversion_clear Hbs' as [|? ? Hb2 _].
    cbn [base64Encode existsb]. rewrite !Hz by divmod. reflexivity.
  - inversion_clear Hbs as [|? ? Hb1 Hbs']. inversion_clear Hbs' as [|? ? Hb2 Hbs''].
    inversion_clear Hbs'' as [|? ? Hb3 Hrest].
    rewrite base64Encode_step. cbn [existsb].
    rewrite !Hz by divmod. rewrite IH by assumption. reflexivity.
Qed.

(** *** Framing *)
Lemma unbe32_be32 (n : N) :
  n < 4294967296 ->
  unbe32 ((n / 16777216) mod 256) ((n / 65536) mod 256) ((n / 256) mod 256)
    (n mod 256) = n.
Proof. unfold unbe32. intros. divmod. Qed.

Lemma unbe32_bound (b3 b2 b1 b0 : N) :
  isByte b3 -> isByte b2 -> isByte b1 -> isByte b0 ->
  unbe32 b3 b2 b1 b0 < 4294967296.
Proof. unfold isByte, unbe32. lia. Qed.

Lemma crc32_bound (bs : bytes) : crc32 bs < 4294967296.
Proof. unfold crc32. apply N.mod_lt. done. Qed.

Lemma extractFrom_frames (chunks : list chunk) : forall fuel first,
  streamOk first chunks ->
  (length chunks <= fuel)%nat ->
  extractFrom fuel first (concat (map frame chunks)) = inr chunks.
Proof.
  induction chunks as [|c rest IH]; intros fuel first Hok Hfuel; [done|].
  destruct fuel as [|fuel]; [simpl in Hfuel; lia|].
  destruct Hok as (Hname & Hfirst & Hrest).
  destruct c as [nm dt]. cbn [name data] in *.
  destruct nm as [|n0 [|n1 [|n2 [|n3 [|]]]]]; try discriminate Hname.
  cbn [map concat frame name data].
  pose proof (unbe32_be32 (N.of_nat (length dt))) as Hlen.
  pose proof (unbe32_be32 (crc32 ([n0; n1; n2; n3] ++ dt)) (crc32_bound _)) as Hcrc.
  set (crc := crc32 ([n0; n1; n2; n3] ++ dt)) in *.
  unfold frame at 1. cbn [name data]. fold crc.
  unfold be32. cbn [app extractFrom]. cbv zeta.
  destruct (bool_decide ([n0; n1; n2; n3] = IEND)) eqn:Hend.
  - destruct Hrest as [-> ->].
    destruct first.
    + specialize (Hfirst eq_refl). apply bool_decide_eq_true in Hend.
      rewrite Hfirst in Hend. by vm_compute in Hend.
    + reflexivity.
  - destruct Hrest as [Hfit Hrest]. specialize (Hlen Hfit).
    assert (Hhead : first && negb (bool_decide ([n0; n1; n2; n3] = IHDR)) = false).
    { destruct first; [|done]. rewrite bool_decide_true by auto. done. }
    rewrite Hhead, Hlen, Nat2N.id.
    match goal with
    | |- context [(length ?l <? _)%nat] =>
        replace (length l <? length dt + 4)%nat with false
    end.
    2:{ symmetry. apply Nat.ltb_ge. rewrite !length_app. simpl. lia. }
    rewrite <- !app_assoc, take_app_length, drop_app_length. cbn [app].
    fold crc. rewrite Hcrc, N.eqb_refl.
    rewrite (IH fuel false Hrest) by (simpl in Hfuel; lia).
    reflexivity.
Qed.

Lemma frame_length (c : chunk) : (12 <= length (frame c) + (4 - length (name c)))%nat.
Proof. unfold frame. rewrite !length_app. cbn [be32 length]. lia. Qed.

Lemma chunks_fit (first : bool) (chunks : list chunk) :
  streamOk first chunks -> (length chunks <= length (concat (map frame chunks)))%nat.
Proof.
  revert first. induction chunks as [|c rest IH]; intros first Hok; [done|].
  destruct Hok as (Hname & _ & Hrest).
  cbn [map concat length]. rewrite length_app.
  pose proof (frame_length c).
  destruct (bool_decide (name c = IEND)).
  - destruct Hrest as [-> _]. simpl. lia.
  - destruct Hrest as [_ Hrest]. specialize (IH _ Hrest). lia.
Qed.

Lemma extract_encodeChunks (chunks : list chunk) :
  streamOk true chunks -> extract (encodeChunks chunks) = inr chunks.
Proof.
  intros Hok. unfold extract, encodeChunks.
  change (take 8 (signature ++ concat (map frame chunks))) with signature.
  rewrite bool_decide_true by done.
  change (drop 8 (signature ++ concat (map frame chunks)))
    with (concat (map frame chunks)).
  apply extractFrom_frames; [exact Hok|].
  pose proof (chunks_fit _ _ Hok). rewrite length_app. lia.
Qed.

(** What [extract] returns is such a sequence. *)
Lemma extractFrom_streamOk (fuel : nat) : forall first stream chunks,
  Forall isByte stream ->
  extractFrom fuel first stream = inr chunks ->
  streamOk first chunks.
Proof.
  induction fuel as [|fuel IH]; intros first stream chunks Hbytes Hrun; [done|].
  cbn [extractFrom] in Hrun.
  destruct stream as [|l3 [|l2 [|l1 [|l0 [|n0 [|n1 [|n2 [|n3 rest]]]]]]]]; try done.
  repeat match goal with
         | H : Forall isByte (_ :: _) |- _ => apply Forall_cons_iff in H as [? H]
         end.
  cbv zeta in Hrun.
  destruct (first && negb (bool_decide ([n0; n1; n2; n3] = IHDR))) eqn:Hhead; [done|].
  assert (Hfirst : first = true -> [n0; n1; n2; n3] = IHDR).
  { intros ->. cbn [andb] in Hhead. apply negb_false_iff in Hhead.
    by apply bool_decide_eq_true in Hhead. }
  destruct (bool_decide ([n0; n1; n2; n3] = IEND)) eqn:Hend.
  - injection Hrun as <-. cbn [streamOk name data]. rewrite Hend. done.
  - destruct (length rest <? _)%nat eqn:Hshort; [done|].
    apply Nat.ltb_ge in Hshort.
    destruct (drop _ rest) as [|c3 [|c2 [|c1 [|c0 rest']]]] eqn:Hdrop; try done.
    destruct (_ =? _); [|done].
    destruct (extractFrom fuel false rest') as [|tail] eqn:Htail; [done|].
    injection Hrun as <-. cbn [streamOk name data]. rewrite Hend.
    split; [done|]. split; [done|]. split.
    + rewrite length_take.
      pose proof (unbe32_bound l3 l2 l1 l0 ltac:(assumption) ltac:(assumption)
                    ltac:(assumption) ltac:(assumption)).
      lia.
    + apply (IH false rest'); [|exact Htail].
      assert (Hsuffix : Forall isByte (drop (N.to_nat (unbe32 l3 l2 l1 l0)) rest))
        by (by apply Forall_drop).
      rewrite Hdrop in Hsuffix.
      by repeat apply Forall_cons_iff in Hsuffix as [_ Hsuffix].
Qed.

Lemma extract_streamOk (image : bytes) (chunks : list chunk) :
  Forall isByte image -> extract image = inr chunks -> streamOk true chunks.
Proof.
  intros Hbytes. unfold extract.
  destruct (bool_decide _); [|done].
  apply extractFrom_streamOk. by apply Forall_drop.
Qed.

(** *** Text segments *)
Lemma splitKeyword_app (keyword text : bytes) :
  existsb (N.eqb 0) keyword = false ->
  splitKeyword (keyword ++ 0 :: text) = (keyword, Some text).
Proof.
  induction keyword as [|k keyword IH]; intros Hk; [reflexivity|].
  cbn [existsb] in Hk. apply orb_false_iff in Hk as [Hk0 Hk].
  cbn [app splitKeyword]. rewrite N.eqb_sym, Hk0, (IH Hk). reflexivity.
Qed.

Lemma textDecode_textEncode (keyword text : bytes) :
  existsb (N.eqb 0) keyword = false ->
  existsb (N.eqb 0) text = false ->
  textDecode (data (textEncode keyword text)) = inr (keyword, text).
Proof.
  intros Hk Ht. unfold textDecode, textEncode. cbn [data].
  by rewrite (splitKeyword_app _ _ Hk), Ht.
Qed.

Lemma cardSegment_decodes (payload : bytes) :
  Forall isByte payload ->
  textDecode (data (cardSegment payload)) = inr (js "chara", base64Encode payload).
Proof.
  intros Hp. apply textDecode_textEncode; [reflexivity|].
  by apply base64Encode_no_zero.
Qed.

Lemma cardSegment_isCardChunk (payload : bytes) :
  Forall isByte payload -> isCardChunk (cardSegment payload) = true.
Proof.
  intros Hp. unfold isCardChunk. rewrite (cardSegment_decodes _ Hp). reflexivity.
Qed.

(** *** Editing the chunk sequence *)
Lemma isCardChunk_name (c : chunk) : isCardChunk c = true -> name c = tEXt.
Proof.
  unfold isCardChunk, isTextChunk. intros Hc.
  apply andb_true_iff in Hc as [Hc _]. by apply bool_decide_eq_true in Hc.
Qed.

Lemma streamOk_filter (chunks : list chunk) : forall first,
  streamOk first chunks ->
  streamOk first (List.filter (fun c => negb (isCardChunk c)) chunks).
Proof.
  induction chunks as [|c rest IH]; intros first Hok; [done|].
  destruct Hok as (Hname & Hfirst & Hrest). cbn [List.filter].
  destruct (isCardChunk c) eqn:Hcard; cbn [negb].
  - apply isCardChunk_name in Hcard.
    rewrite bool_decide_false in Hrest by (rewrite Hcard; by vm_compute).
    destruct Hrest as [_ Hrest].
    destruct first.
    + specialize (Hfirst eq_refl). rewrite Hcard in Hfirst. by vm_compute in Hfirst.
    + by apply IH.
  - cbn [streamOk]. split; [done|]. split; [done|].
    destruct (bool_decide (name c = IEND)).
    + destruct Hrest as [-> ->]. done.
    + destruct Hrest as [Hfit Hrest]. split; [done|]. by apply IH.
Qed.

Lemma streamOk_insertBeforeLast (seg : chunk) (chunks : list chunk) : forall first,
  length (name seg) = 4%nat ->
  name seg <> IEND ->
  name seg <> IHDR ->
  N.of_nat (length (data seg)) < 4294967296 ->
  streamOk first chunks ->
  (first = true -> (2 <= length chunks)%nat) ->
  streamOk first (insertBeforeLast seg chunks).
Proof.
  intros first Hlen Hend Hhdr Hfit.
  revert first. induction chunks as [|c rest IH]; intros first Hok Hmany; [done|].
  destruct Hok as (Hname & Hfirst & Hrest).
  destruct rest as [|c' rest].
  - destruct first; [specialize (Hmany eq_refl); simpl in Hmany; lia|].
    cbn [insertBeforeLast streamOk].
    rewrite (bool_decide_false (name seg = IEND)) by done.
    repeat split; try done.
  - change (insertBeforeLast seg (c :: c' :: rest))
      with (c :: insertBeforeLast seg (c' :: rest)).
    cbn [streamOk]. split; [done|]. split; [done|].
    destruct (bool_decide (name c = IEND)).
    + by destruct Hrest as [? _].
    + destruct Hrest as [? Hrest]. split; [done|]. apply IH; [done | done].
Qed.

Lemma streamOk_long (chunks : list chunk) :
  streamOk true chunks -> (2 <= length chunks)%nat.
Proof.
  destruct chunks as [|c [|c' rest]]; [done| |simpl; lia].
  intros (_ & Hfirst & Hrest). specialize (Hfirst eq_refl).
  rewrite bool_decide_false in Hrest by (rewrite Hfirst; by vm_compute).
  by destruct Hrest.
Qed.

Lemma find_insertBeforeLast (seg : chunk) (chunks : list chunk) :
  isCardChunk seg = true ->
  Forall (fun c => isCardChunk c = false) chunks ->
  List.find isCardChunk (insertBeforeLast seg chunks) = Some seg.
Proof.
  intros Hseg Hnone. induction Hnone as [|c rest Hc Hrest IH].
  - cbn [insertBeforeLast List.find]. by rewrite Hseg.
  - destruct rest as [|c' rest].
    + cbn [insertBeforeLast List.find]. by rewrite Hseg.
    + change (insertBeforeLast seg (c :: c' :: rest))
        with (c :: insertBeforeLast seg (c' :: rest)).
      cbn [List.find]. by rewrite Hc.
Qed.

Lemma filter_no_card (chunks : list chunk) :
  Forall (fun c => isCardChunk c = false)
    (List.filter (fun c => negb (isCardChunk c)) chunks).
Proof.
  induction chunks as [|c rest IH]; cbn [List.filter]; [constructor|].
  destruct (isCardChunk c) eqn:Hc; cbn [negb]; [done|]. by constructor.
Qed.

Lemma base64Encode_length (bs : bytes) :
  length (base64Encode bs) = (4 * ((length bs + 2) / 3))%nat.
Proof.
  induction bs as [|b1|b1 b2|b1 b2 b3 rest IH] using bytes_ind3; try reflexivity.
  rewrite base64Encode_step. cbn [length]. rewrite IH.
  replace (S (S (S (length rest))) + 2)%nat with (1 * 3 + (length rest + 2))%nat by lia.
  rewrite Nat.div_add_l by done. lia.
Qed.

Lemma encodedChunks_ok (chunks : list chunk) (payload : bytes) :
  streamOk true chunks -> fitsChunk payload ->
  streamOk true (encodedChunks chunks payload).
Proof.
  intros Hok Hfit. unfold encodedChunks.
  pose proof (streamOk_filter _ _ Hok) as Hkept.
  apply streamOk_insertBeforeLast; try done.
  - unfold cardSegment, textEncode. cbn [data].
    rewrite length_app. cbn [length]. rewrite base64Encode_length.
    unfold fitsChunk in Hfit. change (length (js "chara")) with 5%nat. lia.
  - intros _. by apply streamOk_long.
Qed.

Lemma decode_encodedChunks (chunks : list chunk) (payload : bytes) :
  streamOk true chunks -> fitsChunk payload -> Forall isByte payload ->
  decode (encodeChunks (encodedChunks chunks payload)) = inr payload.
Proof.
  intros Hok Hfit Hbytes. unfold decode.
  rewrite (extract_encodeChunks _ (encodedChunks_ok _ _ Hok Hfit)).
  unfold encodedChunks.
  rewrite (find_insertBeforeLast _ _ (cardSegment_isCardChunk _ Hbytes)
             (filter_no_card chunks)).
  rewrite (cardSegment_decodes _ Hbytes).
  by rewrite (base64_roundtrip _ Hbytes).
Qed.

(** C2.  For every canonical record, encoding its serialized form into a
    valid container and decoding the result gives the serialized form
    back, byte for byte. *)
Theorem decode_encode_roundtrip (defaultImage : bytes) (R : CharacterRecord) :
  Forall isByte defaultImage ->
  (exists chunks, extract defaultImage = inr chunks) ->
  canonical R ->
  exists artifact,
    encode defaultImage (serialize R) = inr artifact
    /\ decode artifact = inr (serialize R).
Proof.
  intros Hbytes [chunks Hchunks] [Hpayload Hfit].
  pose proof (extract_streamOk _ _ Hbytes Hchunks) as Hok.
  exists (encodeChunks (encodedChunks chunks (serialize R))). split.
  - unfold encode. by rewrite Hchunks.
  - by apply decode_encodedChunks.
Qed.

(** C2 at an input: the one-pixel image and the record of the examples. *)
Lemma decode_encode_roundtrip_witness :
  Forall isByte Demo.plainPng
  /\ (exists chunks, extract Demo.plainPng = inr chunks)
  /\ canonical exampleRecord
  /\ exists artifact,
       encode Demo.plainPng (serialize exampleRecord) = inr artifact
       /\ decode artifact = inr (serialize exampleRecord).
Proof.
  assert (Himage : Forall isByte Demo.plainPng).
  { apply Forall_forall. intros b Hb. unfold isByte.
    assert (Hall : forallb (fun b => b <? 256) Demo.plainPng = true)
      by (vm_compute; reflexivity).
    rewrite forallb_forall in Hall. apply N.ltb_lt, Hall, Hb. }
  assert (Hvalid : exists chunks, extract Demo.plainPng = inr chunks)
    by (eexists; vm_compute; reflexivity).
  assert (Hcanonical : canonical exampleRecord).
  { split.
    - apply Forall_forall. intros b Hb. unfold isByte.
      assert (Hall : forallb (fun b => b <? 256) (rawJson exampleRecord) = true)
        by (vm_compute; reflexivity).
      rewrite forallb_forall in Hall. apply N.ltb_lt, Hall, Hb.
    - unfold fitsChunk. vm_compute. reflexivity. }
  split; [exact Himage|]. split; [exact Hvalid|]. split; [exact Hcanonical|].
  exact (decode_encode_roundtrip Demo.plainPng exampleRecord Himage Hvalid Hcanonical).
Defined.

End CodecFacts.

(** ** The endpoint code *)
Section EndpointFacts.
Context `{Runtime}.

Lemma readOnly_ret {A} (a : A) : readOnly (ret a).
Proof. done. Qed.
Lemma readOnly_throw {A} e : readOnly (@throw A e).
Proof. done. Qed.
Lemma readOnly_lift {A} (r : exn + A) : readOnly (lift r).
Proof. done. Qed.
Lemma readOnly_readFileSync p : readOnly (readFileSync p).
Proof. intros w. unfold readFileSync. by destruct (files w !! p). Qed.
Lemma readOnly_statSync p : readOnly (statSync p).
Proof. intros w. unfold statSync. by destruct (files w !! p). Qed.
Lemma readOnly_existsSync p : readOnly (existsSync p).
Proof. done. Qed.
Lemma readOnly_dateNow : readOnly dateNow.
Proof. done. Qed.
Lemma readOnly_bind {A B} (m : M A) (k : A -> M B) :
  readOnly m -> (forall a, readOnly (k a)) -> readOnly (bind m k).
Proof.
  intros Hm Hk w. unfold bind. specialize (Hm w).
  destruct (m w) as [[e|a] w']; simpl in *; subst; [done | apply Hk].
Qed.
Lemma readOnly_tryCatch {A} (m : M A) (h : exn -> M A) :
  readOnly m -> (forall e, readOnly (h e)) -> readOnly (tryCatch m h).
Proof.
  intros Hm Hh w. unfold tryCatch. specialize (Hm w).
  destruct (m w) as [[e|a] w']; simpl in *; subst; [apply Hh | done].
Qed.

Create HintDb readOnly.
#[local] Hint Resolve readOnly_ret readOnly_throw readOnly_lift
  readOnly_readFileSync readOnly_statSync readOnly_existsSync
  readOnly_dateNow : readOnly.

Ltac read_only :=
  cbv zeta;
  lazymatch goal with
  | |- readOnly (bind _ _) => apply readOnly_bind; [|intros ?]; read_only
  | |- readOnly (tryCatch _ _) => apply readOnly_tryCatch; [|intros ?]; read_only
  | |- readOnly (match ?x with _ => _ end) => destruct x; read_only
  | |- readOnly _ => first [ solve [auto with readOnly] | idtac ]
  end.

Lemma readOnly_humanizedNow : readOnly humanizedNow.
Proof. unfold humanizedNow. read_only. Qed.

Lemma readOnly_processImage i crop : readOnly (processImage i crop).
Proof. unfold processImage. read_only. Qed.

Lemma readOnly_parseImageBuffer b crop : readOnly (parseImageBuffer b crop).
Proof. unfold parseImageBuffer. read_only; auto using readOnly_processImage. Qed.

Lemma readOnly_tryReadImage p crop : readOnly (tryReadImage p crop).
Proof.
  unfold tryReadImage. read_only; try done; auto using readOnly_processImage.
Qed.

Lemma readOnly_getInputImage i crop : readOnly (getInputImage i crop).
Proof.
  unfold getInputImage. read_only;
    auto using readOnly_parseImageBuffer, readOnly_tryReadImage.
Qed.

Lemma readOnly_readCharacterData i : readOnly (readCharacterData i).
Proof. unfold readCharacterData. read_only. Qed.

Lemma readOnly_stamp j h n : readOnly (stamp j h n).
Proof. unfold stamp. read_only; auto using readOnly_humanizedNow. Qed.

Lemma readOnly_processCharacter item : readOnly (processCharacter item).
Proof.
  unfold processCharacter. read_only; auto using readOnly_readCharacterData.
Qed.

Lemma readOnly_decodeAttempt i crop : readOnly (decodeAttempt i crop).
Proof.
  destruct i; simpl; auto using readOnly_parseImageBuffer, readOnly_tryReadImage.
Qed.

Lemma readOnly_decodeRetry p crop : readOnly (decodeRetry p crop).
Proof. unfold decodeRetry. read_only; auto using readOnly_parseImageBuffer. Qed.

Lemma getInputImage_chosen inputFile crop w avatar :
  files w !! Outside DEFAULT_AVATAR_PATH = Some avatar ->
  getInputImage inputFile crop w = (inr (chosenImage inputFile crop avatar w), w).
Proof.
  intros Havatar.
  assert (Hdefault : readFileSync (Outside DEFAULT_AVATAR_PATH) w
                     = (inr (content avatar), w)).
  { unfold readFileSync. by rewrite Havatar. }
  unfold getInputImage, chosenImage, tryCatch.
  fold (decodeAttempt inputFile crop).
  pose proof (readOnly_decodeAttempt inputFile crop w) as Hro.
  destruct (decodeAttempt inputFile crop w) as [[e|b] w1]; simpl in *; subst w1;
    [|reflexivity].
  destruct inputFile as [filePath|buffer]; [|exact Hdefault].
  destruct (endsWith filePath (js ".png")); [|exact Hdefault].
  fold (decodeRetry filePath crop).
  pose proof (readOnly_decodeRetry filePath crop w) as Hro.
  destruct (decodeRetry filePath crop w) as [[e'|b] w1]; simpl in *; subst w1;
    [exact Hdefault | reflexivity].
Qed.







Lemma kept_refl p w : kept p w w.
Proof. done. Qed.

Lemma kept_trans p w1 w2 w3 : kept p w1 w2 -> kept p w2 w3 -> kept p w1 w3.
Proof. intros [? ?] [? ?]. split; congruence. Qed.

Lemma kept_gone p w1 w2 w3 : kept p w1 w2 -> gone p w2 w3 -> gone p w1 w3.
Proof. intros [? ?] [? ?]. split; congruence. Qed.

Lemma gone_kept p w1 w2 w3 : gone p w1 w2 -> kept p w2 w3 -> gone p w1 w3.
Proof. intros [? ?] [? ?]. split; congruence. Qed.

Lemma kept_is_Some p w w' : kept p w w' -> is_Some (files w !! p) -> is_Some (files w' !! p).
Proof. intros [-> _]. done. Qed.

Lemma quiet_readOnly p {A} (m : M A) : readOnly m -> quiet p m.
Proof. intros Hm w. rewrite Hm. apply kept_refl. Qed.

Lemma quiet_bind p {A B} (m : M A) (k : A -> M B) :
  quiet p m -> (forall a, quiet p (k a)) -> quiet p (bind m k).
Proof.
  intros Hm Hk w. unfold bind. specialize (Hm w).
  destruct (m w) as [[e|a] w']; simpl in *; [done|].
  eapply kept_trans; [exact Hm | apply Hk].
Qed.

Lemma quiet_tryCatch p {A} (m : M A) (h : exn -> M A) :
  quiet p m -> (forall e, quiet p (h e)) -> quiet p (tryCatch m h).
Proof.
  intros Hm Hh w. unfold tryCatch. specialize (Hm w).
  destruct (m w) as [[e|a] w']; simpl in *; [|done].
  eapply kept_trans; [exact Hm | apply Hh].
Qed.

Lemma quiet_writeFileAtomicSync p q b : p <> q -> quiet p (writeFileAtomicSync q b).
Proof. intros Hne w. split; [|done]. simpl. by rewrite lookup_insert_ne. Qed.

Ltac be_quiet :=
  cbv zeta;
  lazymatch goal with
  | |- quiet _ (bind _ _) => apply quiet_bind; [|intros ?]; be_quiet
  | |- quiet _ (tryCatch _ _) => apply quiet_tryCatch; [|intros ?]; be_quiet
  | |- quiet _ (match ?x with _ => _ end) => destruct x; be_quiet
  | |- quiet _ (writeFileAtomicSync _ _) => apply quiet_writeFileAtomicSync; try done
  | |- quiet _ _ => first [ solve [apply quiet_readOnly; auto with readOnly] | idtac ]
  end.

Lemma deletesOnSuccess_bind p {A B} (m : M A) (k : A -> M B) :
  quiet p m -> (forall a, deletesOnSuccess p (k a)) -> deletesOnSuccess p (bind m k).
Proof.
  intros Hm Hk w Hw. unfold bind. specialize (Hm w).
  destruct (m w) as [[e|a] w1]; simpl in *; [done|].
  specialize (Hk a w1 (kept_is_Some _ _ _ Hm Hw)).
  destruct (k a w1) as [[e|b] w2]; simpl in *.
  - eapply kept_trans; eauto.
  - eapply kept_gone; eauto.
Qed.

Lemma deletesOnSuccess_throw p {A} e : deletesOnSuccess p (@throw A e).
Proof. intros w _. apply kept_refl. Qed.

Lemma deletesOnSuccess_unlink p {A} (a : A) :
  deletesOnSuccess p (run unlinkSync p; ret a).
Proof.
  intros w [f Hf]. unfold bind, unlinkSync. rewrite Hf. simpl.
  split; [apply lookup_delete_eq | done].
Qed.

(** The [catch] block that deletes the file if it is still there and
    throws again. *)
Lemma deletes_cleanup p {A} (body : M A) :
  deletesOnSuccess p body ->
  deletes p (tryCatch body
               (fun error =>
                  do stillThere <- existsSync p;
                  run (if stillThere then unlinkSync p else ret tt);
                  throw error)).
Proof.
  intros Hbody w Hw. specialize (Hbody w Hw). unfold tryCatch.
  destruct (body w) as [[e|a] w1]; simpl in *; [|done].
  pose proof (kept_is_Some _ _ _ Hbody Hw) as [f Hf].
  unfold bind, existsSync. simpl. rewrite bool_decide_true by eauto.
  unfold unlinkSync. rewrite Hf. simpl.
  eapply kept_gone; [exact Hbody|]. split; [apply lookup_delete_eq | done].
Qed.

(** Reading the file, deleting it, and going on quietly. *)
Lemma deletes_read_unlink p {A} (rest : bytes -> M A) :
  (forall b, quiet p (rest b)) ->
  deletes p (do fileBytes <- readFileSync p; run unlinkSync p; rest fileBytes).
Proof.
  intros Hrest w [f Hf]. unfold bind at 1. unfold readFileSync. rewrite Hf.
  unfold bind, unlinkSync. rewrite Hf.
  match goal with
  | |- gone _ _ (snd (rest ?b ?w1)) =>
      pose proof (Hrest b w1) as Hk; destruct (rest b w1) as [r w2]
  end.
  simpl in *. eapply gone_kept; [|exact Hk].
  split; [apply lookup_delete_eq | done].
Qed.

Lemma quiet_writeCharacterData uploadPath inputFile data outputFile crop :
  quiet (Outside uploadPath) (writeCharacterData inputFile data outputFile crop).
Proof.
  unfold writeCharacterData. be_quiet.
  apply quiet_readOnly, readOnly_getInputImage.
Qed.

Lemma quiet_stamp p j h n : quiet p (stamp j h n).
Proof. apply quiet_readOnly, readOnly_stamp. Qed.

Lemma quiet_preservedOr p preserved derived :
  quiet p derived -> quiet p (preservedOr preserved derived).
Proof.
  intros Hd. unfold preservedOr.
  destruct preserved as [[|c n]|]; auto. apply quiet_readOnly, readOnly_ret.
Qed.

Lemma deletes_importFromYaml uploadPath h n preserved :
  deletes (Outside uploadPath) (importFromYaml uploadPath h n preserved).
Proof.
  unfold importFromYaml. apply deletes_read_unlink. intros fileBytes.
  be_quiet;
    auto using quiet_writeCharacterData, quiet_preservedOr, quiet_readOnly,
      readOnly_humanizedNow, readOnly_ret.
Qed.

Lemma deletes_importFromJson uploadPath h n preserved :
  deletes (Outside uploadPath) (importFromJson uploadPath h n preserved).
Proof.
  unfold importFromJson. apply deletes_read_unlink. intros fileBytes.
  be_quiet;
    try (apply quiet_preservedOr; be_quiet);
    auto using quiet_writeCharacterData, quiet_stamp.
Qed.

Ltac delete_on_success :=
  cbv zeta;
  lazymatch goal with
  | |- deletesOnSuccess _ (bind (unlinkSync _) _) => apply deletesOnSuccess_unlink
  | |- deletesOnSuccess _ (bind _ _) =>
      apply deletesOnSuccess_bind; [be_quiet | intros ?; delete_on_success]
  | |- deletesOnSuccess _ (throw _) => apply deletesOnSuccess_throw
  | |- deletesOnSuccess _ (match ?x with _ => _ end) => destruct x; delete_on_success
  | |- _ => idtac
  end.

Lemma readOnly_analysePng b : readOnly (analysePng b).
Proof. unfold analysePng. read_only. Qed.

Lemma deletes_importFromPng uploadPath h n preserved :
  deletes (Outside uploadPath) (importFromPng uploadPath h n preserved).
Proof.
  unfold importFromPng. apply deletes_cleanup.
  delete_on_success;
    auto using quiet_writeCharacterData, quiet_stamp, quiet_preservedOr,
      quiet_readOnly, readOnly_readCharacterData, readOnly_analysePng,
      readOnly_ret.
Qed.

Lemma deletes_callImport f uploadPath h n preserved :
  deletes (Outside uploadPath) (callImport f uploadPath h n preserved).
Proof.
  destruct f; simpl;
    auto using deletes_importFromYaml, deletes_importFromJson, deletes_importFromPng.
Qed.

(** The route always answers. *)
Lemma uploadWith_answers found request w :
  exists response, fst (uploadWith found request w) = inr response.
Proof.
  unfold uploadWith, tryCatch.
  match goal with
  | |- context [match ?body w with _ => _ end] => destruct (body w) as [[e|r] w1]
  end; [|by eexists].
  unfold bind, existsSync. simpl.
  match goal with
  | |- context [if ?b then _ else _] => destruct b
  end; simpl.
  - unfold tryCatch. destruct (unlinkSync _ w1) as [[e'|[]] w2]; simpl; by eexists.
  - by eexists.
Qed.

Lemma callInherited_throws name uploadPath :
  name ∉ returningMembers ->
  exists message, callInherited name uploadPath = inl (TypeError message).
Proof.
  intros Hname. unfold callInherited.
  repeat match goal with
  | |- context [bool_decide (name = ?m)] =>
      destruct (bool_decide_reflect (name = m)) as [->|?]
  end; eauto; exfalso; apply Hname; unfold returningMembers; set_solver.
Qed.

Lemma deletes_uploadWith found request :
  (forall name, found = InheritedMember name -> name ∉ returningMembers) ->
  deletes (Outside (upload_path request)) (uploadWith found request).
Proof.
  intros Hfound w Hw. unfold uploadWith, tryCatch.
  assert (Hthrown : forall e : exn,
            gone (Outside (upload_path request)) w
              (snd ((do stillThere <- existsSync (Outside (upload_path request));
                     run (if stillThere then
                            tryCatch (unlinkSync (Outside (upload_path request)))
                              (fun cleanupError => ret tt)
                          else ret tt);
                     ret (Response 400
                            (errorBody (match message_of e with
                                        | [] => js "Upload failed"
                                        | m => m
                                        end)))) w))).
  { intros e. unfold bind, existsSync. simpl.
    rewrite bool_decide_true by done.
    destruct Hw as [f Hf]. unfold tryCatch, unlinkSync. rewrite Hf. simpl.
    split; [apply lookup_delete_eq | done]. }
  destruct found as [f| |name].
  - pose proof (deletes_callImport f (upload_path request) (user_handle request)
                  (user_name request) (getPreservedName (preserved_name request))
                  w Hw) as Hgone.
    unfold bind at 1.
    destruct (callImport _ _ _ _ _ w) as [[e|fileName] w1]; simpl in Hgone.
    + unfold bind, existsSync. simpl.
      destruct Hgone as [Hnone Hlog]. rewrite Hnone.
      rewrite bool_decide_false by (intros [? ?]; discriminate).
      simpl. done.
    + destruct (bool_decide (fileName = [])); simpl; done.
  - unfold throw. apply Hthrown.
  - destruct (callInherited_throws name (upload_path request) (Hfound name eq_refl))
      as [message Hcall].
    unfold bind at 1, lift at 1. rewrite Hcall. apply Hthrown.
Qed.

Lemma gone_counts p w w' :
  gone p w w' ->
  unlinkAttempts p w' = S (unlinkAttempts p w)
  /\ unlinkSuccesses p w' = S (unlinkSuccesses p w).
Proof.
  intros [_ Hlog]. unfold unlinkAttempts, unlinkSuccesses. rewrite Hlog.
  rewrite !List.filter_app, !length_app. simpl.
  rewrite bool_decide_true by done. simpl. lia.
Qed.

Lemma formatImportFunctions_inherited format name :
  formatImportFunctions format = InheritedMember name -> name = formatKey format.
Proof.
  unfold formatImportFunctions.
  repeat match goal with
  | |- context [if ?b then _ else _] => destruct b
  end; congruence.
Qed.

(** The upload of every format but three deletes the temp file once: a
    request whose format is a registered driver, no member of the table,
    or one of the nine inherited members that throw, and whose temp file
    exists, ends with a response; afterwards the temp file is gone and the
    route has called [fs.unlinkSync] exactly once, on the temp file and
    with success. *)
Lemma upload_deletes_temp_file_once request w :
  formatKey (file_type request) ∉ returningMembers ->
  is_Some (files w !! Outside (upload_path request)) ->
  (exists response, fst (upload request w) = inr response)
  /\ files (snd (upload request w)) !! Outside (upload_path request) = None
  /\ unlinkLog (snd (upload request w))
     = unlinkLog w ++ [(Outside (upload_path request), true)]
  /\ unlinkAttempts (Outside (upload_path request)) (snd (upload request w))
     = S (unlinkAttempts (Outside (upload_path request)) w)
  /\ unlinkSuccesses (Outside (upload_path request)) (snd (upload request w))
     = S (unlinkSuccesses (Outside (upload_path request)) w).
Proof.
  intros Hformat Hw. unfold upload.
  assert (Hgone : gone (Outside (upload_path request)) w
                    (snd (uploadWith (formatImportFunctions (file_type request))
                            request w))).
  { apply deletes_uploadWith; [|exact Hw].
    intros name Hname. by rewrite (formatImportFunctions_inherited _ _ Hname). }
  split; [apply uploadWith_answers|].
  destruct (gone_counts _ _ _ Hgone) as [Ha Hs].
  destruct Hgone as [Hnone Hlog]. auto.
Qed.

(** C8 fails for three formats.  When [file_type] is [constructor],
    [toString] or [isPrototypeOf], the lookup in the table yields a member
    inherited from [Object.prototype] that returns; the route answers (200
    with the temp path or [[object Undefined]] as file name, or 400) and
    the state is what it was: the temp file is still there and
    [fs.unlinkSync] was not called. *)
Theorem upload_keeps_temp_file_for_inherited_format request w :
  formatKey (file_type request) ∈ returningMembers ->
  upload request w
  = (inr (if bool_decide (formatKey (file_type request) = js "isPrototypeOf")
          then refused (js "Failed to import character")
          else uploaded
                 (if bool_decide (formatKey (file_type request) = js "constructor")
                  then upload_path request
                  else js "[object Undefined]")), w).
Proof.
  intros Hformat. unfold upload, formatImportFunctions.
  set (key := formatKey (file_type request)) in *.
  unfold returningMembers in Hformat.
  assert (Hkey : key = js "constructor" \/ key = js "toString"
                 \/ key = js "isPrototypeOf").
  { repeat (apply elem_of_cons in Hformat as [Hformat|Hformat]; [by auto|]).
    by apply elem_of_nil in Hformat. }
  destruct Hkey as [->|[->| ->]]; reflexivity.
Qed.

(** ** Properties of objects *)

Lemma assoc_get_set_eq k x o : assoc_get k (assoc_set k x o) = Some x.
Proof.
  induction o as [|[k' v'] o IH]; simpl.
  - by rewrite decide_True.
  - destruct (decide (k' = k)) as [->|Hne]; simpl.
    + by rewrite decide_True.
    + by rewrite decide_False.
Qed.

Lemma assoc_get_set_ne k k' x o :
  k <> k' -> assoc_get k' (assoc_set k x o) = assoc_get k' o.
Proof.
  intros Hne. induction o as [|[k0 v0] o IH]; simpl.
  - by rewrite decide_False.
  - destruct (decide (k0 = k)) as [->|Hne0]; simpl.
    + by rewrite !decide_False.
    + destruct (decide (k0 = k')); [done | apply IH].
Qed.

Lemma assoc_get_del_eq k o : assoc_get k (assoc_del k o) = None.
Proof.
  induction o as [|[k' v'] o IH]; simpl; [done|].
  destruct (decide (k' = k)) as [->|Hne]; simpl; [done|].
  by rewrite decide_False.
Qed.

Lemma assoc_get_del_ne k k' o :
  k <> k' -> assoc_get k' (assoc_del k o) = assoc_get k' o.
Proof.
  intros Hne. induction o as [|[k0 v0] o IH]; simpl; [done|].
  destruct (decide (k0 = k)) as [->|Hne0]; simpl.
  - by rewrite decide_False.
  - destruct (decide (k0 = k')); [done | apply IH].
Qed.

Lemma getProp_setProp_eq v k x v' :
  setProp v k x = inr v' -> getProp v' k = inr x.
Proof.
  destruct v; simpl; intros [= <-]; simpl; by rewrite assoc_get_set_eq.
Qed.

Lemma getProp_setProp_ne v k k' x v' :
  setProp v k x = inr v' -> k <> k' -> getProp v' k' = getProp v k'.
Proof.
  intros Hset Hne. revert Hset. destruct v; simpl; intros [= <-]; simpl;
    by rewrite assoc_get_set_ne.
Qed.

Lemma hasOwn_setProp_ne v k k' x v' :
  setProp v k x = inr v' -> k <> k' -> hasOwn v' k' = hasOwn v k'.
Proof.
  intros Hset Hne. revert Hset. destruct v; simpl; intros [= <-]; simpl;
    by rewrite assoc_get_set_ne.
Qed.

Lemma getProp_deleteProp_ne v k k' v' :
  deleteProp v k = inr v' -> k <> k' -> getProp v' k' = getProp v k'.
Proof.
  intros Hdel Hne. revert Hdel. destruct v; simpl; intros [= <-]; simpl;
    by rewrite ?assoc_get_del_ne.
Qed.

Lemma hasOwn_deleteProp_eq v k v' :
  deleteProp v k = inr v' -> hasOwn v' k = false.
Proof.
  destruct v; simpl; intros [= <-]; simpl; try done;
    rewrite assoc_get_del_eq; apply bool_decide_false; by intros [? ?].
Qed.

Lemma hasOwn_deleteProp_keeps v k k' v' :
  deleteProp v k = inr v' -> hasOwn v k' = false -> hasOwn v' k' = false.
Proof.
  destruct v; simpl; intros [= <-]; simpl; try done;
    (destruct (decide (k = k')) as [->|Hne];
     [intros _; rewrite assoc_get_del_eq; apply bool_decide_false; by intros [? ?]
     | by rewrite assoc_get_del_ne]).
Qed.

(** Distinct literals are distinct strings. *)
Ltac literals := vm_compute; congruence.

(** ** Inverting a run that returned *)
Lemma bind_returns {A B} (m : M A) (k : A -> M B) w b w' :
  bind m k w = (inr b, w') ->
  exists a w1, m w = (inr a, w1) /\ k a w1 = (inr b, w').
Proof. unfold bind. destruct (m w) as [[e|a] w1]; [done | eauto]. Qed.

Lemma lift_returns {A} (r : exn + A) w a w' :
  lift r w = (inr a, w') -> r = inr a /\ w' = w.
Proof. unfold lift. by intros [= -> ->]. Qed.

Lemma ret_returns {A} (x : A) w a w' :
  ret x w = (inr a, w') -> a = x /\ w' = w.
Proof. unfold ret. by intros [= -> ->]. Qed.

Lemma readOnly_returns {A} (m : M A) w r w' :
  readOnly m -> m w = (r, w') -> w' = w.
Proof. intros Hm Hrun. specialize (Hm w). rewrite Hrun in Hm. done. Qed.

Lemma readFileSync_returns p w b w' :
  readFileSync p w = (inr b, w') ->
  w' = w /\ exists f, files w !! p = Some f /\ b = content f.
Proof.
  unfold readFileSync. destruct (files w !! p) as [f|]; [|done].
  intros [= <- <-]. eauto.
Qed.

Lemma unlinkSync_returns p w u w' :
  unlinkSync p w = (inr u, w') -> w' = removeFile p w.
Proof.
  unfold unlinkSync. destruct (files w !! p) as [f|]; [|done].
  by intros [= _ <-].
Qed.

Lemma humanizedNow_returns w d w' :
  humanizedNow w = (inr d, w') ->
  d = humanizedISO8601DateTime (clock w) /\ w' = w.
Proof. unfold humanizedNow, bind, dateNow, ret. by intros [= <- <-]. Qed.

Lemma stamp_returns j h n w r w' :
  stamp j h n w = (inr r, w') ->
  w' = w
  /\ stampedBy h n (clock w) r
  /\ forall k, k ∉ stampKeys ->
       getProp r k = getProp j k /\ hasOwn r k = hasOwn j k.
Proof.
  intros Hrun.
  pose proof (readOnly_returns _ _ _ _ (readOnly_stamp j h n) Hrun) as ->.
  unfold stamp in Hrun.
  apply bind_returns in Hrun as (d & w1 & Hd & Hrun).
  apply humanizedNow_returns in Hd as [-> ->].
  apply bind_returns in Hrun as (j1 & w1 & H1 & Hrun).
  apply lift_returns in H1 as [H1 ->].
  apply bind_returns in Hrun as (j2 & w1 & H2 & Hrun).
  apply lift_returns in H2 as [H2 ->].
  apply lift_returns in Hrun as [H3 _].
  split; [done|]. split.
  - repeat split.
    + rewrite (getProp_setProp_ne _ _ _ _ _ H3) by literals.
      by apply (getProp_setProp_eq _ _ _ _ H2).
    + by apply (getProp_setProp_eq _ _ _ _ H3).
    + rewrite (getProp_setProp_ne _ _ _ _ _ H3) by literals.
      rewrite (getProp_setProp_ne _ _ _ _ _ H2) by literals.
      by apply (getProp_setProp_eq _ _ _ _ H1).
  - intros k Hk. unfold stampKeys in Hk.
    assert (js "create_date" <> k /\ js "uploader" <> k /\ js "uploader_handle" <> k)
      as (N1 & N2 & N3).
    { repeat split; intros <-; apply Hk; set_solver. }
    split.
    + rewrite (getProp_setProp_ne _ _ _ _ _ H3 N3).
      rewrite (getProp_setProp_ne _ _ _ _ _ H2 N2).
      by rewrite (getProp_setProp_ne _ _ _ _ _ H1 N1).
    + rewrite (hasOwn_setProp_ne _ _ _ _ _ H3 N3).
      rewrite (hasOwn_setProp_ne _ _ _ _ _ H2 N2).
      by rewrite (hasOwn_setProp_ne _ _ _ _ _ H1 N1).
Qed.

Lemma unsetPrivateFields_returns card card' :
  unsetPrivateFields card = inr card' ->
  scrubbed card'
  /\ forall k, k ∉ privateFields -> getProp card' k = getProp card k.
Proof.
  unfold unsetPrivateFields.
  destruct (deleteProp card _) as [|c1] eqn:H1; [done|].
  destruct (deleteProp c1 _) as [|c2] eqn:H2; [done|].
  destruct (deleteProp c2 _) as [|c3] eqn:H3; [done|].
  destruct (deleteProp c3 _) as [|c4] eqn:H4; [done|].
  intros H5. split.
  - intros k Hk. unfold privateFields in Hk.
    pose proof (hasOwn_deleteProp_eq _ _ _ H1) as E1.
    pose proof (hasOwn_deleteProp_eq _ _ _ H2) as E2.
    pose proof (hasOwn_deleteProp_eq _ _ _ H3) as E3.
    pose proof (hasOwn_deleteProp_eq _ _ _ H4) as E4.
    pose proof (hasOwn_deleteProp_eq _ _ _ H5) as E5.
    repeat (apply elem_of_cons in Hk as [->|Hk]);
      [ | | | | | by apply elem_of_nil in Hk];
      eauto 10 using hasOwn_deleteProp_keeps.
  - intros k Hk. unfold privateFields in Hk.
    rewrite (getProp_deleteProp_ne _ _ _ _ H5) by (intros <-; apply Hk; set_solver).
    rewrite (getProp_deleteProp_ne _ _ _ _ H4) by (intros <-; apply Hk; set_solver).
    rewrite (getProp_deleteProp_ne _ _ _ _ H3) by (intros <-; apply Hk; set_solver).
    rewrite (getProp_deleteProp_ne _ _ _ _ H2) by (intros <-; apply Hk; set_solver).
    by rewrite (getProp_deleteProp_ne _ _ _ _ H1) by (intros <-; apply Hk; set_solver).
Qed.

(** [writeCharacterData] never throws; when it returns [true] the
    artifact is in the public directory. *)
Lemma writeCharacterData_returns inputFile data outputFile crop w r w' :
  writeCharacterData inputFile data outputFile crop w = (r, w') ->
  (r = inr false /\ w' = w)
  \/ (r = inr true
      /\ exists image stored,
           getInputImage inputFile crop w = (inr image, w)
           /\ write image data = inr stored
           /\ w' = putFile (InPublic (outputFile ++ js ".png")) stored w).
Proof.
  unfold writeCharacterData, tryCatch, bind.
  pose proof (readOnly_getInputImage inputFile crop w) as Hro.
  destruct (getInputImage inputFile crop w) as [[e|image] w1]; simpl in Hro; subst w1.
  { intros [= <- <-]. by left. }
  unfold lift. destruct (write image data) as [e|stored] eqn:Hwrite.
  { intros [= <- <-]. by left. }
  unfold writeFileAtomicSync, statSync. cbn [files].
  rewrite lookup_insert_eq. intros [= <- <-]. right. split; [done|].
  by exists image, stored.
Qed.

(** Inverts the first step of a run that returned. *)
Tactic Notation "returned" hyp(H) "as" ident(a) :=
  let w1 := fresh "w" in
  apply bind_returns in H as (a & w1 & Hstep & H); cbv beta in H.

Lemma readOnly_preservedOr preserved derived :
  readOnly derived -> readOnly (preservedOr preserved derived).
Proof.
  intros Hd. unfold preservedOr.
  destruct preserved as [[|c n]|]; auto using readOnly_ret.
Qed.

(** The tail shared by all drivers: write, and report the name. *)
Lemma written_then_named inputFile record pngName w fileName w' :
  (do result <- writeCharacterData inputFile (JSON_stringify record) pngName None;
   ret (if result then pngName else [])) w = (inr fileName, w') ->
  fileName <> [] ->
  exists image stored,
    write image (JSON_stringify record) = inr stored
    /\ fileName = pngName
    /\ w' = putFile (InPublic (pngName ++ js ".png")) stored w.
Proof.
  intros Hrun Hname. returned Hrun as result.
  apply ret_returns in Hrun as [-> ->].
  apply writeCharacterData_returns in Hstep
    as [[[= ->] _] | [[= ->] (image & stored & _ & Hw & ->)]]; [done|].
  by exists image, stored.
Qed.

Lemma accepted_importFromYaml uploadPath h n preserved w fileName w' :
  importFromYaml uploadPath h n preserved w = (inr fileName, w') ->
  fileName <> [] ->
  exists record, acceptedRecord ImportYaml uploadPath h n w w' fileName record.
Proof.
  intros Hrun Hname. unfold importFromYaml in Hrun.
  returned Hrun as fileBytes. apply readFileSync_returns in Hstep as [-> _].
  returned Hrun as u. apply unlinkSync_returns in Hstep as ->.
  returned Hrun as yamlData0. apply lift_returns in Hstep as [_ ->].
  returned Hrun as rawName. apply lift_returns in Hstep as [_ ->].
  returned Hrun as name. apply lift_returns in Hstep as [_ ->].
  returned Hrun as yamlData. apply lift_returns in Hstep as [_ ->].
  returned Hrun as pngName.
  apply readOnly_returns in Hstep; [subst|apply readOnly_preservedOr, readOnly_ret].
  returned Hrun as context. apply lift_returns in Hstep as [_ ->].
  returned Hrun as greeting. apply lift_returns in Hstep as [_ ->].
  returned Hrun as create_date. apply humanizedNow_returns in Hstep as [-> ->].
  returned Hrun as chat_date. apply humanizedNow_returns in Hstep as [-> ->].
  returned Hrun as tags. apply lift_returns in Hstep as [_ ->].
  cbv zeta in Hrun.
  apply written_then_named in Hrun as (image & stored & Hw & -> & ->); [|done].
  eexists. split; [|split; [done|split; [|done]]].
  - exists image, stored. split; [exact Hw|]. simpl. apply lookup_insert_eq.
  - repeat split; reflexivity.
Qed.

Lemma cleanup_returns {A} p (body : M A) w a w' :
  tryCatch body
    (fun error =>
       do stillThere <- existsSync p;
       run (if stillThere then unlinkSync p else ret tt);
       throw error) w = (inr a, w') ->
  body w = (inr a, w').
Proof.
  unfold tryCatch. destruct (body w) as [[e|a'] w1]; [|done].
  unfold bind, existsSync.
  destruct (bool_decide (is_Some (files w1 !! p))).
  - unfold unlinkSync. destruct (files w1 !! p); done.
  - done.
Qed.

Lemma isDefined_false v : isDefined v = false -> v = VUndefined.
Proof. by destruct v. Qed.

Lemma scrubbed_stamped scrubbedCard stamped :
  scrubbed scrubbedCard ->
  (forall k, k ∉ stampKeys ->
     getProp stamped k = getProp scrubbedCard k
     /\ hasOwn stamped k = hasOwn scrubbedCard k) ->
  scrubbed stamped.
Proof.
  intros Hs Hsame k Hk.
  destruct (Hsame k) as [_ ->]; [|by apply Hs].
  unfold privateFields in Hk. unfold stampKeys.
  repeat (apply elem_of_cons in Hk as [->|Hk]);
    [ | | | | | by apply elem_of_nil in Hk];
    intros Hin; repeat (apply elem_of_cons in Hin as [Hin|Hin]; [by vm_compute in Hin|]);
    by apply elem_of_nil in Hin.
Qed.

Lemma spec_not_private : js "spec" ∉ privateFields.
Proof.
  unfold privateFields. intros Hin.
  repeat (apply elem_of_cons in Hin as [Hin|Hin]; [by vm_compute in Hin|]).
  by apply elem_of_nil in Hin.
Qed.

(** How [importFromPng] and [processCharacter] obtain the metadata: from
    the buffer, else from the path; the handler of the second attempt is
    never entered, because [readCharacterData] does not throw. *)
Lemma metadata_attempts (b : bytes) (p : jsstring) (last : M (option jsstring)) w :
  tryCatch
    (do text <- lift (read (ArgBuffer b)); ret (Some text))
    (fun readError =>
       tryCatch (readCharacterData (ArgString p)) (fun fileReadError => last)) w
  = (inr match read (ArgBuffer b) with
         | inr text => Some text
         | inl _ =>
             match read (ArgString p) with
             | inr text => Some text
             | inl _ => None
             end
         end, w).
Proof.
  unfold tryCatch, bind, lift, ret, readCharacterData, tryCatch, bind, lift, ret.
  destruct (read (ArgBuffer b)); [|done].
  by destruct (read (ArgString p)).
Qed.

Lemma spec_not_stamped : js "spec" ∉ stampKeys.
Proof.
  unfold stampKeys. intros Hin.
  repeat (apply elem_of_cons in Hin as [Hin|Hin]; [by vm_compute in Hin|]).
  by apply elem_of_nil in Hin.
Qed.

Lemma accepted_importFromJson uploadPath h n preserved w fileName w' :
  importFromJson uploadPath h n preserved w = (inr fileName, w') ->
  fileName <> [] ->
  exists record, acceptedRecord ImportJson uploadPath h n w w' fileName record.
Proof.
  intros Hrun Hname. unfold importFromJson in Hrun.
  returned Hrun as fileBytes.
  apply readFileSync_returns in Hstep as [-> (upload & Hfile & ->)].
  returned Hrun as u. apply unlinkSync_returns in Hstep as ->.
  returned Hrun as jsonData. apply lift_returns in Hstep as [Hparse ->].
  assert (Hpayload : parsedPayload ImportJson uploadPath w = Some jsonData).
  { unfold parsedPayload, uploadedText. by rewrite Hfile, Hparse. }
  returned Hrun as spec. apply lift_returns in Hstep as [Hspec ->].
  destruct (isDefined spec) eqn:Hdef.
  - returned Hrun as card. apply lift_returns in Hstep as [Hscrub ->].
    apply unsetPrivateFields_returns in Hscrub as [Hscrub Hrest].
    returned Hrun as stamped. apply stamp_returns in Hstep as (-> & Hstamped & Hsame).
    returned Hrun as pngName.
    apply readOnly_returns in Hstep; [subst|].
    2:{ apply readOnly_preservedOr. read_only. }
    cbv zeta in Hrun.
    apply written_then_named in Hrun as (image & stored & Hw & -> & ->); [|done].
    eexists. split; [|split; [done|split; [exact Hstamped|]]].
    + exists image, stored. split; [exact Hw|]. simpl. apply lookup_insert_eq.
    + intros _. split; [|intros _ _ _; by eapply scrubbed_stamped].
      exists jsonData. split; [done|].
      destruct (Hsame (js "spec") spec_not_stamped) as [-> _].
      apply Hrest, spec_not_private.
  - apply isDefined_false in Hdef as ->.
    returned Hrun as name. apply lift_returns in Hstep as [Hn ->].
    destruct (isDefined name); [|by apply ret_returns in Hrun as [-> _]].
    returned Hrun as stamped. apply stamp_returns in Hstep as (-> & Hstamped & Hsame).
    returned Hrun as pngName.
    apply readOnly_returns in Hstep; [subst|].
    2:{ apply readOnly_preservedOr. read_only. }
    cbv zeta in Hrun.
    apply written_then_named in Hrun as (image & stored & Hw & -> & ->); [|done].
    eexists. split; [|split; [done|split; [exact Hstamped|]]].
    + exists image, stored. split; [exact Hw|]. simpl. apply lookup_insert_eq.
    + destruct (Hsame (js "spec") spec_not_stamped) as [Hg _].
      intros _. split; [by exists jsonData|].
      intros spec' Hspec' Hdef'.
      rewrite Hg, Hspec in Hspec'. by injection Hspec' as <-.
Qed.

Lemma accepted_importFromPng uploadPath h n preserved w fileName w' :
  importFromPng uploadPath h n preserved w = (inr fileName, w') ->
  fileName <> [] ->
  exists record, acceptedRecord ImportPng uploadPath h n w w' fileName record.
Proof.
  intros Hrun Hname. unfold importFromPng in Hrun.
  apply cleanup_returns in Hrun.
  returned Hrun as fileBuffer.
  apply readFileSync_returns in Hstep as [-> (upload & Hfile & ->)].
  cbv zeta in Hrun.
  destruct (negb _); [done|].
  returned Hrun as found.
  rewrite metadata_attempts in Hstep. injection Hstep as Htext <-.
  destruct found as [imgData|]; [|done].
  returned Hrun as jsonData0.
  assert (JSON_parse imgData = inr jsonData0 /\ w0 = w) as [Hparse ->].
  { revert Hstep. unfold tryCatch, lift, throw.
    destruct (JSON_parse imgData); [done | by intros [= <- <-]]. }
  assert (Hpayload : parsedPayload ImportPng uploadPath w = Some jsonData0).
  { unfold parsedPayload, uploadedText. by rewrite Hfile, Htext, Hparse. }
  clear Hstep.
  returned Hrun as name0. apply lift_returns in Hstep as [_ ->].
  returned Hrun as dataName0. apply lift_returns in Hstep as [_ ->].
  destruct (_ && _); [done|].
  returned Hrun as sanitized. apply lift_returns in Hstep as [_ ->].
  returned Hrun as jsonData. apply lift_returns in Hstep as [Hset ->].
  returned Hrun as pngName.
  apply readOnly_returns in Hstep; [subst|apply readOnly_preservedOr, readOnly_ret].
  returned Hrun as spec. apply lift_returns in Hstep as [Hspec ->].
  assert (Hkeep : getProp jsonData (js "spec") = getProp jsonData0 (js "spec")).
  { apply (getProp_setProp_ne _ _ _ _ _ Hset). literals. }
  destruct (isDefined spec) eqn:Hdef.
  - returned Hrun as card. apply lift_returns in Hstep as [Hscrub ->].
    apply unsetPrivateFields_returns in Hscrub as [Hscrub Hrest].
    returned Hrun as stamped. apply stamp_returns in Hstep as (-> & Hstamped & Hsame).
    cbv zeta in Hrun.
    returned Hrun as result. rename Hstep into Hwrite.
    returned Hrun as u.
    apply unlinkSync_returns in Hstep as ->.
    apply ret_returns in Hrun as [-> ->].
    apply writeCharacterData_returns in Hwrite
      as [[[= ->] _] | [[= ->] (image & stored & _ & Hw & ->)]]; [done|].
    eexists. split; [|split; [done|split; [exact Hstamped|]]].
    + exists image, stored. split; [exact Hw|]. simpl.
      rewrite lookup_delete_ne by done. apply lookup_insert_eq.
    + intros _. split; [|intros _ _ _; by eapply scrubbed_stamped].
      exists jsonData0. split; [done|].
      destruct (Hsame (js "spec") spec_not_stamped) as [-> _].
      etransitivity; [apply Hrest, spec_not_private | exact Hkeep].
  - apply isDefined_false in Hdef as ->.
    returned Hrun as name. apply lift_returns in Hstep as [Hn ->].
    destruct (isDefined name); [|done].
    returned Hrun as stamped. apply stamp_returns in Hstep as (-> & Hstamped & Hsame).
    cbv zeta in Hrun.
    returned Hrun as result. rename Hstep into Hwrite.
    returned Hrun as u.
    apply unlinkSync_returns in Hstep as ->.
    apply ret_returns in Hrun as [-> ->].
    apply writeCharacterData_returns in Hwrite
      as [[[= ->] _] | [[= ->] (image & stored & _ & Hw & ->)]]; [done|].
    eexists. split; [|split; [done|split; [exact Hstamped|]]].
    + exists image, stored. split; [exact Hw|]. simpl.
      rewrite lookup_delete_ne by done. apply lookup_insert_eq.
    + destruct (Hsame (js "spec") spec_not_stamped) as [Hg _].
      intros _. split.
      * exists jsonData0. split; [done|]. by rewrite Hg.
      * intros spec' Hspec' Hdef'.
        rewrite Hg, Hspec in Hspec'. by injection Hspec' as <-.
Qed.

Lemma accepted_import f uploadPath h n preserved w fileName w' :
  callImport f uploadPath h n preserved w = (inr fileName, w') ->
  fileName <> [] ->
  exists record, acceptedRecord f uploadPath h n w w' fileName record.
Proof.
  destruct f; simpl;
    eauto using accepted_importFromYaml, accepted_importFromJson,
      accepted_importFromPng.
Qed.

Lemma setProp_objectLike v k x v' : setProp v k x = inr v' -> objectLike v'.
Proof. destruct v; simpl; intros [= <-]; exact I. Qed.

Lemma getProp_objectLike v k : objectLike v -> exists x, getProp v k = inr x.
Proof. destruct v; simpl; intros []; eauto. Qed.

Lemma replaceFirst_suffix (pattern base : jsstring) :
  pattern <> [] ->
  (forall i, (i < length base)%nat -> ~ occursAt pattern (base ++ pattern) i) ->
  replaceFirst pattern [] (base ++ pattern) = base.
Proof.
  intros Hp. induction base as [|c base IH]; intros Hfree.
  - destruct pattern as [|c p]; [done|]. simpl.
    rewrite bool_decide_true; [by rewrite drop_all|].
    f_equal. by rewrite take_ge.
  - cbn [app replaceFirst].
    rewrite bool_decide_false.
    + f_equal. apply IH. intros i Hi. apply (Hfree (S i)). simpl. lia.
    + apply (Hfree 0%nat). simpl. lia.
Qed.

Lemma processCharacter_metadata item w :
  tryCatch
    (do fileBuffer <- readFileSync (InPublic item);
     do text <- lift (read (ArgBuffer fileBuffer));
     ret (Some text))
    (fun bufferError =>
       tryCatch
         (readCharacterData (ArgString (publicPathString item)))
         (fun fileError => throw (Error (js "Failed to read character file")))) w
  = (inr (storedText item w), w).
Proof.
  unfold storedText, tryCatch, bind, readFileSync, lift, ret, readCharacterData,
    tryCatch, bind, lift, ret.
  destruct (files w !! InPublic item) as [artifact|].
  - destruct (read (ArgBuffer (content artifact))); [|done].
    by destruct (read (ArgString (publicPathString item))).
  - by destruct (read (ArgString (publicPathString item))).
Qed.

Lemma processCharacter_total item w :
  exists character,
    processCharacter item w = (inr character, w) /\ objectLike character.
Proof.
  pose proof (readOnly_processCharacter item w) as Hro.
  unfold processCharacter, tryCatch in Hro |- *.
  match goal with
  | |- context [match ?body w with _ => _ end] =>
      destruct (body w) as [[e|character] w1] eqn:Hbody
  end; simpl in Hro; subst w1.
  - eexists. split; [reflexivity | exact I].
  - exists character. split; [reflexivity|].
    cbv zeta in Hbody.
    returned Hbody as imgData. clear Hstep.
    destruct imgData as [imgData|]; [|done].
    repeat (apply bind_returns in Hbody as (? & ? & _ & Hbody); cbv beta in Hbody).
    apply lift_returns in Hbody as [Hset _].
    by eapply setProp_objectLike.
Qed.

Lemma processCharacter_entry item w :
  processCharacter item w = (inr (entryOf w item), w)
  /\ objectLike (entryOf w item).
Proof.
  destruct (processCharacter_total item w) as (c & Hc & Hobj).
  unfold entryOf. by rewrite Hc.
Qed.

Lemma processCharacter_stub item w :
  storedRecord item w = None -> entryOf w item = stub item.
Proof.
  intros Hnone. unfold entryOf, processCharacter.
  unfold tryCatch at 1. cbv zeta. unfold bind at 1.
  rewrite processCharacter_metadata.
  unfold storedRecord in Hnone.
  destruct (storedText item w) as [text|]; [|reflexivity].
  unfold bind at 1, lift at 1.
  destruct (JSON_parse text); [reflexivity | discriminate].
Qed.

Lemma setProp_total v k x :
  objectLike v -> exists v', setProp v k x = inr v' /\ objectLike v'.
Proof. destruct v; simpl; intros []; eexists; (split; [reflexivity | exact I]). Qed.

(** An artifact that is there and whose metadata parses to an object is
    listed with the properties of its record, the file name as [avatar],
    and [Unknown] and [unknown] where the record names no uploader. *)
Lemma processCharacter_decoded item w artifact record :
  files w !! InPublic item = Some artifact ->
  storedRecord item w = Some record ->
  objectLike record ->
  (forall k, k ∉ assignedKeys ->
     getProp (entryOf w item) k = getProp record k)
  /\ getProp (entryOf w item) (js "avatar") = inr (VStr item)
  /\ (forall u, getProp record (js "uploader") = inr u ->
        getProp (entryOf w item) (js "uploader")
        = inr (orElse u (VStr (js "Unknown"))))
  /\ (forall u, getProp record (js "uploader_handle") = inr u ->
        getProp (entryOf w item) (js "uploader_handle")
        = inr (orElse u (VStr (js "unknown")))).
Proof.
  intros Hfile Hrecord Hobj.
  unfold storedRecord in Hrecord.
  destruct (storedText item w) as [text|] eqn:Htext; [|discriminate].
  destruct (JSON_parse text) as [|record'] eqn:Hparse; [discriminate|].
  injection Hrecord as ->.
  remember (entryOf w item) as entry eqn:Hentry.
  unfold entryOf, processCharacter in Hentry.
  unfold tryCatch at 1 in Hentry. cbv zeta in Hentry. unfold bind at 1 in Hentry.
  rewrite processCharacter_metadata, Htext in Hentry.
  unfold bind at 1, lift at 1 in Hentry. rewrite Hparse in Hentry.
  destruct (setProp_total record (js "avatar") (VStr item) Hobj) as (c1 & H1 & O1).
  unfold bind at 1, lift at 1 in Hentry. rewrite H1 in Hentry.
  destruct (setProp_total c1 (js "json_data") (VStr text) O1) as (c2 & H2 & O2).
  unfold bind at 1, lift at 1 in Hentry. rewrite H2 in Hentry.
  unfold bind at 1, statSync in Hentry. rewrite Hfile in Hentry.
  match type of Hentry with
  | context [setProp c2 (js "date_added") ?x] =>
      destruct (setProp_total c2 (js "date_added") x O2) as (c3 & H3 & O3)
  end.
  unfold bind at 1, lift at 1 in Hentry. rewrite H3 in Hentry.
  destruct (getProp_objectLike c3 (js "create_date") O3) as (d & Hd).
  unfold bind at 1, lift at 1 in Hentry. rewrite Hd in Hentry.
  match type of Hentry with
  | context [setProp c3 (js "create_date") ?x] =>
      destruct (setProp_total c3 (js "create_date") x O3) as (c4 & H4 & O4)
  end.
  unfold bind at 1, lift at 1 in Hentry. rewrite H4 in Hentry.
  destruct (getProp_objectLike c4 (js "uploader") O4) as (u & Hu).
  unfold bind at 1, lift at 1 in Hentry. rewrite Hu in Hentry.
  match type of Hentry with
  | context [setProp c4 (js "uploader") ?x] =>
      destruct (setProp_total c4 (js "uploader") x O4) as (c5 & H5 & O5)
  end.
  unfold bind at 1, lift at 1 in Hentry. rewrite H5 in Hentry.
  destruct (getProp_objectLike c5 (js "uploader_handle") O5) as (uh & Huh).
  unfold bind at 1, lift at 1 in Hentry. rewrite Huh in Hentry.
  match type of Hentry with
  | context [setProp c5 (js "uploader_handle") ?x] =>
      destruct (setProp_total c5 (js "uploader_handle") x O5) as (c6 & H6 & O6)
  end.
  unfold bind at 1, lift at 1 in Hentry. rewrite H6 in Hentry.
  destruct (getProp_objectLike c6 (js "description") O6) as (ds & Hds).
  unfold bind at 1, lift at 1 in Hentry. rewrite Hds in Hentry.
  match type of Hentry with
  | context [setProp c6 (js "description") ?x] =>
      destruct (setProp_total c6 (js "description") x O6) as (c7 & H7 & O7)
  end.
  unfold bind at 1, lift at 1 in Hentry. rewrite H7 in Hentry.
  destruct (getProp_objectLike c7 (js "tags") O7) as (tg & Htg).
  unfold bind at 1, lift at 1 in Hentry. rewrite Htg in Hentry.
  match type of Hentry with
  | context [setProp c7 (js "tags") ?x] =>
      destruct (setProp_total c7 (js "tags") x O7) as (c8 & H8 & O8)
  end.
  unfold lift in Hentry. rewrite H8 in Hentry. cbn [fst] in Hentry. subst entry.
  assert (Hu4 : getProp c4 (js "uploader") = getProp record (js "uploader")).
  { rewrite (getProp_setProp_ne _ _ _ _ _ H4) by literals.
    rewrite (getProp_setProp_ne _ _ _ _ _ H3) by literals.
    rewrite (getProp_setProp_ne _ _ _ _ _ H2) by literals.
    by rewrite (getProp_setProp_ne _ _ _ _ _ H1) by literals. }
  assert (Hh5 : getProp c5 (js "uploader_handle")
                = getProp record (js "uploader_handle")).
  { rewrite (getProp_setProp_ne _ _ _ _ _ H5) by literals.
    rewrite (getProp_setProp_ne _ _ _ _ _ H4) by literals.
    rewrite (getProp_setProp_ne _ _ _ _ _ H3) by literals.
    rewrite (getProp_setProp_ne _ _ _ _ _ H2) by literals.
    by rewrite (getProp_setProp_ne _ _ _ _ _ H1) by literals. }
  split; [|split; [|split]].
  - intros k Hk. unfold assignedKeys in Hk.
    rewrite (getProp_setProp_ne _ _ _ _ _ H8) by (intros <-; apply Hk; set_solver).
    rewrite (getProp_setProp_ne _ _ _ _ _ H7) by (intros <-; apply Hk; set_solver).
    rewrite (getProp_setProp_ne _ _ _ _ _ H6) by (intros <-; apply Hk; set_solver).
    rewrite (getProp_setProp_ne _ _ _ _ _ H5) by (intros <-; apply Hk; set_solver).
    rewrite (getProp_setProp_ne _ _ _ _ _ H4) by (intros <-; apply Hk; set_solver).
    rewrite (getProp_setProp_ne _ _ _ _ _ H3) by (intros <-; apply Hk; set_solver).
    rewrite (getProp_setProp_ne _ _ _ _ _ H2) by (intros <-; apply Hk; set_solver).
    by rewrite (getProp_setProp_ne _ _ _ _ _ H1) by (intros <-; apply Hk; set_solver).
  - rewrite (getProp_setProp_ne _ _ _ _ _ H8) by literals.
    rewrite (getProp_setProp_ne _ _ _ _ _ H7) by literals.
    rewrite (getProp_setProp_ne _ _ _ _ _ H6) by literals.
    rewrite (getProp_setProp_ne _ _ _ _ _ H5) by literals.
    rewrite (getProp_setProp_ne _ _ _ _ _ H4) by literals.
    rewrite (getProp_setProp_ne _ _ _ _ _ H3) by literals.
    rewrite (getProp_setProp_ne _ _ _ _ _ H2) by literals.
    by apply (getProp_setProp_eq _ _ _ _ H1).
  - intros u' Hu'. rewrite Hu4, Hu' in Hu. injection Hu as <-.
    rewrite (getProp_setProp_ne _ _ _ _ _ H8) by literals.
    rewrite (getProp_setProp_ne _ _ _ _ _ H7) by literals.
    rewrite (getProp_setProp_ne _ _ _ _ _ H6) by literals.
    by apply (getProp_setProp_eq _ _ _ _ H5).
  - intros u' Hu'. rewrite Hh5, Hu' in Huh. injection Huh as <-.
    rewrite (getProp_setProp_ne _ _ _ _ _ H8) by literals.
    rewrite (getProp_setProp_ne _ _ _ _ _ H7) by literals.
    by apply (getProp_setProp_eq _ _ _ _ H6).
Qed.

Lemma processAll_entries items w :
  processAll items w = (inr (map (entryOf w) items), w).
Proof.
  induction items as [|item items IH]; [reflexivity|].
  cbn [processAll map]. unfold bind at 1.
  destruct (processCharacter_entry item w) as [-> _].
  unfold bind at 1. by rewrite IH.
Qed.

Lemma keepNamed_entries w items :
  keepNamed (map (entryOf w) items)
  = inr (List.filter listed (map (entryOf w) items)).
Proof.
  induction items as [|item items IH]; [reflexivity|].
  cbn [map keepNamed List.filter]. rewrite IH. unfold listed.
  destruct (processCharacter_entry item w) as [_ Hobj].
  destruct (getProp_objectLike _ (js "name") Hobj) as [n ->].
  by destruct (truthy n).
Qed.

(** C9, amended.  The listing always succeeds and is made of one entry
    per [.png] file, each computed on its own, without the entries whose
    name is falsy.  A file whose metadata cannot be read or parsed gets
    the stub, whose uploader is [Unknown]; the stub is listed unless its
    name is empty; and its name is the file name without [.png] whenever
    [.png] occurs in the file name at its end only.  A file whose metadata
    parses to an object keeps the properties of its record, whatever
    happens to the other files. *)
Theorem listAll_isolates_failures w :
  listAll w
  = (inr (Response 200
            (VArr (List.filter listed (map (entryOf w) (pngFiles w))) [])), w)
  /\ (forall item,
        storedRecord item w = None ->
        entryOf w item = stub item
        /\ getProp (stub item) (js "uploader") = inr (VStr (js "Unknown"))
        /\ listed (stub item)
           = negb (bool_decide (replaceFirst (js ".png") [] item = []))
        /\ forall base,
             item = base ++ js ".png" ->
             (forall i, (i < length base)%nat -> ~ occursAt (js ".png") item i) ->
             getProp (stub item) (js "name") = inr (VStr base))
  /\ (forall item artifact record,
        files w !! InPublic item = Some artifact ->
        storedRecord item w = Some record ->
        objectLike record ->
        forall k, k ∉ assignedKeys ->
                  getProp (entryOf w item) k = getProp record k).
Proof.
  split; [|split].
  - unfold listAll, tryCatch, bind at 1, readdirSync_public. cbv zeta.
    fold (pngFiles w). unfold bind at 1. rewrite processAll_entries.
    unfold bind, lift. by rewrite keepNamed_entries.
  - intros item Hnone. split; [by apply processCharacter_stub|].
    split; [reflexivity|]. split; [reflexivity|].
    intros base -> Hfree.
    change (getProp (stub (base ++ js ".png")) (js "name"))
      with (@inr exn _ (VStr (replaceFirst (js ".png") [] (base ++ js ".png")))).
    by rewrite replaceFirst_suffix.
  - intros item artifact record Hfile Hrecord Hobj.
    by destruct (processCharacter_decoded item w artifact record Hfile Hrecord Hobj).
Qed.

(** What the route does with a request that names an existing artifact. *)
Lemma deleteCharacter_decision c n handle admin w artifact :
  files w !! InPublic ((c :: n) ++ js ".png") = Some artifact ->
  deleteCharacter (DeleteRequest (Some (c :: n)) handle admin) w
  = if negb admin
       && negb (strictEqualsString (effectiveHandle w ((c :: n) ++ js ".png")) handle)
    then (inr permissionDenied, w)
    else (inr deleted, removeFile (InPublic ((c :: n) ++ js ".png")) w).
Proof.
  intros Hfile.
  unfold deleteCharacter, tryCatch at 1.
  cbn [character_name requester_handle requester_admin]. cbv zeta.
  unfold bind at 1, existsSync. rewrite Hfile.
  rewrite bool_decide_true by eauto. cbn [negb].
  unfold bind at 1, tryCatch at 1, bind at 1.
  destruct (processCharacter_entry ((c :: n) ++ js ".png") w) as [-> Hobj].
  unfold ret at 1. unfold bind at 1, lift at 1.
  unfold effectiveHandle.
  destruct (getProp_objectLike _ (js "uploader_handle") Hobj) as [uh ->].
  destruct (negb admin && negb (strictEqualsString uh handle)); [reflexivity|].
  unfold bind, unlinkSync. by rewrite Hfile.
Qed.

(** A request for a name that is not there is answered 404 before the
    permission check. *)
Lemma deleteCharacter_not_found c n handle admin w :
  files w !! InPublic ((c :: n) ++ js ".png") = None ->
  deleteCharacter (DeleteRequest (Some (c :: n)) handle admin) w
  = (inr (Response 404 (errorBody (js "Character not found"))), w).
Proof.
  intros Hfile. unfold deleteCharacter, tryCatch at 1.
  cbn [character_name]. cbv zeta.
  unfold bind at 1, existsSync. rewrite Hfile.
  rewrite bool_decide_false by (by intros [? ?]). reflexivity.
Qed.

(** A PNG whose metadata cannot be read fails with the one generic
    error, whatever the reason. *)
Lemma importFromPng_decode_failure uploadPath h n preserved w upload e1 e2 :
  files w !! Outside uploadPath = Some upload ->
  take 8 (content upload) = Codec.signature ->
  read (ArgBuffer (content upload)) = inl e1 ->
  read (ArgString uploadPath) = inl e2 ->
  importFromPng uploadPath h n preserved w
  = (inl (Error (js "Failed to read character data from PNG")),
     removeFile (Outside uploadPath) w).
Proof.
  intros Hfile Hsig Hbuf Hpath.
  unfold importFromPng, tryCatch at 1. cbv zeta.
  unfold bind at 1, readFileSync. rewrite Hfile.
  change [137; 80; 78; 71; 13; 10; 26; 10] with Codec.signature.
  rewrite bool_decide_true by done. cbn [negb].
  unfold bind at 1. rewrite metadata_attempts, Hbuf, Hpath.
  unfold throw at 1. unfold bind at 1, existsSync.
  rewrite bool_decide_true by eauto.
  unfold bind, unlinkSync. by rewrite Hfile.
Qed.

Lemma importFromPng_invalid_header uploadPath h n preserved w upload :
  files w !! Outside uploadPath = Some upload ->
  take 8 (content upload) <> Codec.signature ->
  importFromPng uploadPath h n preserved w
  = (inl (Error (js "Invalid PNG file header")),
     removeFile (Outside uploadPath) w).
Proof.
  intros Hfile Hsig.
  unfold importFromPng, tryCatch at 1. cbv zeta.
  unfold bind at 1, readFileSync. rewrite Hfile.
  change [137; 80; 78; 71; 13; 10; 26; 10] with Codec.signature.
  rewrite bool_decide_false by done. cbn [negb].
  unfold throw at 1. unfold bind at 1, existsSync.
  rewrite bool_decide_true by eauto.
  unfold bind, unlinkSync. by rewrite Hfile.
Qed.

(** C3.  The record that an accepted import (YAML, JSON or PNG driver)
    has persisted carries the display name and the handle that were passed
    to the import as [uploader] and [uploader_handle], whatever the
    uploaded payload said, and the date of the server's clock at the time
    of the import as [create_date]. *)
Theorem accepted_import_stamps_uploader f uploadPath uploaderHandle uploaderName
    preserved w fileName w' :
  callImport f uploadPath uploaderHandle uploaderName preserved w
  = (inr fileName, w') ->
  fileName <> [] ->
  exists record,
    persisted w' fileName record
    /\ getProp record (js "uploader") = inr (VStr uploaderName)
    /\ getProp record (js "uploader_handle") = inr (VStr uploaderHandle)
    /\ getProp record (js "create_date")
       = inr (VStr (humanizedISO8601DateTime (clock w))).
Proof.
  intros Hrun Hname.
  destruct (accepted_import _ _ _ _ _ _ _ _ Hrun Hname)
    as (record & Hstored & _ & (Hu & Hh & Hd) & _).
  by exists record.
Qed.

(** C4.  When the payload of a JSON or PNG import carries a [spec] field,
    the record that an accepted import has persisted has none of the
    private-note fields. *)
Theorem accepted_import_scrubs_private_notes f uploadPath uploaderHandle
    uploaderName preserved w payload spec fileName w' :
  f = ImportJson \/ f = ImportPng ->
  parsedPayload f uploadPath w = Some payload ->
  getProp payload (js "spec") = inr spec ->
  isDefined spec = true ->
  callImport f uploadPath uploaderHandle uploaderName preserved w
  = (inr fileName, w') ->
  fileName <> [] ->
  exists record,
    persisted w' fileName record
    /\ forall k, k ∈ privateFields -> hasOwn record k = false.
Proof.
  intros Hf Hpayload Hspec Hdef Hrun Hname.
  destruct (accepted_import _ _ _ _ _ _ _ _ Hrun Hname)
    as (record & Hstored & _ & _ & Hscrub).
  destruct Hscrub as [(payload' & Hpayload' & Hsame) Hscrub].
  { destruct Hf as [-> | ->]; discriminate. }
  rewrite Hpayload in Hpayload'. injection Hpayload' as <-.
  exists record. split; [exact Hstored|].
  apply (Hscrub spec); [by rewrite Hsame | exact Hdef].
Qed.

End EndpointFacts.

(** ** The code on the inputs of Part V *)
Section Evaluation.
#[local] Existing Instance Demo.runtime.

(** C10.  In the demo library the artifact [Ghost.png] records no
  uploader; a user whose handle is [unknown], who is no admin, deletes
  it: the answer is 200 and the file is gone. *)
Lemma delete_by_user_named_unknown :
storedRecord (js "Ghost.png") Demo.library = Some Demo.anonymousCard
/\ hasOwn Demo.anonymousCard (js "uploader_handle") = false
/\ fst (deleteCharacter (DeleteRequest (Some (js "Ghost")) (js "unknown") false)
          Demo.library)
   = inr deleted
/\ files (snd (deleteCharacter
                 (DeleteRequest (Some (js "Ghost")) (js "unknown") false)
                 Demo.library))
     !! InPublic (js "Ghost.png") = None.
Proof. vm_compute. repeat split. Qed.

(** C1.  A PNG without any text segment and a PNG whose only text segment
  is foreign are rejected with the same generic error; the structure
  check that would tell them apart ([analysePng]) is never reached. *)
Lemma importFromPng_conflates_decode_failures :
fst (importFromPng Demo.tmp (js "alice") (js "Alice") None
       (Demo.worldWith Demo.plainPng))
= inl (Error (js "Failed to read character data from PNG"))
/\ fst (importFromPng Demo.tmp (js "alice") (js "Alice") None
          (Demo.worldWith Demo.foreignTextPng))
   = inl (Error (js "Failed to read character data from PNG"))
/\ fst (analysePng Demo.plainPng (Demo.worldWith Demo.plainPng))
   = inl (Error (js "PNG analysis failed: PNG file does not contain any text chunks (not a character card)"))
/\ fst (analysePng Demo.foreignTextPng (Demo.worldWith Demo.foreignTextPng))
   = inl (Error (js "PNG analysis failed: PNG file does not contain character card data (chara or ccv3 chunks)"))
/\ fst (importFromPng Demo.tmp (js "alice") (js "Alice") None
          (Demo.worldWith Demo.notPng))
   = inl (Error (js "Invalid PNG file header")).
Proof. vm_compute. repeat split. Qed.

(** C3 at an input: the JSON file names Mallory as uploader; the stored
    record names the caller. *)
Lemma accepted_import_stamps_uploader_witness :
  callImport ImportJson Demo.tmp Demo.alice Demo.Alice None
    (Demo.worldWith (Demo.stringify Demo.v1Card))
  = (inr (js "Aria"), snd v1JsonRun)
  /\ js "Aria" <> []
  /\ exists record,
       persisted (snd v1JsonRun) (js "Aria") record
       /\ getProp record (js "uploader") = inr (VStr Demo.Alice)
       /\ getProp record (js "uploader_handle") = inr (VStr Demo.alice)
       /\ getProp record (js "create_date")
          = inr (VStr (humanizedISO8601DateTime 1000)).
Proof.
  assert (Hrun : callImport ImportJson Demo.tmp Demo.alice Demo.Alice None
                   (Demo.worldWith (Demo.stringify Demo.v1Card))
                 = (inr (js "Aria"), snd v1JsonRun))
    by (vm_compute; reflexivity).
  assert (Hname : js "Aria" <> []) by discriminate.
  split; [exact Hrun|]. split; [exact Hname|].
  exact (accepted_import_stamps_uploader _ _ _ _ _ _ _ _ Hrun Hname).
Defined.

(** C4 at an input: the V2 card carries [user_notes] and
    [user_notes_private]; the stored record has no private-note field. *)
Lemma accepted_import_scrubs_private_notes_witness :
  (ImportPng = ImportJson \/ ImportPng = ImportPng)
  /\ parsedPayload ImportPng Demo.tmp (Demo.worldWith (Demo.cardPng Demo.v2Card))
     = Some Demo.v2Card
  /\ getProp Demo.v2Card (js "spec") = inr (VStr (js "chara_card_v2"))
  /\ hasOwn Demo.v2Card (js "user_notes") = true
  /\ callImport ImportPng Demo.tmp Demo.alice Demo.Alice None
       (Demo.worldWith (Demo.cardPng Demo.v2Card))
     = (inr (js "Bran"), snd v2PngRun)
  /\ exists record,
       persisted (snd v2PngRun) (js "Bran") record
       /\ forall k, k ∈ privateFields -> hasOwn record k = false.
Proof.
  assert (Hpayload : parsedPayload ImportPng Demo.tmp
                       (Demo.worldWith (Demo.cardPng Demo.v2Card))
                     = Some Demo.v2Card) by (vm_compute; reflexivity).
  assert (Hspec : getProp Demo.v2Card (js "spec") = inr (VStr (js "chara_card_v2")))
    by (vm_compute; reflexivity).
  assert (Hrun : callImport ImportPng Demo.tmp Demo.alice Demo.Alice None
                   (Demo.worldWith (Demo.cardPng Demo.v2Card))
                 = (inr (js "Bran"), snd v2PngRun))
    by (vm_compute; reflexivity).
  assert (Hname : js "Bran" <> []) by discriminate.
  split; [by right|]. split; [exact Hpayload|]. split; [exact Hspec|].
  split; [vm_compute; reflexivity|]. split; [exact Hrun|].
  exact (accepted_import_scrubs_private_notes ImportPng _ _ _ _ _ _ _ _ _
           (or_intror eq_refl) Hpayload Hspec eq_refl Hrun Hname).
Defined.






(** The upload of a registered format at an input: a PNG upload that is
    accepted. *)
Lemma upload_deletes_temp_file_once_example :
  fst (upload Demo.pngUpload (Demo.worldWith (Demo.cardPng Demo.v2Card)))
  = inr (Response 200 (VObj [(js "file_name", VStr (js "Bran"))]))
  /\ files (snd (upload Demo.pngUpload (Demo.worldWith (Demo.cardPng Demo.v2Card))))
       !! Outside Demo.tmp = None
  /\ unlinkLog (snd (upload Demo.pngUpload
                       (Demo.worldWith (Demo.cardPng Demo.v2Card))))
     = [(Outside Demo.tmp, true)].
Proof.
  assert (Hformat : formatKey (file_type Demo.pngUpload) ∉ returningMembers).
  { intros Hin. unfold returningMembers in Hin.
    repeat (apply elem_of_cons in Hin as [Hin|Hin]; [by vm_compute in Hin|]).
    by apply elem_of_nil in Hin. }
  assert (Hfile : is_Some (files (Demo.worldWith (Demo.cardPng Demo.v2Card))
                             !! Outside Demo.tmp))
    by (eexists; vm_compute; reflexivity).
  destruct (upload_deletes_temp_file_once Demo.pngUpload
              (Demo.worldWith (Demo.cardPng Demo.v2Card)) Hformat Hfile)
    as (_ & Hgone & Hlog & _).
  split; [vm_compute; reflexivity|]. split; [exact Hgone | exact Hlog].
Qed.

(** C8 at an input: the PNG upload sent with the format [toString] is
    answered with 200 and the temp file stays. *)
Lemma upload_keeps_temp_file_for_inherited_format_witness :
  (formatKey (file_type Demo.toStringUpload) ∈ returningMembers)
  /\ upload Demo.toStringUpload (Demo.worldWith (Demo.cardPng Demo.v2Card))
     = (inr (Response 200 (VObj [(js "file_name", VStr (js "[object Undefined]"))])),
        Demo.worldWith (Demo.cardPng Demo.v2Card))
  /\ files (Demo.worldWith (Demo.cardPng Demo.v2Card)) !! Outside Demo.tmp
     = Some (File (Demo.cardPng Demo.v2Card) 900)
  /\ unlinkLog (Demo.worldWith (Demo.cardPng Demo.v2Card)) = [].
Proof.
  assert (Hformat : formatKey (file_type Demo.toStringUpload) ∈ returningMembers).
  { unfold returningMembers. apply list_elem_of_In. vm_compute. auto. }
  split; [exact Hformat|].
  split; [|split; [vm_compute; reflexivity | reflexivity]].
  exact (upload_keeps_temp_file_for_inherited_format Demo.toStringUpload
           (Demo.worldWith (Demo.cardPng Demo.v2Card)) Hformat).
Defined.

(** C9 as stated fails: the only artifact of this directory cannot be
    decoded, and the listing, which succeeds, has no entry for it. *)
Lemma listAll_omits_unnamed_stub :
  storedRecord (js ".png") Demo.unnamedLibrary = None
  /\ pngFiles Demo.unnamedLibrary = [js ".png"]
  /\ fst (listAll Demo.unnamedLibrary) = inr (Response 200 (VArr [] [])).
Proof. vm_compute. repeat split. Qed.

(** The stub's name is the file name without the first [.png] in it. *)
Lemma stub_name_first_occurrence :
  getProp (stub (js "a.pngb.png")) (js "name") = inr (VStr (js "ab.png")).
Proof. vm_compute. reflexivity. Qed.

(** C9 at an input: [Broken.png] of the demo library. *)
Lemma listAll_isolates_failures_witness :
  storedRecord (js "Broken.png") Demo.library = None
  /\ js "Broken.png" = js "Broken" ++ js ".png"
  /\ entryOf Demo.library (js "Broken.png") = stub (js "Broken.png")
  /\ getProp (stub (js "Broken.png")) (js "name") = inr (VStr (js "Broken"))
  /\ length (List.filter listed (map (entryOf Demo.library) (pngFiles Demo.library)))
     = 3%nat.
Proof.
  assert (Hnone : storedRecord (js "Broken.png") Demo.library = None)
    by (vm_compute; reflexivity).
  assert (Hfree : forall i, (i < length (js "Broken"))%nat ->
                            ~ occursAt (js ".png") (js "Broken.png") i).
  { intros i Hi. do 6 (destruct i as [|i]; [by vm_compute|]).
    vm_compute in Hi. lia. }
  destruct (listAll_isolates_failures Demo.library) as (_ & Hstub & _).
  destruct (Hstub (js "Broken.png") Hnone) as (Hentry & _ & _ & Hbase).
  split; [exact Hnone|]. split; [reflexivity|]. split; [exact Hentry|].
  split; [exact (Hbase (js "Broken") eq_refl Hfree)|].
  vm_compute. reflexivity.
Defined.

End Evaluation.

(* ===================================================================== *)
(** * Part XI. Properties of the other modules and routes                 *)
(* ===================================================================== *)

(** ** Computations over any state *)
Section EffFacts.
Import SystemMonitor.
Local Open Scope eff_scope.
Context {S : Type}.

Lemma andThen_pure {A B} (a : A) (k : A -> Eff S B) s :
  andThen (pure a) k s = k a s.
Proof. reflexivity. Qed.

Lemma andThen_gets {A B} (f : S -> A) (k : A -> Eff S B) s :
  andThen (gets f) k s = k (f s) s.
Proof. reflexivity. Qed.

Lemma andThen_modify {B} (f : S -> S) (k : unit -> Eff S B) s :
  andThen (modify f) k s = k tt (f s).
Proof. reflexivity. Qed.

Lemma andThen_raise {A B} e (k : A -> Eff S B) s :
  andThen (raise e) k s = (inl e, s).
Proof. reflexivity. Qed.

Lemma andThen_fromResult {A B} (r : exn + A) (k : A -> Eff S B) s :
  andThen (fromResult r) k s
  = match r with inr a => k a s | inl e => (inl e, s) end.
Proof. unfold andThen, fromResult. by destruct r. Qed.

Lemma andThen_assoc {A B C} (m : Eff S A) (k : A -> Eff S B) (k' : B -> Eff S C) s :
  andThen (andThen m k) k' s = andThen m (fun a => andThen (k a) k') s.
Proof. unfold andThen. destruct (m s) as [[e|a] s']; reflexivity. Qed.

Lemma andThen_if {A B} (c : bool) (m1 m2 : Eff S A) (k : A -> Eff S B) s :
  andThen (if c then m1 else m2) k s
  = if c then andThen m1 k s else andThen m2 k s.
Proof. by destruct c. Qed.
End EffFacts.

(** ** The system monitor and the chat tracker *)
Section MonitorFacts.
Import SystemMonitor.
Local Open Scope eff_scope.
Context `{Platform}.

Lemma andThen_now {B} (k : N -> St B) m :
  andThen now k m
  = k (fst (Date_now (host m)))
      (Monitor (userLoadStats m) (systemLoadHistory m) (prototypeLastChat m)
         (snd (Date_now (host m)))).
Proof. reflexivity. Qed.

Lemma andThen_setUser {B} userHandle u (k : unit -> St B) m :
  andThen (setUser userHandle u) k m
  = k tt (Monitor (<[userHandle := u]> (userLoadStats m)) (systemLoadHistory m)
            (prototypeLastChat m) (host m)).
Proof. reflexivity. Qed.

Lemma andThen_getUser {B} userHandle (k : userStats -> St B) m u :
  userLoadStats m !! userHandle = Some u ->
  andThen (getUser userHandle) k m = k u m.
Proof. intros Hu. unfold andThen, getUser. by rewrite Hu. Qed.

Ltac eff :=
  repeat (rewrite ?andThen_assoc, ?andThen_pure, ?andThen_gets, ?andThen_now,
            ?andThen_setUser, ?andThen_modify;
          cbn [userLoadStats systemLoadHistory prototypeLastChat host]).

Lemma recordTotals_spec userHandle messageType m :
  exists today t1 t2 t3 ta tb tc e,
    recordTotals userHandle messageType m
    = (inr tt,
       Monitor
         (<[userHandle :=
              counted messageType today t1 t2 t3
                (default (newUserStats ta tb tc) (userLoadStats m !! userHandle))]>
            (userLoadStats m))
         (systemLoadHistory m) (prototypeLastChat m) e).
Proof.
  unfold recordTotals. eff.
  destruct (userLoadStats m !! userHandle) as [u|] eqn:Hu.
  - rewrite bool_decide_true by eauto. eff.
    rewrite (andThen_getUser _ _ _ u) by done. eff.
    set (today := toDateString _). set (t1 := fst (Date_now (snd (Date_now (host m))))).
    set (t2 := fst (Date_now (snd (Date_now (snd (Date_now (host m))))))).
    cbn [default].
    destruct (dailyStats (countMessage messageType t1 t2 u) !! today) as [d|] eqn:Hd.
    + eff. rewrite Hd. eff. unfold setUser, modify.
      cbn [userLoadStats systemLoadHistory prototypeLastChat host].
      rewrite insert_insert_eq.
      exists today, t1, t2, 0. do 3 exists 0. eexists.
      unfold counted. cbn [dailyStats countMessage default from_option id] in Hd |- *. rewrite Hd. reflexivity.
    + eff. rewrite lookup_insert_eq. eff. unfold setUser, modify.
      cbn [userLoadStats systemLoadHistory prototypeLastChat host].
      rewrite !insert_insert_eq.
      exists today, t1, t2. eexists. do 3 exists 0. eexists.
      unfold counted. cbn [dailyStats countMessage default from_option id] in Hd |- *. rewrite Hd.
      reflexivity.
  - rewrite bool_decide_false by (intros [? ?]; done). eff.
    rewrite (andThen_getUser _ _ _ _ (lookup_insert_eq _ _ _)). eff.
    set (U := newUserStats _ _ _).
    set (today := toDateString _).
    match goal with |- context [countMessage _ ?a ?b U] => set (t1 := a); set (t2 := b) end.
    cbn [default].
    destruct (dailyStats (countMessage messageType t1 t2 U) !! today) as [d|] eqn:Hd.
    + cbn in Hd. rewrite lookup_empty in Hd. done.
    + eff. rewrite lookup_insert_eq. eff. unfold setUser, modify.
      cbn [userLoadStats systemLoadHistory prototypeLastChat host].
      rewrite !insert_insert_eq.
      exists today, t1, t2. eexists. do 3 eexists. eexists.
      unfold counted. subst U.
      cbn [dailyStats countMessage default from_option id newUserStats].
      rewrite lookup_empty. reflexivity.
Qed.

Lemma withCharacterChats_same (c : userStats) :
  withCharacterChats (characterChats c) c = c.
Proof. by destruct c. Qed.

Lemma withCharacterChats_twice chats chats' (c : userStats) :
  withCharacterChats chats (withCharacterChats chats' c) = withCharacterChats chats c.
Proof. reflexivity. Qed.

Lemma monitor_same_user (m : monitor) userHandle c :
  userLoadStats m !! userHandle = Some c ->
  <[userHandle := withCharacterChats (characterChats c) c]> (userLoadStats m)
  = userLoadStats m.
Proof. intros Hc. rewrite withCharacterChats_same. by apply insert_id. Qed.

(** Lines 368-387 touch the character statistics of the user, the clock
    and [Object.prototype], and nothing else. *)
Lemma recordCharacter_spec userHandle messageType name m c :
  userLoadStats m !! userHandle = Some c ->
  exists r chats proto e,
    recordCharacter userHandle messageType name m
    = (r, Monitor (<[userHandle := withCharacterChats chats c]> (userLoadStats m))
            (systemLoadHistory m) proto e).
Proof.
  intros Hc. unfold recordCharacter.
  destruct m as [stats history proto0 e0].
  cbn [userLoadStats systemLoadHistory prototypeLastChat host] in *.
  rewrite (andThen_getUser _ _ _ c) by done. eff.
  destruct (lookupChat (characterChats c) proto0 name) as [s| | |t|] eqn:Hfound;
    cbn [memberTruthy].
  - eff. rewrite (andThen_getUser _ _ _ c) by done. rewrite Hfound. eff.
    unfold setUser, modify. cbn. eauto 10.
  - eff. rewrite (andThen_getUser _ _ _ c) by done. rewrite Hfound. eff.
    unfold pure. eexists _, (characterChats c), _, _.
    rewrite (monitor_same_user (Monitor stats history proto0 e0)) by done. reflexivity.
  - eff. rewrite (andThen_getUser _ _ _ c) by done. rewrite Hfound. eff.
    unfold setPrototypeLastChat, modify. cbn. eexists _, (characterChats c), _, _.
    rewrite (monitor_same_user (Monitor stats history proto0 e0)) by done. reflexivity.
  - destruct (t =? 0) eqn:Ht; cbn [negb].
    + eff. rewrite (andThen_getUser _ _ _ _ (lookup_insert_eq _ _ _)).
      cbn [characterChats withCharacterChats].
      unfold lookupChat at 1. rewrite lookup_insert_eq. eff.
      unfold setUser, modify. cbn. rewrite insert_insert_eq. eauto 10.
    + eff. rewrite (andThen_getUser _ _ _ c) by done. rewrite Hfound.
      unfold raise. eexists _, (characterChats c), _, _.
      rewrite (monitor_same_user (Monitor stats history proto0 e0)) by done. reflexivity.
  - eff. rewrite (andThen_getUser _ _ _ _ (lookup_insert_eq _ _ _)).
    cbn [characterChats withCharacterChats].
    unfold lookupChat at 1. rewrite lookup_insert_eq. eff.
    unfold setUser, modify. cbn. rewrite insert_insert_eq. eauto 10.
Qed.

Lemma recordUserChatActivity_spec userHandle messageType messageData m :
  exists r today t1 t2 t3 ta tb tc chats proto e,
    recordUserChatActivity userHandle messageType messageData m
    = (r,
       Monitor
         (<[userHandle :=
              withCharacterChats chats
                (counted messageType today t1 t2 t3
                   (default (newUserStats ta tb tc) (userLoadStats m !! userHandle)))]>
            (userLoadStats m))
         (systemLoadHistory m) proto e).
Proof.
  unfold recordUserChatActivity.
  destruct (recordTotals_spec userHandle messageType m)
    as (today & t1 & t2 & t3 & ta & tb & tc & e & Htotals).
  unfold andThen at 1. rewrite Htotals.
  set (c := counted _ _ _ _ _ _).
  set (m1 := Monitor _ _ _ _).
  assert (Hc : userLoadStats m1 !! userHandle = Some c) by apply lookup_insert_eq.
  assert (Hsame : forall r, exists r' chats proto e',
             (r, m1)
             = (r' : exn + unit,
                Monitor (<[userHandle := withCharacterChats chats c]> (userLoadStats m))
                  (systemLoadHistory m) proto e')).
  { intros r. exists r, (characterChats c), (prototypeLastChat m), e.
    rewrite withCharacterChats_same. reflexivity. }
  rewrite andThen_fromResult.
  destruct (getProp _ _) as [err|characterName].
  { destruct (Hsame (inl err)) as (r' & chats & proto & e' & ->). eauto 15. }
  destruct (truthy characterName).
  2:{ destruct (Hsame (inr tt)) as (r' & chats & proto & e' & Heq).
      unfold pure. rewrite Heq. eauto 15. }
  rewrite andThen_fromResult.
  destruct (ToPropertyKey characterName) as [err|name].
  { destruct (Hsame (inl err)) as (r' & chats & proto & e' & ->). eauto 15. }
  destruct (recordCharacter_spec userHandle messageType name m1 c Hc)
    as (r & chats & proto & e' & ->).
  subst m1. cbn [userLoadStats systemLoadHistory]. rewrite insert_insert_eq.
  eauto 15.
Qed.

Lemma counted_fields messageType today t1 t2 t3 u chats :
  let stats := withCharacterChats chats (counted messageType today t1 t2 t3 u) in
  totalMessages stats = increment (totalMessages u)
  /\ totalUserMessages stats
     = (if isUser messageType then increment (totalUserMessages u)
        else totalUserMessages u)
  /\ totalCharacterMessages stats
     = (if isCharacter messageType then increment (totalCharacterMessages u)
        else totalCharacterMessages u)
  /\ firstActivity stats = firstActivity u
  /\ dailyStats stats
     = <[today := countDay messageType
                    (default (newDayStats t3) (dailyStats u !! today))]>
         (dailyStats u)
  /\ todayMessages stats
     = messages (countDay messageType
                   (default (newDayStats t3) (dailyStats u !! today))).
Proof. cbn. repeat split; reflexivity. Qed.

(** What a call leaves in the monitor, whether it returns or throws. *)
Lemma recordUserChatActivity_totals userHandle messageType messageData m :
  let m' := snd (recordUserChatActivity userHandle messageType messageData m) in
  (exists stats,
     userLoadStats m' = <[userHandle := stats]> (userLoadStats m)
     /\ totalMessages stats = increment (totalMessages (previous m userHandle))
     /\ totalUserMessages stats
        = (if isUser messageType
           then increment (totalUserMessages (previous m userHandle))
           else totalUserMessages (previous m userHandle))
     /\ totalCharacterMessages stats
        = (if isCharacter messageType
           then increment (totalCharacterMessages (previous m userHandle))
           else totalCharacterMessages (previous m userHandle))
     /\ exists today d,
          dailyStats stats !! today = Some d /\ todayMessages stats = messages d)
  /\ systemLoadHistory m' = systemLoadHistory m.
Proof.
  destruct (recordUserChatActivity_spec userHandle messageType messageData m)
    as (r & today & t1 & t2 & t3 & ta & tb & tc & chats & proto & e & ->).
  cbn [snd userLoadStats systemLoadHistory]. split; [|reflexivity].
  eexists. split; [reflexivity|].
  unfold previous.
  destruct (userLoadStats m !! userHandle) as [u|]; cbn [default from_option id].
  - repeat split. eexists today, _. split; [apply lookup_insert_eq|reflexivity].
  - repeat split. eexists today, _. split; [apply lookup_insert_eq|reflexivity].
Qed.

(** A message is counted for its user whether or not the call returns:
    the totals are written before the only statements that can throw.
    The statistics of the other users and the load history are left as
    they are. *)
Theorem recordUserChatActivity_counts userHandle messageType messageData m :
  let m' := snd (recordUserChatActivity userHandle messageType messageData m) in
  totalMessages (previous m' userHandle)
  = increment (totalMessages (previous m userHandle))
  /\ totalUserMessages (previous m' userHandle)
     = (if isUser messageType
        then increment (totalUserMessages (previous m userHandle))
        else totalUserMessages (previous m userHandle))
  /\ totalCharacterMessages (previous m' userHandle)
     = (if isCharacter messageType
        then increment (totalCharacterMessages (previous m userHandle))
        else totalCharacterMessages (previous m userHandle))
  /\ (exists today d,
        dailyStats (previous m' userHandle) !! today = Some d
        /\ todayMessages (previous m' userHandle) = messages d)
  /\ (forall other, other <> userHandle ->
        userLoadStats m' !! other = userLoadStats m !! other)
  /\ systemLoadHistory m' = systemLoadHistory m.
Proof.
  destruct (recordUserChatActivity_totals userHandle messageType messageData m)
    as [(stats & Hmap & Htotal & Huser & Hcharacter & Hday) Hhistory].
  cbv zeta.
  assert (Hstats : previous
            (snd (recordUserChatActivity userHandle messageType messageData m))
            userHandle = stats).
  { unfold previous at 1. rewrite Hmap, lookup_insert_eq. reflexivity. }
  rewrite Hstats, Hmap. repeat split; try assumption.
  intros other Hother. by rewrite lookup_insert_ne.
Qed.


Lemma recordChatMessage_run userHandle messageType messageData m :
  recordChatMessage userHandle messageType messageData m
  = (inr tt, snd (recordUserChatActivity userHandle messageType messageData m)).
Proof.
  unfold recordChatMessage, attempt.
  by destruct (recordUserChatActivity _ _ _ m) as [[e|[]] m1].
Qed.

Lemma recordEach_cons c calls m :
  recordEach (c :: calls) m
  = recordEach calls
      (snd (recordUserChatActivity (activity_user c) (activity_type c)
              (activity_data c) m)).
Proof.
  unfold recordEach. cbn [forEach]. unfold andThen.
  by rewrite recordChatMessage_run.
Qed.

Lemma increment_saturates (x n : N) :
  increment (N.min (x + n) 9007199254740992)
  = N.min (x + (n + 1)) 9007199254740992.
Proof. unfold increment. lia. Qed.

Lemma previous_other m m' userHandle other :
  (exists stats, userLoadStats m' = <[other := stats]> (userLoadStats m)) ->
  other <> userHandle ->
  previous m' userHandle = previous m userHandle.
Proof.
  intros [stats Hm'] Hne. unfold previous. rewrite Hm'.
  by rewrite lookup_insert_ne.
Qed.

Lemma previous_same m m' userHandle stats :
  userLoadStats m' = <[userHandle := stats]> (userLoadStats m) ->
  previous m' userHandle = stats.
Proof. intros Hm'. unfold previous. by rewrite Hm', lookup_insert_eq. Qed.

Lemma callsOf_cons userHandle kind c calls :
  callsOf userHandle kind (c :: calls)
  = (if bool_decide (activity_user c = userHandle) && kind (activity_type c)
     then 1 else 0) + callsOf userHandle kind calls.
Proof.
  unfold callsOf. cbn [List.filter].
  destruct (_ && _); cbn [length]; lia.
Qed.

Lemma recordEach_totals calls : forall m userHandle,
  let m' := snd (recordEach calls m) in
  (totalMessages (previous m userHandle) <= 9007199254740992 ->
   totalMessages (previous m' userHandle)
   = N.min (totalMessages (previous m userHandle)
            + callsOf userHandle (fun _ => true) calls) 9007199254740992)
  /\ (totalUserMessages (previous m userHandle) <= 9007199254740992 ->
      totalUserMessages (previous m' userHandle)
      = N.min (totalUserMessages (previous m userHandle)
               + callsOf userHandle isUser calls) 9007199254740992)
  /\ (totalCharacterMessages (previous m userHandle) <= 9007199254740992 ->
      totalCharacterMessages (previous m' userHandle)
      = N.min (totalCharacterMessages (previous m userHandle)
               + callsOf userHandle isCharacter calls) 9007199254740992).
Proof.
  induction calls as [|c calls IH]; intros m userHandle; cbn zeta.
  - unfold callsOf. cbn. repeat split; lia.
  - rewrite recordEach_cons.
    set (m1 := snd (recordUserChatActivity _ _ _ m)).
    specialize (IH m1 userHandle). cbn zeta in IH.
    destruct IH as (IH1 & IH2 & IH3).
    destruct (recordUserChatActivity_totals (activity_user c) (activity_type c)
                (activity_data c) m) as [(stats & Hm1 & Ht & Hu & Hc & _) _].
    fold m1 in Hm1.
    rewrite !callsOf_cons.
    destruct (decide (activity_user c = userHandle)) as [Heq|Hne].
    + rewrite bool_decide_true by done. cbn [andb].
      rewrite Heq in Hm1, Ht, Hu, Hc.
      assert (Hp : previous m1 userHandle = stats)
        by exact (previous_same m m1 _ _ Hm1).
      rewrite Hp in IH1, IH2, IH3. unfold increment in *.
      repeat split; intros Hle.
      * rewrite IH1 by lia. lia.
      * rewrite IH2 by (destruct (isUser _); lia). destruct (isUser _); lia.
      * rewrite IH3 by (destruct (isCharacter _); lia).
        destruct (isCharacter _); lia.
    + rewrite bool_decide_false by done. cbn [andb].
      assert (Hp : previous m1 userHandle = previous m userHandle)
        by (apply (previous_other m m1 userHandle (activity_user c)); eauto).
      rewrite Hp in IH1, IH2, IH3.
      repeat split; intros Hle; [rewrite IH1|rewrite IH2|rewrite IH3]; lia.
Qed.

(** From a monitor that has no statistics of a user, the three totals of
    the user are the numbers of calls made with its handle, with the type
    [user] and with the type [character], as far as a counter can count. *)
Theorem recordChatMessage_totals calls m userHandle :
  userLoadStats m !! userHandle = None ->
  let m' := snd (recordEach calls m) in
  totalMessages (previous m' userHandle)
  = saturated (callsOf userHandle (fun _ => true) calls)
  /\ totalUserMessages (previous m' userHandle)
     = saturated (callsOf userHandle isUser calls)
  /\ totalCharacterMessages (previous m' userHandle)
     = saturated (callsOf userHandle isCharacter calls).
Proof.
  intros Hnone. cbn zeta.
  destruct (recordEach_totals calls m userHandle) as (H1 & H2 & H3).
  cbn zeta in *.
  assert (Hp : previous m userHandle = newUserStats 0 0 0)
    by (unfold previous; by rewrite Hnone).
  rewrite Hp in H1, H2, H3. cbn [newUserStats totalMessages totalUserMessages
    totalCharacterMessages] in H1, H2, H3.
  unfold saturated. rewrite H1, H2, H3 by lia. repeat split; f_equal; lia.
Qed.

Lemma sumMessages_insert_fresh (days : gmap jsstring dayStats) k d :
  days !! k = None ->
  sumMessages (<[k := d]> days) = messages d + sumMessages days.
Proof.
  intros Hk. unfold sumMessages.
  rewrite map_fold_insert_L; [reflexivity| |done].
  intros. lia.
Qed.

Lemma sumMessages_lookup (days : gmap jsstring dayStats) k d :
  days !! k = Some d ->
  sumMessages days = messages d + sumMessages (delete k days).
Proof.
  intros Hk. rewrite <- (insert_delete_id days k d Hk) at 1.
  apply sumMessages_insert_fresh, lookup_delete_eq.
Qed.

Lemma sumMessages_insert (days : gmap jsstring dayStats) k d :
  sumMessages (<[k := d]> days) = messages d + sumMessages (delete k days).
Proof.
  rewrite <- insert_delete_eq.
  apply sumMessages_insert_fresh, lookup_delete_eq.
Qed.

Lemma counted_sum messageType today t1 t2 t3 u chats :
  (totalMessages u < 9007199254740992 ->
   totalMessages u = sumMessages (dailyStats u)) ->
  let stats := withCharacterChats chats (counted messageType today t1 t2 t3 u) in
  totalMessages stats < 9007199254740992 ->
  totalMessages stats = sumMessages (dailyStats stats).
Proof.
  intros Hu. cbn. rewrite sumMessages_insert. unfold increment. intros Hlt.
  assert (Hbelow : totalMessages u < 9007199254740992) by lia.
  specialize (Hu Hbelow).
  destruct (dailyStats u !! today) as [d|] eqn:Hd; cbn.
  - rewrite (sumMessages_lookup _ _ _ Hd) in Hu. unfold increment. lia.
  - rewrite delete_id by done. unfold increment. lia.
Qed.

Lemma recordEach_sum calls : forall m,
  (forall userHandle stats,
     userLoadStats m !! userHandle = Some stats ->
     totalMessages stats < 9007199254740992 ->
     totalMessages stats = sumMessages (dailyStats stats)) ->
  forall userHandle stats,
    userLoadStats (snd (recordEach calls m)) !! userHandle = Some stats ->
    totalMessages stats < 9007199254740992 ->
    totalMessages stats = sumMessages (dailyStats stats).
Proof.
  induction calls as [|c calls IH]; intros m Hm; [exact Hm|].
  rewrite recordEach_cons. apply IH.
  destruct (recordUserChatActivity_spec (activity_user c) (activity_type c)
              (activity_data c) m)
    as (r & today & t1 & t2 & t3 & ta & tb & tc & chats & proto & e & ->).
  cbn [snd userLoadStats]. intros userHandle stats.
  destruct (decide (activity_user c = userHandle)) as [Heq|Hne].
  - rewrite Heq, lookup_insert_eq. intros [= <-].
    apply counted_sum.
    destruct (userLoadStats m !! userHandle) as [u|] eqn:Hu; cbn.
    + apply (Hm _ _ Hu).
    + intros _. unfold sumMessages. by rewrite map_fold_empty.
  - rewrite lookup_insert_ne by done. apply Hm.
Qed.

(** The total of a user is the sum of the messages of its days, as long
    as it is below the largest value a counter can reach. *)
Theorem total_is_sum_of_days calls m userHandle stats :
  userLoadStats m = ∅ ->
  userLoadStats (snd (recordEach calls m)) !! userHandle = Some stats ->
  totalMessages stats < 9007199254740992 ->
  totalMessages stats = sumMessages (dailyStats stats).
Proof.
  intros Hempty. apply recordEach_sum.
  intros u s. rewrite Hempty, lookup_empty. done.
Qed.

Lemma lastChat_not_function :
  bool_decide (js "lastChat" ∈ functionMembers) = false.
Proof. vm_compute. reflexivity. Qed.

Lemma explicit_data messageData characterName :
  getProp messageData (js "characterName") = inr characterName ->
  getProp match messageData with VUndefined => VObj [] | _ => messageData end
    (js "characterName") = inr characterName.
Proof. by destruct messageData. Qed.

Lemma recordUserChatActivity_named userHandle messageType messageData m name :
  getProp messageData (js "characterName") = inr (VStr name) ->
  name <> [] ->
  exists today t1 t2 t3 ta tb tc e,
    let c := counted messageType today t1 t2 t3
               (default (newUserStats ta tb tc) (userLoadStats m !! userHandle)) in
    recordUserChatActivity userHandle messageType messageData m
    = recordCharacter userHandle messageType name
        (Monitor (<[userHandle := c]> (userLoadStats m)) (systemLoadHistory m)
           (prototypeLastChat m) e).
Proof.
  intros Hname Hne. unfold recordUserChatActivity.
  destruct (recordTotals_spec userHandle messageType m)
    as (today & t1 & t2 & t3 & ta & tb & tc & e & Htotals).
  exists today, t1, t2, t3, ta, tb, tc, e. cbn zeta.
  unfold andThen at 1. rewrite Htotals.
  rewrite andThen_fromResult, (explicit_data _ _ Hname).
  cbn [truthy]. rewrite bool_decide_false by done. cbn [negb].
  rewrite andThen_fromResult. reflexivity.
Qed.

(** A character called [__proto__] is counted for the user, gets no entry
    among the character statistics, and leaves [lastChat] on
    [Object.prototype]; from then on a message of a character called
    [lastChat] that has no entry yet throws, for every user. *)
Theorem proto_name_reaches_Object_prototype userHandle messageType messageData m :
  getProp messageData (js "characterName") = inr (VStr (js "__proto__")) ->
  characterChats (previous m userHandle) !! js "__proto__" = None ->
  exists t m',
    recordUserChatActivity userHandle messageType messageData m = (inr tt, m')
    /\ prototypeLastChat m' = Some t
    /\ characterChats (previous m' userHandle)
       = characterChats (previous m userHandle)
    /\ totalMessages (previous m' userHandle)
       = increment (totalMessages (previous m userHandle))
    /\ (t <> 0 ->
        forall user2 type2 data2,
          getProp data2 (js "characterName") = inr (VStr (js "lastChat")) ->
          characterChats (previous m' user2) !! js "lastChat" = None ->
          exists message m'',
            recordUserChatActivity user2 type2 data2 m'
            = (inl (TypeError message), m'')).
Proof.
  intros Hname Hfresh.
  destruct (recordUserChatActivity_named userHandle messageType messageData m
              (js "__proto__") Hname ltac:(done))
    as (today & t1 & t2 & t3 & ta & tb & tc & e & ->).
  set (c := counted _ _ _ _ _ _).
  assert (Hchats : characterChats c = characterChats (previous m userHandle)).
  { subst c. unfold previous. by destruct (userLoadStats m !! userHandle). }
  unfold recordCharacter.
  rewrite (andThen_getUser _ _ _ c) by apply lookup_insert_eq. eff.
  unfold lookupChat at 1. rewrite Hchats, Hfresh.
  rewrite bool_decide_true by done. cbn [memberTruthy]. eff.
  rewrite (andThen_getUser _ _ _ c) by apply lookup_insert_eq.
  unfold lookupChat at 1. rewrite Hchats, Hfresh.
  rewrite bool_decide_true by done. eff.
  unfold setPrototypeLastChat, modify.
  cbn [userLoadStats systemLoadHistory prototypeLastChat host].
  eexists _, _. split; [reflexivity|]. cbn [prototypeLastChat].
  split; [reflexivity|].
  assert (Hp : forall stats history proto e',
             previous (Monitor (<[userHandle := c]> stats) history proto e')
               userHandle = c).
  { intros. unfold previous. cbn. by rewrite lookup_insert_eq. }
  rewrite Hp. split; [done|]. split.
  { subst c. unfold previous. by destruct (userLoadStats m !! userHandle). }
  intros Ht user2 type2 data2 Hname2 Hfresh2.
  match goal with |- context [recordUserChatActivity _ _ _ ?x] => set (m1 := x) in * end.
  destruct (recordUserChatActivity_named user2 type2 data2 m1
              (js "lastChat") Hname2 ltac:(done))
    as (today' & t1' & t2' & t3' & ta' & tb' & tc' & e' & ->).
  set (c2 := counted _ _ _ _ _ _).
  assert (Hchats2 : characterChats c2 = characterChats (previous m1 user2)).
  { subst c2. unfold previous. by destruct (userLoadStats m1 !! user2). }
  unfold recordCharacter.
  rewrite (andThen_getUser _ _ _ c2) by apply lookup_insert_eq. eff.
  unfold lookupChat at 1. rewrite Hchats2, Hfresh2.
  rewrite bool_decide_false by done. rewrite lastChat_not_function.
  subst m1. cbn [prototypeLastChat]. rewrite bool_decide_true by done.
  cbn [memberTruthy].
  assert (Hz : (fst (Date_now e) =? 0) = false) by by apply N.eqb_neq.
  rewrite Hz. cbn [negb]. eff.
  rewrite (andThen_getUser _ _ _ c2) by apply lookup_insert_eq.
  unfold lookupChat at 1. rewrite Hchats2, Hfresh2.
  rewrite bool_decide_false by done. rewrite lastChat_not_function.
  rewrite bool_decide_true by done.
  unfold raise. eauto.
Qed.

Lemma andThen_sampleLoad {B} (k : loadSample -> St B) m :
  andThen sampleLoad k m
  = k (fst (getSystemLoad (host m)))
      (Monitor (userLoadStats m) (systemLoadHistory m) (prototypeLastChat m)
         (snd (getSystemLoad (host m)))).
Proof. reflexivity. Qed.

(** [updateSystemLoad] keeps the history within [maxHistoryLength], adds
    at most one entry at its end, adds none unless a user was active in
    the last ten minutes, and leaves the statistics of the users alone. *)
Theorem updateSystemLoad_bounded m :
  let m' := snd (updateSystemLoad m) in
  fst (updateSystemLoad m) = inr tt
  /\ userLoadStats m' = userLoadStats m
  /\ (systemLoadHistory m' = systemLoadHistory m
      \/ someoneActive (reading m) m
         /\ exists entry,
              systemLoadHistory m'
              = if (maxHistoryLength <? length (systemLoadHistory m ++ [entry]))%nat
                then drop 1 (systemLoadHistory m ++ [entry])
                else systemLoadHistory m ++ [entry])
  /\ ((length (systemLoadHistory m) <= maxHistoryLength)%nat ->
      (length (systemLoadHistory m') <= maxHistoryLength)%nat).
Proof.
  cbn zeta.
  destruct (existsb (fun e => active (reading m) (snd e))
              (map_to_list (userLoadStats m))) eqn:Hactive.
  - assert (Hrun : exists entry e,
              updateSystemLoad m
              = (inr tt,
                 Monitor (userLoadStats m)
                   (if (maxHistoryLength <? length (systemLoadHistory m ++ [entry]))%nat
                    then drop 1 (systemLoadHistory m ++ [entry])
                    else systemLoadHistory m ++ [entry])
                   (prototypeLastChat m) e)).
    { unfold updateSystemLoad. eff. fold (reading m). rewrite Hactive.
      rewrite andThen_sampleLoad. unfold getActiveUserCount. eff.
      unfold pushHistory, modify.
      cbn [userLoadStats systemLoadHistory prototypeLastChat host].
      eexists _, _. reflexivity. }
    destruct Hrun as (entry & e & ->).
    cbn [fst snd userLoadStats systemLoadHistory]. repeat split.
    + right. split.
      * apply existsb_exists in Hactive as [[userHandle stats] [Hin Hact]].
        exists userHandle, stats. split; [|exact Hact].
        by apply elem_of_map_to_list, list_elem_of_In.
      * eexists. reflexivity.
    + intros Hlen. destruct (_ <? _)%nat eqn:Hlt.
      * rewrite length_drop, length_app. cbn [length]. unfold maxHistoryLength in *. lia.
      * apply Nat.ltb_ge in Hlt. exact Hlt.
  - assert (Hrun : exists e,
              updateSystemLoad m
              = (inr tt,
                 Monitor (userLoadStats m) (systemLoadHistory m)
                   (prototypeLastChat m) e)).
    { unfold updateSystemLoad. eff. fold (reading m). rewrite Hactive.
      unfold pure. eexists. reflexivity. }
    destruct Hrun as (e & ->).
    cbn [fst snd userLoadStats systemLoadHistory]. repeat split; auto.
Qed.

Lemma slice_last {A} (limit : Z) (a : list A) :
  (0 < limit)%Z ->
  slice (- limit) a = drop (length a - Z.to_nat limit) a.
Proof.
  intros Hpos. unfold slice.
  replace (- limit <? 0)%Z with true by (symmetry; apply Z.ltb_lt; lia).
  f_equal. lia.
Qed.

(** [getSystemLoadHistory(limit)] returns the last [limit] entries when
    [limit] is positive, all of them when fewer are kept; with a [limit] of
    zero it returns the whole history, not an empty list. *)
Theorem getSystemLoadHistory_window (limit : Z) m :
  ((0 < limit)%Z ->
   getSystemLoadHistory limit m
   = drop (length (systemLoadHistory m) - Z.to_nat limit) (systemLoadHistory m)
   /\ length (getSystemLoadHistory limit m)
      = Nat.min (Z.to_nat limit) (length (systemLoadHistory m)))
  /\ getSystemLoadHistory 0 m = systemLoadHistory m.
Proof.
  split.
  - intros Hpos. unfold getSystemLoadHistory. rewrite slice_last by done.
    split; [reflexivity|]. rewrite length_drop. lia.
  - unfold getSystemLoadHistory, slice. change (- 0)%Z with 0%Z.
    change (0 <? 0)%Z with false. cbv iota.
    replace (Z.to_nat (0 `min` Z.of_nat (length (systemLoadHistory m)))) with 0%nat by lia.
    reflexivity.
Qed.

(** After [resetUserStats] the user has no statistics, the other users
    keep theirs, and the next message of the user is counted as its
    first. *)
Theorem resetUserStats_forgets userHandle m messageType messageData :
  let m1 := snd (resetUserStats userHandle m) in
  let m2 := snd (recordUserChatActivity userHandle messageType messageData m1) in
  userLoadStats m1 !! userHandle = None
  /\ (forall other, other <> userHandle ->
        userLoadStats m1 !! other = userLoadStats m !! other)
  /\ systemLoadHistory m1 = systemLoadHistory m
  /\ totalMessages (previous m2 userHandle) = 1
  /\ todayMessages (previous m2 userHandle) = 1
  /\ size (dailyStats (previous m2 userHandle)) = 1%nat.
Proof.
  cbn zeta. unfold resetUserStats, modify. cbn [snd].
  set (m1 := Monitor _ _ _ _).
  assert (Hnone : userLoadStats m1 !! userHandle = None) by apply lookup_delete_eq.
  split; [exact Hnone|]. split.
  { intros other Hne. subst m1. cbn. by rewrite lookup_delete_ne. }
  split; [reflexivity|].
  destruct (recordUserChatActivity_spec userHandle messageType messageData m1)
    as (r & today & t1 & t2 & t3 & ta & tb & tc & chats & proto & e & ->).
  cbn [snd]. unfold previous. cbn [userLoadStats]. rewrite lookup_insert_eq, Hnone.
  cbn. rewrite lookup_empty. cbn. repeat split.
  rewrite insert_empty. apply map_size_singleton.
Qed.

Lemma includes_here (s part : jsstring) :
  take (length part) s = part -> includes s part = true.
Proof. intros Hp. destruct s; cbn [includes]; by rewrite bool_decide_true. Qed.

(** The list of endpoints adds nothing to the test: a request is tracked
    exactly when its path contains [/generate] or [/save]. *)
Theorem isChatEndpoint_by_substring (request : trackedRequest) :
  isChatEndpoint request
  = includes (request_path request) (js "/generate")
    || includes (request_path request) (js "/save").
Proof.
  unfold isChatEndpoint. set (p := request_path request).
  destruct (includes p (js "/generate") || includes p (js "/save")) eqn:Hsub.
  - unfold chatEndpoints. cbn [existsb].
    rewrite <- (orb_assoc (bool_decide _)), Hsub, orb_true_r. reflexivity.
  - apply not_true_is_false. intros Hex.
    apply existsb_exists in Hex as (endpoint & Hin & Htest).
    rewrite <- orb_assoc, Hsub, orb_false_r in Htest.
    apply bool_decide_eq_true in Htest. subst endpoint.
    unfold chatEndpoints in Hin. cbn [In] in Hin.
    assert (Hcontra : includes p (js "/generate") || includes p (js "/save") = true).
    { destruct Hin as [<-|[<-|[<-|[<-|[<-|[<-|[]]]]]]]; vm_compute; reflexivity. }
    congruence.
Qed.

(** The closure runs its body once per response: it never throws, it
    sets [chatTracked], and a second call changes nothing. *)
Theorem trackChatActivity_once request response m :
  exists m1,
    let response1 := TrackedResponse true (statusCode response) in
    trackChatActivity request response m
    = (inr (if chatTracked response then response else response1), m1)
    /\ trackChatActivity request response1 m1 = (inr response1, m1).
Proof.
  unfold trackChatActivity. destruct (chatTracked response) eqn:Htracked.
  - exists m. cbn. split; reflexivity.
  - cbn [chatTracked].
    match goal with
    | |- context [attempt ?body ?h] => set (tracked := attempt body h)
    end.
    assert (Hrun : exists m1, tracked m = (inr tt, m1)).
    { subst tracked. unfold attempt.
      match goal with |- context [match ?r with _ => _ end] => destruct r as [[e|[]] m1] end;
        unfold pure; eauto. }
    destruct Hrun as (m1 & Hrun). exists m1.
    unfold andThen. rewrite Hrun. split; reflexivity.
Qed.


(** Nothing is recorded for a request that is not a POST, nor for a path
    that is neither one of the two save endpoints nor a [/generate] path
    answered with status 200: the monitor is left as it was. *)
Theorem trackChatActivity_records_nothing request response m :
  chatTracked response = false ->
  request_method request <> js "POST"
  \/ ((request_path request ∉ saveEndpoints)
      /\ (includes (request_path request) (js "/generate") = false
          \/ statusCode response <> 200)) ->
  trackChatActivity request response m
  = (inr (TrackedResponse true (statusCode response)), m).
Proof.
  intros Htracked Hcase. unfold trackChatActivity. rewrite Htracked.
  destruct Hcase as [Hmethod|[Hpath Hgen]].
  - rewrite (bool_decide_false (request_method request = js "POST")) by done.
    rewrite !andb_false_r. reflexivity.
  - unfold saveEndpoints in Hpath.
    rewrite !not_elem_of_cons in Hpath. destruct Hpath as (Hp1 & Hp2 & _).
    rewrite (bool_decide_false (request_path request = js "/api/chats/save")) by done.
    rewrite (bool_decide_false (request_path request = js "/api/chats/group/save")) by done.
    cbn [andb].
    destruct Hgen as [Hgen|Hstatus].
    + rewrite Hgen. reflexivity.
    + destruct (includes _ _ && _); [|reflexivity].
      unfold trackGeneration. cbn [statusCode].
      apply N.eqb_neq in Hstatus. rewrite Hstatus. reflexivity.
Qed.

Lemma recordCharacter_plain userHandle messageType name m c :
  userLoadStats m !! userHandle = Some c ->
  name <> js "__proto__" -> name <> js "lastChat" ->
  fst (recordCharacter userHandle messageType name m) = inr tt.
Proof.
  intros Hc Hproto Hlast. unfold recordCharacter.
  rewrite (andThen_getUser _ _ _ c) by done. eff.
  assert (Hcases : (exists s, lookupChat (characterChats c) (prototypeLastChat m) name = OwnStats s)
                   \/ lookupChat (characterChats c) (prototypeLastChat m) name = BuiltinFunction
                   \/ lookupChat (characterChats c) (prototypeLastChat m) name = NoMember).
  { unfold lookupChat. destruct (characterChats c !! name); [eauto|].
    rewrite bool_decide_false by done.
    destruct (bool_decide (name ∈ functionMembers)); [auto|].
    rewrite (bool_decide_false (name = js "lastChat")) by done.
    destruct (prototypeLastChat m); auto. }
  destruct Hcases as [[s Hfound]|[Hfound|Hfound]]; rewrite Hfound; cbn [memberTruthy]; eff.
  - rewrite (andThen_getUser _ _ _ c) by done. rewrite Hfound. eff. reflexivity.
  - rewrite (andThen_getUser _ _ _ c) by done. rewrite Hfound. eff. reflexivity.
  - rewrite (andThen_getUser _ _ _ _ (lookup_insert_eq _ _ _)).
    cbn [characterChats withCharacterChats].
    unfold lookupChat at 1. rewrite lookup_insert_eq. eff. reflexivity.
Qed.

Lemma recordUserChatActivity_plain userHandle messageType name m content timestamp more :
  name <> [] -> name <> js "__proto__" -> name <> js "lastChat" ->
  fst (recordUserChatActivity userHandle messageType
         (VObj ((js "content", content) :: (js "characterName", VStr name)
                :: (js "timestamp", timestamp) :: more)) m)
  = inr tt.
Proof.
  intros Hne Hproto Hlast.
  destruct (recordUserChatActivity_named userHandle messageType
              (VObj ((js "content", content) :: (js "characterName", VStr name)
                     :: (js "timestamp", timestamp) :: more)) m name)
    as (today & t1 & t2 & t3 & ta & tb & tc & e & ->); [reflexivity|done|].
  cbn zeta. eapply recordCharacter_plain; [apply lookup_insert_eq|done..].
Qed.

Lemma plainName_orElse name fallback :
  plainName name = true ->
  fallback <> [] -> fallback <> js "__proto__" -> fallback <> js "lastChat" ->
  exists s, orElse name (VStr fallback) = VStr s
            /\ s <> [] /\ s <> js "__proto__" /\ s <> js "lastChat".
Proof.
  intros Hplain Hne Hproto Hlast. unfold orElse.
  destruct (truthy name) eqn:Htruthy.
  - destruct name;
      try (cbn [plainName] in Hplain; rewrite Htruthy in Hplain; discriminate).
    cbn in Hplain, Htruthy.
    apply andb_true_iff in Hplain as [Hp1 Hp2].
    apply negb_true_iff, bool_decide_eq_false in Hp1, Hp2.
    apply negb_true_iff, bool_decide_eq_false in Htruthy. eauto.
  - eauto.
Qed.

(** The callback on a plain message: it returns, counts the message when
    it has a text and a date, and otherwise does nothing. *)
Lemma trackMessage_plain userHandle fallback message m :
  plainMessage message = true ->
  fallback <> [] -> fallback <> js "__proto__" -> fallback <> js "lastChat" ->
  exists m',
    trackMessage userHandle fallback message m = (inr tt, m')
    /\ (forall other, other <> userHandle ->
          userLoadStats m' !! other = userLoadStats m !! other)
    /\ totalMessages (previous m' userHandle)
       = (if hasTextAndDate message
          then increment (totalMessages (previous m userHandle))
          else totalMessages (previous m userHandle)).
Proof.
  intros Hplain Hne Hproto Hlast. unfold trackMessage, plainMessage, hasTextAndDate in *.
  destruct (getProp message (js "mes")) as [e|mes]; [done|].
  destruct (getProp message (js "send_date")) as [e|send_date]; [done|].
  destruct (getProp message (js "name")) as [e|name] eqn:Hname; [done|].
  rewrite !andThen_fromResult.
  destruct (truthy mes && truthy send_date) eqn:Hboth; cbn [negb orb] in Hplain.
  2:{ exists m. unfold pure. auto. }
  apply andb_true_iff in Hplain as [Hplain Hdate].
  assert (Hisuser : exists v, getProp message (js "is_user") = inr v).
  { destruct message; cbn in Hname |- *; eauto; discriminate. }
  destruct Hisuser as [is_user ->]. rewrite !andThen_fromResult.
  destruct (Date_getTime send_date) as [e|timestamp]; [done|].
  destruct (plainName_orElse name fallback Hplain Hne Hproto Hlast)
    as (s & -> & Hs1 & Hs2 & Hs3).
  set (messageType := VStr _).
  set (data := VObj _).
  pose proof (recordUserChatActivity_plain userHandle messageType s m mes timestamp []
                Hs1 Hs2 Hs3) as Hret.
  fold data in Hret.
  destruct (recordUserChatActivity_totals userHandle messageType data m)
    as [(stats & Hm' & Ht & _) _].
  destruct (recordUserChatActivity userHandle messageType data m) as [r m'].
  cbn [fst snd] in *. subst r. exists m'. split; [reflexivity|]. split.
  - intros other Hother. rewrite Hm'. by apply lookup_insert_ne.
  - by rewrite (previous_same m m' _ _ Hm').
Qed.

Lemma forEach_trackMessage_plain userHandle fallback items : forall m,
  Forall (fun message => plainMessage message = true) items ->
  fallback <> [] -> fallback <> js "__proto__" -> fallback <> js "lastChat" ->
  totalMessages (previous m userHandle) <= 9007199254740992 ->
  exists m',
    forEach items (trackMessage userHandle fallback) m = (inr tt, m')
    /\ (forall other, other <> userHandle ->
          userLoadStats m' !! other = userLoadStats m !! other)
    /\ totalMessages (previous m' userHandle)
       = N.min (totalMessages (previous m userHandle) + countRecorded items)
           9007199254740992.
Proof.
  induction items as [|message items IH]; intros m Hall Hne Hproto Hlast Hle.
  - exists m. cbn. unfold countRecorded. cbn. repeat split. lia.
  - apply Forall_cons_iff in Hall as [Hplain Hall].
    destruct (trackMessage_plain userHandle fallback message m Hplain Hne Hproto Hlast)
      as (m1 & Hrun & Hothers & Htotal).
    destruct (IH m1 Hall Hne Hproto Hlast) as (m' & Hrest & Hothers' & Htotal').
    { rewrite Htotal. destruct (hasTextAndDate message); unfold increment; lia. }
    exists m'. cbn [forEach]. unfold andThen. rewrite Hrun. split; [exact Hrest|].
    split.
    + intros other Hother. rewrite Hothers', Hothers by done. reflexivity.
    + rewrite Htotal', Htotal. unfold countRecorded. cbn [List.filter].
      destruct (hasTextAndDate message); cbn [length]; unfold increment; lia.
Qed.

(** [recordChatHistory] on an array of plain messages returns, counts
    for the user every item that has a text and a date, and leaves the
    statistics of the other users alone. *)
Theorem recordChatHistory_counts userHandle items named m :
  Forall (fun message => plainMessage message = true) items ->
  totalMessages (previous m userHandle) <= 9007199254740992 ->
  exists m',
    recordChatHistory userHandle (VArr items named) m = (inr tt, m')
    /\ (forall other, other <> userHandle ->
          userLoadStats m' !! other = userLoadStats m !! other)
    /\ totalMessages (previous m' userHandle)
       = N.min (totalMessages (previous m userHandle) + countRecorded items)
           9007199254740992.
Proof.
  intros Hall Hle.
  destruct (forEach_trackMessage_plain userHandle (js "Unknown") items m Hall)
    as (m' & Hrun & Hrest); [done..|].
  exists m'. unfold recordChatHistory, attempt. rewrite Hrun. split; [reflexivity|exact Hrest].
Qed.

(** A POST to [/api/chats/save] whose body holds an array of plain
    messages counts every item that has a text and a date for the user of
    the request. *)
Theorem saved_chat_is_counted request response items named other_fields m :
  chatTracked response = false ->
  request_method request = js "POST" ->
  request_path request = js "/api/chats/save" ->
  request_body request = VObj ((js "chat", VArr items named) :: other_fields) ->
  Forall (fun message => plainMessage message = true) items ->
  totalMessages (previous m (userHandleOf request)) <= 9007199254740992 ->
  exists m',
    trackChatActivity request response m
    = (inr (TrackedResponse true (statusCode response)), m')
    /\ totalMessages (previous m' (userHandleOf request))
       = N.min (totalMessages (previous m (userHandleOf request))
                + countRecorded items) 9007199254740992.
Proof.
  intros Htracked Hmethod Hpath Hbody Hall Hle.
  destruct (forEach_trackMessage_plain (userHandleOf request) unknownCharacter
              items m Hall) as (m' & Hrun & _ & Htotal); [done..|].
  exists m'. unfold trackChatActivity. rewrite Htracked, Hmethod, Hpath.
  rewrite !bool_decide_true by done. cbn [andb].
  unfold trackSavedChat. rewrite Hbody.
  unfold andThen at 1. unfold attempt.
  rewrite andThen_fromResult. cbn [getProp assoc_get].
  rewrite decide_True by done. cbn [default from_option id].
  rewrite Hrun. split; [reflexivity|exact Htotal].
Qed.
End MonitorFacts.

(** ** Invitation codes *)
Section InvitationFacts.
Import Sorting.Sorted.
Import InvitationCodes.
Local Open Scope eff_scope.
Context `{Services}.

Lemma asciiUpper_ascii (c : N) : c < 128 -> asciiUpper c < 128.
Proof. unfold asciiUpper. destruct (_ && _) eqn:Hc; lia. Qed.

Lemma asciiUpper_twice (c : N) : asciiUpper (asciiUpper c) = asciiUpper c.
Proof.
  unfold asciiUpper.
  destruct ((97 <=? c) && (c <=? 122)) eqn:Hc; [|by rewrite Hc].
  apply andb_true_iff in Hc as [H1 H2]. apply N.leb_le in H1, H2.
  replace ((97 <=? c - 32) && (c - 32 <=? 122)) with false; [reflexivity|].
  symmetry. apply andb_false_iff. left. apply N.leb_gt. lia.
Qed.

Lemma toUpperCase_ascii (s : jsstring) :
  forallb (fun c => c <? 128) s = true ->
  toUpperCase s = map asciiUpper s
  /\ forallb (fun c => c <? 128) (toUpperCase s) = true
  /\ toUpperCase (toUpperCase s) = toUpperCase s.
Proof.
  intros Hs.
  assert (Heq : toUpperCase s = map asciiUpper s)
    by (unfold toUpperCase; by rewrite Hs).
  assert (Hup : forallb (fun c => c <? 128) (map asciiUpper s) = true).
  { apply forallb_forall. intros c Hin. apply in_map_iff in Hin as (c0 & <- & Hin0).
    rewrite forallb_forall in Hs. specialize (Hs c0 Hin0).
    apply N.ltb_lt in Hs. apply N.ltb_lt. by apply asciiUpper_ascii. }
  rewrite Heq. split; [reflexivity|]. split; [exact Hup|].
  unfold toUpperCase. rewrite Hup, map_map.
  apply map_ext. intros c. apply asciiUpper_twice.
Qed.

Lemma hexDigit_ascii (d : N) : d < 16 -> hexDigit d < 128.
Proof. unfold hexDigit. destruct (d <? 10); lia. Qed.

Lemma hex_ascii (b : bytes) : forallb (fun c => c <? 128) (hex b) = true.
Proof.
  induction b as [|byte b IH]; [reflexivity|].
  cbn [hex flat_map app forallb]. fold (hex b). rewrite IH, !andb_true_r.
  apply andb_true_iff. split; apply N.ltb_lt, hexDigit_ascii; apply N.mod_lt; lia.
Qed.

Lemma hex_length (b : bytes) : length (hex b) = (2 * length b)%nat.
Proof.
  induction b as [|byte b IH]; [reflexivity|].
  cbn [hex flat_map app length]. fold (hex b). lia.
Qed.

(** A generated code is upper-case already and has sixteen digits. *)
Lemma generated_code (b : bytes) :
  toUpperCase (toUpperCase (hex b)) = toUpperCase (hex b)
  /\ length (toUpperCase (hex b)) = (2 * length b)%nat.
Proof.
  destruct (toUpperCase_ascii (hex b) (hex_ascii b)) as (Heq & _ & Htwice).
  split; [exact Htwice|]. rewrite Heq, length_map. apply hex_length.
Qed.

Lemma andThen_clock {B} (k : N -> St B) s :
  andThen now k s
  = k (fst (clock_now (outside s))) (Store (items s) (snd (clock_now (outside s)))).
Proof. reflexivity. Qed.

Lemma andThen_randomBytes {B} size (k : bytes -> St B) s :
  andThen (randomBytes size) k s
  = k (fst (crypto_randomBytes size (outside s)))
      (Store (items s) (snd (crypto_randomBytes size (outside s)))).
Proof. reflexivity. Qed.

Ltac inv_eff :=
  repeat (rewrite ?andThen_assoc, ?andThen_pure, ?andThen_gets, ?andThen_clock,
            ?andThen_randomBytes, ?andThen_modify;
          cbn [items outside]).

Lemma isExpired_run invitation s :
  exists s', isExpired invitation s = (inr (expiredAt (timeAt s) invitation), s')
             /\ items s' = items s.
Proof.
  unfold isExpired, expiredAt, timeAt.
  destruct (expiresAt invitation) as [[expiry|negative]|]; [| |by exists s].
  - destruct (expiry =? 0)%Z; [by exists s|].
    rewrite andThen_clock. unfold pure. cbn [negb andb]. eauto.
  - rewrite andThen_clock. unfold pure. eauto.
Qed.

(** What [validateInvitationCode] answers for a code that is stored. *)
Lemma validate_stored presented invitation s :
  ENABLE_INVITATION_CODES = true ->
  presented <> [] ->
  items s !! toInvitationKey (toUpperCase presented) = Some invitation ->
  exists s',
    validateInvitationCode (VStr presented) s
    = (inr (if used invitation then rejected "Invitation code already used"
            else if expiredAt (timeAt s) invitation
                 then rejected "Invitation code expired"
                 else accepted invitation), s')
    /\ items s' = items s
    /\ (used invitation = true -> s' = s).
Proof.
  intros Hon Hne Hitem. unfold validateInvitationCode. rewrite Hon. cbn [negb].
  destruct presented as [|c rest]; [done|].
  unfold getItem. rewrite andThen_gets, Hitem.
  destruct (used invitation).
  - exists s. unfold pure. auto.
  - destruct (isExpired_run invitation s) as (s' & Hrun & Hitems).
    unfold andThen. rewrite Hrun. exists s'.
    destruct (expiredAt _ _); unfold pure; split; auto; split; auto; discriminate.
Qed.

(** *** Doubles that hold whole numbers *)
Lemma roundToDouble_exact (z : Z) :
  (Z.abs z < 2 ^ 53)%Z -> roundToDouble z = Finite z.
Proof.
  intros Hz. unfold roundToDouble. apply Z.ltb_lt in Hz. cbv zeta.
  by rewrite Hz.
Qed.

(** Line 49 is exact as long as the sum stays below 2^53. *)
Lemma expiry_exact (now : N) (hours : Z) :
  (Z.of_N now + Z.abs hours * 3600000 < 2 ^ 53)%Z ->
  plusDouble now
    (timesDouble (timesDouble (timesDouble (Finite hours) 60) 60) 1000)
  = Finite (Z.of_N now + hours * 3600000).
Proof.
  intros Hbound.
  assert (Hpow : (2 ^ 53 = 9007199254740992)%Z) by reflexivity.
  cbn [timesDouble]. rewrite (roundToDouble_exact (hours * 60)) by lia.
  cbn [timesDouble]. rewrite (roundToDouble_exact (hours * 60 * 60)) by lia.
  cbn [timesDouble]. rewrite (roundToDouble_exact (hours * 60 * 60 * 1000)) by lia.
  cbn [plusDouble]. rewrite roundToDouble_exact by lia.
  f_equal. lia.
Qed.

(** Beyond 2^53 it rounds: with 2501999793 hours and an odd reading of
    the clock the expiry is one millisecond short of the exact sum. *)
Lemma expiry_rounds :
  plusDouble 1700000000001
    (timesDouble (timesDouble (timesDouble (Finite 2501999793) 60) 60) 1000)
  = Finite 9008899254800000
  /\ (1700000000001 + 2501999793 * 3600000 = 9008899254800001)%Z.
Proof. split; vm_compute; reflexivity. Qed.

(** [createInvitationCode] stores the JSON copy of a fresh, unused
    invitation under its own code.  Without a number of hours, or with
    zero hours, the invitation has no expiry; with another number of
    hours its expiry is [createdAt + hours * 3600000], as long as that
    sum stays below 2^53 (beyond, line 49 rounds).  The code validates in
    any letter case until it is used or expires. *)
Theorem created_code_validates createdBy expiresInHours s :
  ENABLE_INVITATION_CODES = true ->
  length (fst (crypto_randomBytes 8 (outside s))) = 8%nat ->
  exists invitation s1,
    createInvitationCode createdBy expiresInHours s = (inr invitation, s1)
    /\ items s1
       = <[toInvitationKey (code invitation) := jsonCopy invitation]> (items s)
    /\ length (code invitation) = 16%nat
    /\ toUpperCase (code invitation) = code invitation
    /\ InvitationCodes.createdBy invitation = createdBy
    /\ used invitation = false
    /\ (expiresInHours = None \/ expiresInHours = Some 0%Z ->
        expiresAt invitation = None)
    /\ (forall hours,
          expiresInHours = Some hours ->
          hours <> 0%Z ->
          (Z.of_N (createdAt invitation) + Z.abs hours * 3600000 < 2 ^ 53)%Z ->
          expiresAt invitation
          = Some (Finite (Z.of_N (createdAt invitation) + hours * 3600000)))
    /\ forall presented,
         toUpperCase presented = code invitation ->
         exists s2,
           validateInvitationCode (VStr presented) s1
           = (inr (if expiredAt (timeAt s1) (jsonCopy invitation)
                   then rejected "Invitation code expired"
                   else accepted (jsonCopy invitation)), s2).
Proof.
  intros Hon Hlen. unfold createInvitationCode, generateInvitationCode.
  rewrite Hon. cbn [negb]. inv_eff.
  set (random := fst (crypto_randomBytes 8 (outside s))) in *.
  set (code := toUpperCase (hex random)).
  set (e1 := snd (crypto_randomBytes 8 (outside s))).
  unfold setItem. inv_eff. unfold pure.
  destruct (generated_code random) as [Hupper Hsize]. fold code in Hupper, Hsize.
  eexists _, _. split; [reflexivity|]. cbn [items InvitationCodes.code
    InvitationCodes.createdBy used expiresAt createdAt].
  split; [reflexivity|]. split; [lia|]. split; [exact Hupper|].
  split; [reflexivity|]. split; [reflexivity|].
  split.
  { intros [->| ->]; reflexivity. }
  split.
  { intros hours -> Hhours Hbound.
    destruct (Z.eqb_spec hours 0) as [?|_]; [done|].
    f_equal. by apply expiry_exact. }
  intros presented Hpresented.
  match goal with |- context [validateInvitationCode _ ?st] => set (s1 := st) end.
  match goal with |- context [accepted ?i] => set (stored := i) end.
  assert (Hne : presented <> []).
  { intros ->. assert (Hz : length code = 0%nat) by (rewrite <- Hpresented; reflexivity). lia. }
  destruct (validate_stored presented stored s1 Hon Hne) as (s2 & Hrun & _).
  { subst s1. cbn [items]. rewrite Hpresented. apply lookup_insert_eq. }
  exists s2. rewrite Hrun. subst stored. cbn [used jsonCopy]. reflexivity.
Qed.

Lemma validate_accepts code s invitation s' :
  ENABLE_INVITATION_CODES = true ->
  validateInvitationCode code s = (inr (Validation true None (Some invitation)), s') ->
  exists presented,
    code = VStr presented /\ presented <> []
    /\ items s !! toInvitationKey (toUpperCase presented) = Some invitation
    /\ used invitation = false
    /\ items s' = items s.
Proof.
  intros Hon. unfold validateInvitationCode. rewrite Hon. cbn [negb].
  destruct code as [| | | |presented| |]; try (unfold pure; discriminate).
  destruct presented as [|c rest]; [unfold pure; discriminate|].
  unfold getItem. rewrite andThen_gets.
  destruct (items s !! _) as [stored|] eqn:Hstored; [|unfold pure; discriminate].
  destruct (used stored) eqn:Hused; [unfold pure; discriminate|].
  destruct (isExpired_run stored s) as (s1 & Hrun & Hitems).
  unfold andThen. rewrite Hrun.
  destruct (expiredAt _ _); unfold pure; [discriminate|].
  intros [= <- <-]. exists (c :: rest). auto.
Qed.

Lemma validate_valid code s v s' :
  ENABLE_INVITATION_CODES = true ->
  validateInvitationCode code s = (inr v, s') ->
  valid v = true ->
  exists invitation, v = Validation true None (Some invitation).
Proof.
  intros Hon. unfold validateInvitationCode. rewrite Hon. cbn [negb].
  destruct code as [| | | |presented| |]; try (unfold pure; intros [= <- <-]; discriminate).
  destruct presented as [|c rest]; [unfold pure; intros [= <- <-]; discriminate|].
  unfold getItem. rewrite andThen_gets.
  destruct (items s !! _) as [stored|]; [|unfold pure; intros [= <- <-]; discriminate].
  destruct (used stored); [unfold pure; intros [= <- <-]; discriminate|].
  destruct (isExpired_run stored s) as (s1 & Hrun & Hitems).
  unfold andThen. rewrite Hrun.
  destruct (expiredAt _ _); unfold pure; intros [= <- <-]; [discriminate|eauto].
Qed.

Lemma validate_returns code s :
  exists v s', validateInvitationCode code s = (inr v, s') /\ items s' = items s.
Proof.
  unfold validateInvitationCode.
  destruct (negb ENABLE_INVITATION_CODES); [unfold pure; eauto|].
  destruct code as [| | | |presented| |]; try (unfold pure; eauto).
  destruct presented as [|c rest]; [unfold pure; eauto|].
  unfold getItem. rewrite andThen_gets.
  destruct (items s !! _) as [stored|]; [|unfold pure; eauto].
  destruct (used stored); [unfold pure; eauto|].
  destruct (isExpired_run stored s) as (s1 & Hrun & Hitems).
  unfold andThen. rewrite Hrun.
  destruct (expiredAt _ _); unfold pure; eauto.
Qed.

(** What a successful [useInvitationCode] did. *)
Lemma use_succeeds code usedBy s s1 :
  ENABLE_INVITATION_CODES = true ->
  useInvitationCode code usedBy s = (inr true, s1) ->
  exists presented invitation time,
    code = VStr presented /\ presented <> []
    /\ items s !! toInvitationKey (toUpperCase presented) = Some invitation
    /\ used invitation = false
    /\ items s1
       = <[toInvitationKey (toUpperCase presented) :=
             jsonCopy
               (Invitation (InvitationCodes.code invitation) (createdBy invitation)
                  (createdAt invitation) true (Some usedBy) (Some time)
                  (expiresAt invitation))]> (items s).
Proof.
  intros Hon. unfold useInvitationCode. rewrite Hon. cbn [negb].
  destruct (validate_returns code s) as (v & s' & Hrun & Hitems).
  unfold andThen at 1. rewrite Hrun.
  destruct (valid v) eqn:Hvalid; cbn [negb]; [|unfold pure; discriminate].
  destruct (validate_valid code s v s' Hon Hrun Hvalid) as [invitation ->].
  destruct (validate_accepts code s invitation s' Hon Hrun)
    as (presented & -> & Hne & Hitem & Hunused & _).
  cbn [InvitationCodes.invitation]. rewrite andThen_clock.
  unfold setItem. rewrite andThen_modify. unfold pure. intros [= <-].
  cbn [items]. rewrite Hitems. eauto 10.
Qed.

(** A code can be used once: after a successful [useInvitationCode] the
    code is reported as already used, and a second use fails and changes
    nothing. *)
Theorem invitation_is_single_use code usedBy s s1 :
  ENABLE_INVITATION_CODES = true ->
  useInvitationCode code usedBy s = (inr true, s1) ->
  validateInvitationCode code s1
  = (inr (rejected "Invitation code already used"), s1)
  /\ forall other, useInvitationCode code other s1 = (inr false, s1).
Proof.
  intros Hon Hused.
  destruct (use_succeeds code usedBy s s1 Hon Hused)
    as (presented & invitation & time & -> & Hne & Hitem & Hunused & Hitems).
  set (spent := jsonCopy (Invitation _ _ _ _ _ _ _)) in Hitems.
  destruct (validate_stored presented spent s1 Hon Hne) as (s2 & Hrun & _ & Hsame).
  { rewrite Hitems. apply lookup_insert_eq. }
  cbn [used spent] in Hrun, Hsame. rewrite (Hsame eq_refl) in Hrun.
  split; [exact Hrun|].
  intros other. unfold useInvitationCode. rewrite Hon. cbn [negb].
  unfold andThen. rewrite Hrun. reflexivity.
Qed.

Lemma deleteInvitationCode_run code s :
  ENABLE_INVITATION_CODES = true ->
  deleteInvitationCode code s
  = (inr (bool_decide (is_Some (items s !! toInvitationKey (toUpperCase code)))),
     Store (delete (toInvitationKey (toUpperCase code)) (items s)) (outside s)).
Proof.
  intros Hon. unfold deleteInvitationCode. rewrite Hon. cbn [negb].
  unfold getItem. rewrite andThen_gets.
  destruct (items s !! _) as [stored|] eqn:Hstored.
  - unfold removeItem. rewrite andThen_modify. unfold pure.
    rewrite bool_decide_true by eauto. reflexivity.
  - unfold pure. rewrite bool_decide_false by (intros [? ?]; done).
    rewrite delete_id by done. by destruct s.
Qed.

(** [deleteInvitationCode] tells whether the code was stored, removes
    that one item, and the code is unknown afterwards in any letter
    case. *)
Theorem deleted_code_is_unknown code s :
  ENABLE_INVITATION_CODES = true ->
  exists s1,
    deleteInvitationCode code s
    = (inr (bool_decide (is_Some (items s !! toInvitationKey (toUpperCase code)))), s1)
    /\ items s1 = delete (toInvitationKey (toUpperCase code)) (items s)
    /\ outside s1 = outside s
    /\ forall presented,
         presented <> [] ->
         toUpperCase presented = toUpperCase code ->
         validateInvitationCode (VStr presented) s1
         = (inr (rejected "Invitation code not found"), s1).
Proof.
  intros Hon. rewrite (deleteInvitationCode_run code s Hon).
  eexists. split; [reflexivity|]. cbn [items outside].
  split; [reflexivity|]. split; [reflexivity|].
  intros presented Hne Hsame. unfold validateInvitationCode. rewrite Hon. cbn [negb].
  destruct presented as [|c rest]; [done|].
  unfold getItem. rewrite andThen_gets. cbn [items].
  rewrite Hsame, lookup_delete_eq. reflexivity.
Qed.

Lemma startsWith_key code : startsWith (toInvitationKey code) INVITATION_PREFIX = true.
Proof.
  unfold startsWith, toInvitationKey. apply bool_decide_eq_true.
  by rewrite take_app_length.
Qed.

Lemma wellKeyed_insert s key invitation e :
  wellKeyed s ->
  key = toInvitationKey (toUpperCase (code invitation)) ->
  wellKeyed (Store (<[key := invitation]> (items s)) e).
Proof.
  intros Hs Hkey k stored. cbn [items].
  destruct (decide (key = k)) as [<-|Hne].
  - rewrite lookup_insert_eq. by intros [= <-] _.
  - rewrite lookup_insert_ne by done. apply Hs.
Qed.

Lemma wellKeyed_delete s key e :
  wellKeyed s -> wellKeyed (Store (delete key (items s)) e).
Proof.
  intros Hs k stored. cbn [items]. intros Hk.
  apply lookup_delete_Some in Hk as [_ Hk]. by apply Hs.
Qed.

Lemma wellKeyed_same s s' : items s' = items s -> wellKeyed s -> wellKeyed s'.
Proof. intros Heq Hs k stored. rewrite Heq. apply Hs. Qed.

Lemma createInvitationCode_wellKeyed createdBy expiresInHours s :
  wellKeyed s -> wellKeyed (snd (createInvitationCode createdBy expiresInHours s)).
Proof.
  intros Hs. unfold createInvitationCode, generateInvitationCode.
  destruct (negb ENABLE_INVITATION_CODES); [exact Hs|]. inv_eff.
  unfold setItem. inv_eff. unfold pure. cbn [snd].
  apply wellKeyed_insert.
  - intros k stored. cbn [items]. apply Hs.
  - cbn [code jsonCopy]. by rewrite (proj1 (generated_code _)).
Qed.

Lemma useInvitationCode_wellKeyed code usedBy s :
  wellKeyed s -> wellKeyed (snd (useInvitationCode code usedBy s)).
Proof.
  intros Hs. unfold useInvitationCode.
  destruct ENABLE_INVITATION_CODES eqn:Hon; cbn [negb]; [|exact Hs].
  destruct (validate_returns code s) as (v & s' & Hrun & Hitems).
  unfold andThen at 1. rewrite Hrun.
  assert (Hs' : wellKeyed s') by by apply (wellKeyed_same s).
  destruct (valid v) eqn:Hvalid; cbn [negb]; [|exact Hs'].
  destruct (validate_valid code s v s' Hon Hrun Hvalid) as [invitation ->].
  destruct (validate_accepts code s invitation s' Hon Hrun)
    as (presented & -> & Hne & Hitem & Hunused & _).
  cbn [InvitationCodes.invitation]. rewrite andThen_clock.
  unfold setItem. rewrite andThen_modify. unfold pure. cbn [snd items].
  apply wellKeyed_insert.
  - intros k stored. cbn [items]. apply Hs'.
  - cbn [InvitationCodes.code jsonCopy]. apply (Hs _ _ Hitem), startsWith_key.
Qed.

Lemma deleteInvitationCode_wellKeyed code s :
  wellKeyed s -> wellKeyed (snd (deleteInvitationCode code s)).
Proof.
  intros Hs. destruct ENABLE_INVITATION_CODES eqn:Hon.
  - rewrite (deleteInvitationCode_run code s Hon). by apply wellKeyed_delete.
  - unfold deleteInvitationCode. rewrite Hon. exact Hs.
Qed.

(** The three functions that write to the store keep every invitation
    under the key of its own code. *)
Theorem invitations_stay_under_their_code s :
  wellKeyed s ->
  (forall createdBy expiresInHours,
     wellKeyed (snd (createInvitationCode createdBy expiresInHours s)))
  /\ (forall code usedBy, wellKeyed (snd (useInvitationCode code usedBy s)))
  /\ (forall code, wellKeyed (snd (deleteInvitationCode code s))).
Proof.
  intros Hs. split; [|split]; intros.
  - by apply createInvitationCode_wellKeyed.
  - by apply useInvitationCode_wellKeyed.
  - by apply deleteInvitationCode_wellKeyed.
Qed.

Lemma collect_run (keys : list jsstring) s :
  collect keys s = (inr (omap (fun key => items s !! key) keys), s).
Proof.
  induction keys as [|key keys IH]; [reflexivity|].
  cbn [collect omap]. unfold getItem. rewrite andThen_gets.
  unfold andThen. rewrite IH. unfold pure. cbn [list_omap].
  by destruct (items s !! key).
Qed.

Lemma lookup_listed (m : gmap jsstring InvitationCode) (p : jsstring -> bool)
    (l : list (jsstring * InvitationCode)) :
  (forall key invitation, In (key, invitation) l -> m !! key = Some invitation) ->
  omap (fun key => m !! key) (List.filter p (map fst l))
  = map snd (List.filter (fun item => p (fst item)) l).
Proof.
  induction l as [|[key invitation] l IH]; intros Hl; [reflexivity|].
  cbn [map List.filter fst].
  assert (IH' := IH (fun k i Hin => Hl k i (or_intror Hin))).
  destruct (p key).
  - cbn [omap list_omap map snd]. rewrite (Hl key invitation (or_introl eq_refl)).
    f_equal. exact IH'.
  - exact IH'.
Qed.

Lemma getAllInvitationCodes_run s :
  ENABLE_INVITATION_CODES = true ->
  getAllInvitationCodes s = (inr (storedInvitations s), s).
Proof.
  intros Hon. unfold getAllInvitationCodes, keys. rewrite Hon. cbn [negb].
  rewrite andThen_gets. unfold andThen. rewrite collect_run. unfold pure.
  unfold storedInvitations. do 3 f_equal.
  apply lookup_listed. intros key invitation Hin.
  by apply elem_of_map_to_list, list_elem_of_In.
Qed.

Lemma In_insertNewestFirst x a l :
  In x (insertNewestFirst a l) <-> x = a \/ In x l.
Proof.
  induction l as [|b l IH]; cbn [insertNewestFirst In]; [intuition|].
  destruct (createdAt b <=? createdAt a); cbn [In]; [intuition|].
  rewrite IH. intuition.
Qed.

Lemma In_sortNewestFirst x l : In x (sortNewestFirst l) <-> In x l.
Proof.
  induction l as [|a l IH]; [reflexivity|].
  cbn [sortNewestFirst foldr]. fold (sortNewestFirst l).
  rewrite In_insertNewestFirst, IH. cbn [In]. intuition.
Qed.

Lemma sorted_insertNewestFirst a l :
  StronglySorted (fun x y => createdAt y <= createdAt x) l ->
  StronglySorted (fun x y => createdAt y <= createdAt x) (insertNewestFirst a l).
Proof.
  induction 1 as [|b l Hsorted IH Hall]; cbn [insertNewestFirst].
  - repeat constructor.
  - destruct (createdAt b <=? createdAt a) eqn:Hle.
    + apply N.leb_le in Hle. constructor; [by constructor|].
      constructor; [exact Hle|].
      eapply Forall_impl; [|exact Hall]. cbn. intros c Hc. lia.
    + apply N.leb_gt in Hle. constructor; [exact IH|].
      apply Forall_forall. intros c Hc. apply In_insertNewestFirst in Hc as [->|Hc].
      * lia.
      * rewrite Forall_forall in Hall. by apply Hall.
Qed.

Lemma sorted_sortNewestFirst l :
  StronglySorted (fun x y => createdAt y <= createdAt x) (sortNewestFirst l).
Proof.
  induction l as [|a l IH]; [constructor|].
  cbn [sortNewestFirst foldr]. by apply sorted_insertNewestFirst.
Qed.

Lemma In_storedInvitations invitation s :
  In invitation (storedInvitations s)
  <-> exists key,
        startsWith key INVITATION_PREFIX = true
        /\ items s !! key = Some invitation.
Proof.
  unfold storedInvitations. rewrite In_sortNewestFirst, in_map_iff. split.
  - intros ([key i] & Hsnd & Hin). cbn in Hsnd. subst i.
    apply filter_In in Hin as [Hin Hprefix]. exists key. split; [exact Hprefix|].
    by apply elem_of_map_to_list, list_elem_of_In.
  - intros (key & Hprefix & Hitem). exists (key, invitation). split; [reflexivity|].
    apply filter_In. split; [|exact Hprefix].
    by apply list_elem_of_In, elem_of_map_to_list.
Qed.

(** [getAllInvitationCodes] returns the items stored under the prefix,
    each one once per key, newest first, and leaves the store alone. *)
Theorem getAllInvitationCodes_newest_first s :
  ENABLE_INVITATION_CODES = true ->
  exists invitations,
    getAllInvitationCodes s = (inr invitations, s)
    /\ (forall invitation,
          In invitation invitations
          <-> exists key,
                startsWith key INVITATION_PREFIX = true
                /\ items s !! key = Some invitation)
    /\ StronglySorted (fun a b => createdAt b <= createdAt a) invitations
    /\ length invitations
       = length (List.filter (fun item => startsWith (fst item) INVITATION_PREFIX)
                   (map_to_list (items s))).
Proof.
  intros Hon. exists (storedInvitations s).
  split; [by apply getAllInvitationCodes_run|].
  split; [intros; apply In_storedInvitations|].
  split; [apply sorted_sortNewestFirst|].
  unfold storedInvitations.
  assert (Hlen : forall l, length (sortNewestFirst l) = length l).
  { induction l as [|a l IH]; [reflexivity|].
    cbn [sortNewestFirst foldr length]. fold (sortNewestFirst l). rewrite <- IH.
    generalize (sortNewestFirst l). intros sorted.
    induction sorted as [|b sorted IHs]; [reflexivity|].
    cbn [insertNewestFirst]. destruct (_ <=? _); cbn [length]; [reflexivity|].
    by rewrite IHs. }
  by rewrite Hlen, length_map.
Qed.

(** The store after the loop of [cleanupExpiredInvitationCodes]. *)
Lemma cleanupLoop_run (Hon : ENABLE_INVITATION_CODES = true) invitations time :
  forall count s,
    count <= 9007199254740992 ->
    exists s1,
      cleanupLoop invitations time count s
      = (inr (N.min (count + N.of_nat (length (List.filter (expiredAt time) invitations)))
                9007199254740992), s1)
      /\ forall key,
           items s1 !! key
           = if existsb (fun invitation =>
                           expiredAt time invitation
                           && bool_decide (keyOf invitation = key)) invitations
             then None else items s !! key.
Proof.
  induction invitations as [|invitation rest IH]; intros count s Hcount.
  - exists s. cbn [cleanupLoop List.filter length existsb]. unfold pure.
    split; [|done]. f_equal. f_equal. lia.
  - cbn [cleanupLoop List.filter existsb].
    change (match expiresAt invitation with
            | Some (Finite expiry) =>
                negb (expiry =? 0)%Z && (expiry <? Z.of_N time)%Z
            | Some (Infinite negative) => negative
            | None => false
            end) with (expiredAt time invitation).
    destruct (expiredAt time invitation) eqn:Hexpired.
    + unfold andThen at 1.
      rewrite (deleteInvitationCode_run _ s Hon).
      destruct (IH (increment count)
                  (Store (delete (toInvitationKey (toUpperCase (code invitation)))
                            (items s)) (outside s)))
        as (s1 & Hrun & Hitems); [unfold increment; lia|].
      exists s1. rewrite Hrun. split.
      * f_equal. f_equal. cbn [length]. unfold increment. lia.
      * intros key. rewrite Hitems. cbn [items andb].
        fold (keyOf invitation).
        destruct (decide (keyOf invitation = key)) as [->|Hne].
        -- rewrite bool_decide_true by done. cbn [orb].
           rewrite lookup_delete_eq. by destruct (existsb _ _).
        -- rewrite bool_decide_false by done. cbn [orb].
           by rewrite lookup_delete_ne.
    + cbn [andb orb]. apply IH; exact Hcount.
Qed.

(** [cleanupExpiredInvitationCodes] returns the number of invitations
    that had expired at the time it read, and removes exactly those: every
    other item of the store is left as it was. *)
Theorem cleanup_removes_the_expired s :
  ENABLE_INVITATION_CODES = true ->
  wellKeyed s ->
  exists s1,
    cleanupExpiredInvitationCodes s
    = (inr (saturated (N.of_nat (length
              (List.filter (expiredAt (timeAt s)) (storedInvitations s))))), s1)
    /\ forall key,
         items s1 !! key
         = match items s !! key with
           | Some invitation =>
               if startsWith key INVITATION_PREFIX
                  && expiredAt (timeAt s) invitation
               then None else Some invitation
           | None => None
           end.
Proof.
  intros Hon Hkeyed. unfold cleanupExpiredInvitationCodes. rewrite Hon. cbn [negb].
  unfold andThen at 1. rewrite (getAllInvitationCodes_run s Hon).
  rewrite andThen_clock. fold (timeAt s).
  destruct (cleanupLoop_run Hon (storedInvitations s) (timeAt s) 0
              (Store (items s) (snd (clock_now (outside s)))))
    as (s1 & Hrun & Hitems); [lia|].
  exists s1. rewrite Hrun. split; [reflexivity|].
  intros key. rewrite Hitems. cbn [items].
  destruct (existsb _ _) eqn:Hex.
  - apply existsb_exists in Hex as (invitation & Hin & Htest).
    apply andb_true_iff in Htest as [Hexpired Hkey].
    apply bool_decide_eq_true in Hkey.
    apply In_storedInvitations in Hin as (key' & Hprefix & Hitem).
    assert (key' = key) by (rewrite <- Hkey; by apply Hkeyed). subst key'.
    by rewrite Hitem, Hprefix, Hexpired.
  - destruct (items s !! key) as [invitation|] eqn:Hitem; [|reflexivity].
    destruct (startsWith key INVITATION_PREFIX && expiredAt (timeAt s) invitation)
      eqn:Htest; [|reflexivity].
    apply andb_true_iff in Htest as [Hprefix Hexpired].
    assert (Hcontra : existsb (fun invitation =>
                         expiredAt (timeAt s) invitation
                         && bool_decide (keyOf invitation = key))
                        (storedInvitations s) = true).
    { apply existsb_exists. exists invitation. split.
      - apply In_storedInvitations. eauto.
      - rewrite Hexpired. cbn [andb]. apply bool_decide_eq_true.
        symmetry. by apply Hkeyed. }
    congruence.
Qed.

(** [validateInvitationCode] returns for every argument and leaves the
    stored items as they are; and it answers [valid] only for a string
    under whose upper-case form an invitation is stored that is neither
    used nor expired: that invitation is the one it returns. *)
Theorem valid_code_is_stored_and_unspent code s :
  ENABLE_INVITATION_CODES = true ->
  exists v s',
    validateInvitationCode code s = (inr v, s')
    /\ items s' = items s
    /\ (valid v = true ->
        exists presented invitation,
          code = VStr presented
          /\ items s !! toInvitationKey (toUpperCase presented) = Some invitation
          /\ used invitation = false
          /\ expiredAt (timeAt s) invitation = false
          /\ v = accepted invitation).
Proof.
  intros Hon. unfold validateInvitationCode. rewrite Hon. cbn [negb].
  destruct code as [| | | |presented| |];
    try (unfold pure; eexists _, _; split; [reflexivity|]; split; [reflexivity|];
         cbn [valid]; discriminate).
  destruct presented as [|c rest];
    [unfold pure; eexists _, _; split; [reflexivity|]; split; [reflexivity|];
     cbn [valid]; discriminate|].
  unfold getItem. rewrite andThen_gets.
  destruct (items s !! _) as [stored|] eqn:Hstored;
    [|unfold pure; eexists _, _; split; [reflexivity|]; split; [reflexivity|];
      cbn [valid]; discriminate].
  destruct (used stored) eqn:Hused;
    [unfold pure; eexists _, _; split; [reflexivity|]; split; [reflexivity|];
     cbn [valid]; discriminate|].
  destruct (isExpired_run stored s) as (s1 & Hrun & Hitems).
  unfold andThen. rewrite Hrun.
  destruct (expiredAt (timeAt s) stored) eqn:Hexpired; unfold pure;
    eexists _, _; (split; [reflexivity|]); (split; [exact Hitems|]);
    cbn [valid]; [discriminate|].
  intros _. exists (c :: rest), stored. auto.
Qed.
End InvitationFacts.

(** ** The other routes of the card endpoint *)
Section RouteFacts.
Context `{Runtime}.

(** [router.post('/get')] reads only: it answers 400 without a name, 404
    when the artifact is not in the public directory, and otherwise 200
    with the entry of the artifact, which is the stub when its metadata
    cannot be read; it never answers 500. *)
Theorem getCharacter_answers character_name w :
  getCharacter character_name w
  = (inr match artifactOf character_name with
         | None => nameRequired
         | Some (InPublic item) =>
             if bool_decide (is_Some (files w !! InPublic item))
             then Response 200 (entryOf w item)
             else notFound
         | Some (Outside _) => notFound
         end, w).
Proof.
  unfold getCharacter, artifactOf.
  destruct character_name as [[|c n]|]; try reflexivity.
  unfold tryCatch, bind, existsSync. cbn [fst snd].
  destruct (bool_decide _); cbn [negb]; [|reflexivity].
  destruct (processCharacter_entry ((c :: n) ++ js ".png") w) as [-> _].
  reflexivity.
Qed.

(** [router.post('/delete')] answers 200, 400, 403 or 404, never 500; it
    removes the named artifact when it answers 200 and changes nothing
    when it does not. *)
Theorem deleteCharacter_refusal_changes_nothing request w :
  exists answer,
    deleteCharacter request w
    = (inr answer,
       match artifactOf (character_name request) with
       | Some artifact =>
           if status answer =? 200 then removeFile artifact w else w
       | None => w
       end)
    /\ (answer = deleted /\ is_Some (artifactOf (character_name request))
        \/ answer = nameRequired /\ artifactOf (character_name request) = None
        \/ answer = permissionDenied
        \/ answer = notFound).
Proof.
  destruct request as [name handle admin]. cbn [character_name].
  destruct name as [[|c n]|].
  - exists nameRequired. unfold deleteCharacter, artifactOf. cbn. auto.
  - cbn [artifactOf].
    destruct (files w !! InPublic ((c :: n) ++ js ".png")) as [artifact|] eqn:Hfile.
    + rewrite (deleteCharacter_decision c n handle admin w artifact Hfile).
      destruct (_ && _).
      * exists permissionDenied. auto.
      * exists deleted. split; [reflexivity|]. left. eauto.
    + rewrite (deleteCharacter_not_found c n handle admin w Hfile).
      exists notFound. auto.
  - exists nameRequired. unfold deleteCharacter, artifactOf. cbn. auto.
Qed.

Tactic Notation "step" hyp(H) "as" ident(a) :=
  let w1 := fresh "w" in
  apply bind_returns in H as (a & w1 & Hstep & H); cbv beta in H.

Lemma stub_names_an_uploader item :
  getProp (stub item) (js "uploader") = inr (VStr (js "Unknown"))
  /\ getProp (stub item) (js "uploader_handle") = inr (VStr (js "unknown")).
Proof. split; reflexivity. Qed.

Lemma truthy_orElse a b : truthy b = true -> truthy (orElse a b) = true.
Proof. intros Hb. unfold orElse. by destruct (truthy a) eqn:Ha. Qed.

(** What [processCharacter] returns when it did not fall back to the
    stub: the last object of its chain of assignments. *)
Lemma processCharacter_assigned item w c :
  processCharacter item w = (inr c, w) ->
  c = stub item
  \/ exists uploader uploader_handle,
       getProp c (js "uploader") = inr (orElse uploader (VStr (js "Unknown")))
       /\ getProp c (js "uploader_handle")
          = inr (orElse uploader_handle (VStr (js "unknown"))).
Proof.
  unfold processCharacter, tryCatch.
  match goal with
  | |- context [match ?body w with _ => _ end] =>
      destruct (body w) as [[e|character] w1] eqn:Hbody
  end.
  { unfold ret. intros [= <-]. by left. }
  intros [= -> ->]. right. cbv zeta in Hbody.
  step Hbody as imgData. clear Hstep.
  destruct imgData as [imgData|]; [|done].
  step Hbody as jsonObject. clear Hstep.
  step Hbody as c1. clear Hstep.
  step Hbody as c2. clear Hstep.
  step Hbody as charStat. clear Hstep.
  step Hbody as c3. clear Hstep.
  step Hbody as create_date. clear Hstep.
  step Hbody as c4. clear Hstep.
  step Hbody as uploader. clear Hstep.
  step Hbody as c5. apply lift_returns in Hstep as [H5 _].
  step Hbody as uploader_handle. clear Hstep.
  step Hbody as c6. apply lift_returns in Hstep as [H6 _].
  step Hbody as description. clear Hstep.
  step Hbody as c7. apply lift_returns in Hstep as [H7 _].
  step Hbody as tags. clear Hstep.
  apply lift_returns in Hbody as [H8 _].
  exists uploader, uploader_handle. split.
  - rewrite (getProp_setProp_ne _ _ _ _ _ H8) by (vm_compute; congruence).
    rewrite (getProp_setProp_ne _ _ _ _ _ H7) by (vm_compute; congruence).
    rewrite (getProp_setProp_ne _ _ _ _ _ H6) by (vm_compute; congruence).
    by apply (getProp_setProp_eq _ _ _ _ H5).
  - rewrite (getProp_setProp_ne _ _ _ _ _ H8) by (vm_compute; congruence).
    rewrite (getProp_setProp_ne _ _ _ _ _ H7) by (vm_compute; congruence).
    by apply (getProp_setProp_eq _ _ _ _ H6).
Qed.

(** Every entry that [processCharacter] returns names an uploader and a
    handle, for every file name and every state: those of the record, or
    [Unknown] and [unknown] where the record has none or cannot be read. *)
Theorem entry_names_an_uploader item w :
  exists uploader uploader_handle,
    getProp (entryOf w item) (js "uploader") = inr uploader
    /\ truthy uploader = true
    /\ getProp (entryOf w item) (js "uploader_handle") = inr uploader_handle
    /\ truthy uploader_handle = true.
Proof.
  destruct (processCharacter_entry item w) as [Hrun _].
  destruct (processCharacter_assigned item w _ Hrun) as [->|(u & h & Hu & Hh)].
  - exists (VStr (js "Unknown")), (VStr (js "unknown")). repeat split.
  - rewrite Hu, Hh. eexists _, _.
    split; [reflexivity|]. split; [by apply truthy_orElse|].
    split; [reflexivity|]. by apply truthy_orElse.
Qed.



Lemma named_if_written (result : bool) (pngName fileName : jsstring) w w1 :
  ret (if result then pngName else []) w1 = (inr fileName, w) ->
  safeName pngName -> safeName fileName.
Proof.
  intros Hret Hsafe. apply ret_returns in Hret as [-> _].
  destruct result; [exact Hsafe | by constructor].
Qed.

Lemma getPngNameValue_safe v name :
  getPngNameValue v = inr name -> safeName name.
Proof.
  unfold getPngNameValue. destruct (sanitizeValue v); [done|].
  intros [= <-]. apply replaceSpecial_safe.
Qed.

Lemma derived_name_importFromYaml uploadPath h n w fileName w' :
  importFromYaml uploadPath h n None w = (inr fileName, w') -> safeName fileName.
Proof.
  intros Hrun. unfold importFromYaml in Hrun.
  step Hrun as fileBytes. clear Hstep.
  step Hrun as u. clear Hstep.
  step Hrun as yamlData0. clear Hstep.
  step Hrun as rawName. clear Hstep.
  step Hrun as name. clear Hstep.
  step Hrun as yamlData. clear Hstep.
  step Hrun as pngName. apply ret_returns in Hstep as [-> _].
  step Hrun as context. clear Hstep.
  step Hrun as greeting. clear Hstep.
  step Hrun as create_date. clear Hstep.
  step Hrun as chat_date. clear Hstep.
  step Hrun as tags. clear Hstep.
  cbv zeta in Hrun. step Hrun as result. clear Hstep.
  eapply named_if_written; [exact Hrun|]. apply replaceSpecial_safe.
Qed.

Lemma derived_name_importFromJson uploadPath h n w fileName w' :
  importFromJson uploadPath h n None w = (inr fileName, w') -> safeName fileName.
Proof.
  intros Hrun. unfold importFromJson in Hrun.
  step Hrun as fileBytes. clear Hstep.
  step Hrun as u. clear Hstep.
  step Hrun as jsonData. clear Hstep.
  step Hrun as spec. clear Hstep.
  destruct (isDefined spec).
  - step Hrun as card. clear Hstep.
    step Hrun as stamped. clear Hstep.
    step Hrun as pngName. cbn [preservedOr] in Hstep.
    apply bind_returns in Hstep as (dn & ? & _ & Hstep); cbv beta in Hstep.
    apply bind_returns in Hstep as (name & ? & _ & Hstep); cbv beta in Hstep.
    apply lift_returns in Hstep as [Hname _].
    cbv zeta in Hrun. step Hrun as result. clear Hstep.
    eapply named_if_written; [exact Hrun|]. by eapply getPngNameValue_safe.
  - step Hrun as name. clear Hstep.
    destruct (isDefined name).
    + step Hrun as stamped. clear Hstep.
      step Hrun as pngName. cbn [preservedOr] in Hstep.
      apply bind_returns in Hstep as (name' & ? & _ & Hstep); cbv beta in Hstep.
      apply lift_returns in Hstep as [Hname _].
      cbv zeta in Hrun. step Hrun as result. clear Hstep.
      eapply named_if_written; [exact Hrun|]. by eapply getPngNameValue_safe.
    + apply ret_returns in Hrun as [-> _]. constructor.
Qed.

Lemma derived_name_importFromPng uploadPath h n w fileName w' :
  importFromPng uploadPath h n None w = (inr fileName, w') -> safeName fileName.
Proof.
  intros Hrun. unfold importFromPng in Hrun.
  apply cleanup_returns in Hrun.
  step Hrun as fileBuffer. clear Hstep.
  cbv zeta in Hrun.
  destruct (negb _); [done|].
  step Hrun as found. clear Hstep.
  destruct found as [imgData|]; [|done].
  step Hrun as jsonData0. clear Hstep.
  step Hrun as name0. clear Hstep.
  step Hrun as dataName0. clear Hstep.
  destruct (_ && _); [done|].
  step Hrun as sanitized. clear Hstep.
  step Hrun as jsonData. clear Hstep.
  step Hrun as pngName. apply ret_returns in Hstep as [-> _].
  step Hrun as spec. clear Hstep.
  destruct (isDefined spec).
  - step Hrun as card. clear Hstep.
    step Hrun as stamped. clear Hstep.
    cbv zeta in Hrun.
    step Hrun as result. clear Hstep.
    step Hrun as u. clear Hstep.
    eapply named_if_written; [exact Hrun|]. apply replaceSpecial_safe.
  - step Hrun as name. clear Hstep.
    destruct (isDefined name); [|done].
    step Hrun as stamped. clear Hstep.
    cbv zeta in Hrun.
    step Hrun as result. clear Hstep.
    step Hrun as u. clear Hstep.
    eapply named_if_written; [exact Hrun|]. apply replaceSpecial_safe.
Qed.

Lemma derived_name_safe f uploadPath h n w fileName w' :
  callImport f uploadPath h n None w = (inr fileName, w') -> safeName fileName.
Proof.
  destruct f; cbn [callImport];
    eauto using derived_name_importFromYaml, derived_name_importFromJson,
      derived_name_importFromPng.
Qed.

(** [router.post('/upload')] answers 200 or 400.  When it answers 200
    the body names a file that is not empty and that is in the public
    directory afterwards; and unless the request preserved a name, that
    name is made of ASCII letters, digits, [_] and the ideographs
    [U+4E00] to [U+9FFF] only. *)
Theorem upload_answers request w :
  formatKey (file_type request) ∉ objectPrototypeMembers ->
  (exists fileName,
     fst (upload request w) = inr (uploaded fileName)
     /\ fileName <> []
     /\ is_Some (files (snd (upload request w)) !! InPublic (fileName ++ js ".png"))
     /\ (getPreservedName (preserved_name request) = None -> safeName fileName))
  \/ exists message, fst (upload request w) = inr (refused message).
Proof.
  intros Hformat. unfold upload.
  assert (Hfound : forall name,
            formatImportFunctions (file_type request) <> InheritedMember name).
  { intros name Hname. apply Hformat.
    pose proof (formatImportFunctions_inherited _ _ Hname) as ->.
    unfold formatImportFunctions in Hname.
    repeat match type of Hname with
    | (if bool_decide ?P then _ else _) = _ =>
        destruct (bool_decide_reflect P); try discriminate
    end; assumption. }
  destruct (formatImportFunctions (file_type request)) as [f| |name];
    [| |by destruct (Hfound name)].
  all: clear Hfound Hformat.
  all: assert (Hrefuse : forall (err : exn) (w1 : world),
            exists message w2,
              (do stillThere <- existsSync (Outside (upload_path request));
               run (if stillThere then
                      tryCatch (unlinkSync (Outside (upload_path request)))
                        (fun cleanupError => ret tt)
                    else ret tt);
               ret (refused (match message_of err with
                             | [] => js "Upload failed"
                             | m => m
                             end))) w1
              = (inr (refused message), w2));
    [intros err w1; unfold bind, existsSync; cbn [fst snd];
     destruct (bool_decide _);
     [unfold tryCatch; destruct (unlinkSync _ w1) as [[e|[]] w2]; unfold ret; eauto
     |unfold ret; eauto]|].
  2:{ right.
      destruct (Hrefuse (Error (js "Unsupported format: " ++ formatKey (file_type request))) w)
        as (message & w2 & Hrefused).
      exists message.
      assert (Heq : uploadWith Absent request w = (inr (refused message), w2))
        by (rewrite <- Hrefused; reflexivity).
      by rewrite Heq. }
  destruct (callImport f (upload_path request) (user_handle request)
              (user_name request) (getPreservedName (preserved_name request)) w)
    as [[e|fileName] w1] eqn:Hrun.
  { right. destruct (Hrefuse e w1) as (message & w2 & Hrefused).
    exists message.
    assert (Heq : uploadWith (OwnDriver f) request w = (inr (refused message), w2)).
    { rewrite <- Hrefused. unfold uploadWith. cbv zeta.
      unfold tryCatch at 1, bind at 1. by rewrite Hrun. }
    by rewrite Heq. }
  assert (Hup : uploadWith (OwnDriver f) request w
                = (inr (if bool_decide (fileName = [])
                        then refused (js "Failed to import character")
                        else uploaded fileName), w1)).
  { unfold uploadWith. cbv zeta. unfold tryCatch at 1, bind at 1. rewrite Hrun.
    by destruct (bool_decide (fileName = [])). }
  rewrite Hup. cbn [fst snd].
  destruct (bool_decide (fileName = [])) eqn:Hempty; [right; eauto|].
  apply bool_decide_eq_false in Hempty.
  left. exists fileName.
  split; [reflexivity|]. split; [exact Hempty|]. split.
  - destruct (accepted_import _ _ _ _ _ _ _ _ Hrun Hempty)
      as (record & (image & stored & _ & Hfile) & _).
    rewrite Hfile. eauto.
  - intros Hnone. rewrite Hnone in Hrun. by eapply derived_name_safe.
Qed.

Lemma stamp_total j h n w :
  objectLike j -> exists r, stamp j h n w = (inr r, w).
Proof.
  intros Hobj. unfold stamp, bind, humanizedNow, bind, dateNow, ret, lift.
  destruct (setProp_total j (js "create_date")
              (VStr (humanizedISO8601DateTime (clock w))) Hobj) as (j1 & -> & O1).
  destruct (setProp_total j1 (js "uploader") (VStr n) O1) as (j2 & -> & O2).
  destruct (setProp_total j2 (js "uploader_handle") (VStr h) O2) as (j3 & -> & O3).
  eauto.
Qed.

Lemma named_is_objectLike v k s : getProp v k = inr (VStr s) -> objectLike v.
Proof. destruct v; cbn; intros Hk; try exact I; discriminate. Qed.

(** A JSON card whose name the sanitiser erases is stored all the same,
    as the artifact [.png], while the upload is answered with 400
    [Failed to import character]: the file is written before the
    emptiness of its name is looked at. *)
Theorem nameless_card_is_stored_but_refused request w document payload s avatar :
  file_type request = Some (js "json") ->
  getPreservedName (preserved_name request) = None ->
  files w !! Outside (upload_path request) = Some document ->
  JSON_parse (utf8_toString (content document)) = inr payload ->
  getProp payload (js "spec") = inr VUndefined ->
  getProp payload (js "name") = inr (VStr s) ->
  getPngName s = [] ->
  upload_path request <> DEFAULT_AVATAR_PATH ->
  files w !! Outside DEFAULT_AVATAR_PATH = Some avatar ->
  (forall data, exists stored,
     write (chosenImage (ArgString DEFAULT_AVATAR_PATH) None avatar
              (removeFile (Outside (upload_path request)) w)) data
     = inr stored) ->
  exists stored w',
    upload request w = (inr (refused (js "Failed to import character")), w')
    /\ files w' !! InPublic (js ".png") = Some (File stored (clock w)).
Proof.
  intros Htype Hpreserved Hfile Hparse Hspec Hname Hempty Hne Havatar Hwrite.
  assert (Hjob : upload request = uploadWith (OwnDriver ImportJson) request).
  { unfold upload, formatImportFunctions. rewrite Htype. reflexivity. }
  set (w1 := removeFile (Outside (upload_path request)) w) in *.
  destruct (stamp_total payload (user_handle request) (user_name request) w1
              (named_is_objectLike _ _ _ Hname)) as (stamped & Hstamp).
  destruct (stamp_returns _ _ _ _ _ _ Hstamp) as (_ & _ & Hsame).
  assert (Hstamped : getProp stamped (js "name") = inr (VStr s)).
  { destruct (Hsame (js "name")) as [-> _]; [|exact Hname].
    unfold stampKeys. intros Hin.
    repeat (apply elem_of_cons in Hin as [Hin|Hin]; [by vm_compute in Hin|]).
    by apply elem_of_nil in Hin. }
  assert (Havatar1 : files w1 !! Outside DEFAULT_AVATAR_PATH = Some avatar).
  { subst w1. cbn [files removeFile]. rewrite lookup_delete_ne; [exact Havatar|].
    intros [= Heq]. by apply Hne. }
  set (image0 := chosenImage (ArgString DEFAULT_AVATAR_PATH) None avatar w1) in *.
  destruct (Hwrite (JSON_stringify stamped)) as (stored & Hstored).
  assert (Himport : importFromJson (upload_path request) (user_handle request)
                      (user_name request) None w
                    = (inr [], putFile (InPublic (js ".png")) stored w1)).
  { unfold importFromJson.
    unfold bind at 1, readFileSync at 1. rewrite Hfile.
    unfold bind at 1, unlinkSync at 1. rewrite Hfile. fold w1.
    change {| files := delete (Outside (upload_path request)) (files w);
              clock := clock w;
              unlinkLog := unlinkLog w ++ [(Outside (upload_path request), true)] |}
      with w1.
    unfold bind at 1, lift at 1. rewrite Hparse.
    unfold bind at 1, lift at 1. rewrite Hspec. cbn [isDefined].
    unfold bind at 1, lift at 1. rewrite Hname. cbn [isDefined].
    unfold bind at 1. rewrite Hstamp.
    unfold bind at 1. cbn [preservedOr].
    unfold bind at 1, lift at 1. rewrite Hstamped.
    unfold lift at 1. unfold getPngNameValue, sanitizeValue.
    fold (getPngName s). rewrite Hempty.
    unfold bind at 1, writeCharacterData, tryCatch, bind.
    rewrite (getInputImage_chosen _ _ _ _ Havatar1). fold image0.
    unfold lift. rewrite Hstored.
    unfold writeFileAtomicSync, statSync. cbn [files app].
    rewrite lookup_insert_eq. reflexivity. }
  exists stored, (putFile (InPublic (js ".png")) stored w1).
  split.
  - rewrite Hjob. unfold uploadWith. cbv zeta. unfold tryCatch at 1, bind at 1.
    rewrite Hpreserved. cbn [callImport]. rewrite Himport. reflexivity.
  - cbn [files putFile]. rewrite lookup_insert_eq. reflexivity.
Qed.
End RouteFacts.

(** ** Evaluation on concrete inputs *)
Section MonitorEvaluation.
Import SystemMonitor.
Local Open Scope eff_scope.
#[local] Existing Instance DemoPlatform.platform.
Import DemoPlatform.

Lemma recordChatMessage_totals_witness :
  userLoadStats idle !! js "alice" = None
  /\ totalMessages (previous (snd (recordEach calls idle)) (js "alice")) = 3
  /\ totalUserMessages (previous (snd (recordEach calls idle)) (js "alice")) = 1.
Proof.
  assert (Hnone : userLoadStats idle !! js "alice" = None) by reflexivity.
  split; [exact Hnone|].
  destruct (recordChatMessage_totals calls idle (js "alice") Hnone) as (Ht & Hu & _).
  split; [exact Ht | exact Hu].
Defined.

Lemma total_is_sum_of_days_witness :
  let stats := previous (snd (recordEach calls idle)) (js "alice") in
  userLoadStats (snd (recordEach calls idle)) !! js "alice" = Some stats
  /\ totalMessages stats = sumMessages (dailyStats stats).
Proof.
  cbn zeta.
  assert (Hstats : userLoadStats (snd (recordEach calls idle)) !! js "alice"
                   = Some (previous (snd (recordEach calls idle)) (js "alice")))
    by (vm_compute; reflexivity).
  split; [exact Hstats|].
  apply (total_is_sum_of_days calls idle (js "alice") _ eq_refl Hstats).
  vm_compute. reflexivity.
Defined.

Lemma proto_name_reaches_Object_prototype_witness :
  exists t m',
    recordUserChatActivity (js "alice") (VStr (js "user")) (character "__proto__") idle
    = (inr tt, m')
    /\ prototypeLastChat m' = Some t.
Proof.
  destruct (proto_name_reaches_Object_prototype (js "alice") (VStr (js "user"))
              (character "__proto__") idle eq_refl eq_refl)
    as (t & m' & Hrun & Hproto & _).
  exists t, m'. split; [exact Hrun | exact Hproto].
Defined.

Lemma trackChatActivity_records_nothing_witness :
  trackChatActivity settingsRead fresh idle
  = (inr (TrackedResponse true 200), idle).
Proof.
  apply (trackChatActivity_records_nothing settingsRead fresh idle eq_refl).
  left. vm_compute. discriminate.
Defined.

Lemma chat_is_plain : Forall (fun message => plainMessage message = true) chat.
Proof. repeat constructor. Qed.

Lemma recordChatHistory_counts_witness :
  exists m',
    recordChatHistory (js "alice") (VArr chat []) idle = (inr tt, m')
    /\ totalMessages (previous m' (js "alice")) = 2.
Proof.
  destruct (recordChatHistory_counts (js "alice") chat [] idle chat_is_plain)
    as (m' & Hrun & _ & Htotal).
  { vm_compute. discriminate. }
  exists m'. split; [exact Hrun | exact Htotal].
Defined.

Lemma saved_chat_is_counted_witness :
  exists m',
    trackChatActivity savedChat fresh idle = (inr (TrackedResponse true 200), m')
    /\ totalMessages (previous m' (js "alice")) = 2.
Proof.
  destruct (saved_chat_is_counted savedChat fresh chat [] [] idle
              eq_refl eq_refl eq_refl eq_refl chat_is_plain)
    as (m' & Hrun & Htotal).
  { vm_compute. discriminate. }
  exists m'. split; [exact Hrun | exact Htotal].
Defined.
End MonitorEvaluation.

Section InvitationEvaluation.
Import Sorting.Sorted.
Import InvitationCodes.
Local Open Scope eff_scope.
#[local] Existing Instance DemoServices.demo.
Import DemoServices.

Lemma created_code_validates_witness :
  exists invitation s1,
    createInvitationCode (js "admin") (Some 24%Z) blank = (inr invitation, s1)
    /\ length (code invitation) = 16%nat
    /\ createdAt invitation = 1700000001000
    /\ expiresAt invitation = Some (Finite 1700086401000).
Proof.
  destruct (created_code_validates (js "admin") (Some 24%Z) blank eq_refl eq_refl)
    as (invitation & s1 & Hrun & _ & Hlen & _ & _ & _ & _ & Hexact & _).
  assert (Hcreated : createdAt invitation = 1700000001000).
  { assert (Hfst : fst (createInvitationCode (js "admin") (Some 24%Z) blank)
                   = inr invitation) by (by rewrite Hrun).
    vm_compute in Hfst. injection Hfst as <-. reflexivity. }
  exists invitation, s1. split; [exact Hrun|]. split; [exact Hlen|].
  split; [exact Hcreated|].
  rewrite (Hexact 24%Z eq_refl) by (rewrite ?Hcreated; vm_compute; congruence).
  rewrite Hcreated. reflexivity.
Defined.

Lemma firstCode_used :
  useInvitationCode firstCode (js "bob") lasting
  = (inr true, snd (useInvitationCode firstCode (js "bob") lasting)).
Proof. vm_compute. reflexivity. Qed.

Lemma invitation_is_single_use_witness :
  validateInvitationCode firstCode
    (snd (useInvitationCode firstCode (js "bob") lasting))
  = (inr (rejected "Invitation code already used"),
     snd (useInvitationCode firstCode (js "bob") lasting))
  /\ useInvitationCode firstCode (js "carol")
       (snd (useInvitationCode firstCode (js "bob") lasting))
     = (inr false, snd (useInvitationCode firstCode (js "bob") lasting)).
Proof.
  destruct (invitation_is_single_use firstCode (js "bob") lasting _ eq_refl
              firstCode_used) as [Hvalidate Huse].
  split; [exact Hvalidate | exact (Huse (js "carol"))].
Defined.

Lemma deleted_code_is_unknown_witness :
  exists s1,
    deleteInvitationCode (js "0000000000000000") lasting = (inr true, s1)
    /\ validateInvitationCode firstCode s1
       = (inr (rejected "Invitation code not found"), s1).
Proof.
  destruct (deleted_code_is_unknown (js "0000000000000000") lasting eq_refl)
    as (s1 & Hrun & _ & _ & Hgone).
  exists s1. split; [exact Hrun|].
  apply Hgone; [discriminate|reflexivity].
Defined.

Lemma blank_wellKeyed : wellKeyed blank.
Proof. intros key invitation Hitem. cbn in Hitem. by rewrite lookup_empty in Hitem. Qed.

Lemma stale_wellKeyed : wellKeyed stale.
Proof. apply createInvitationCode_wellKeyed, createInvitationCode_wellKeyed, blank_wellKeyed. Qed.

Lemma invitations_stay_under_their_code_witness :
  wellKeyed (snd (useInvitationCode firstCode (js "bob") stale)).
Proof.
  exact (proj1 (proj2 (invitations_stay_under_their_code stale stale_wellKeyed))
           firstCode (js "bob")).
Defined.

Lemma getAllInvitationCodes_newest_first_witness :
  exists invitations,
    getAllInvitationCodes stale = (inr invitations, stale)
    /\ length invitations = 2%nat.
Proof.
  destruct (getAllInvitationCodes_newest_first stale eq_refl)
    as (invitations & Hrun & _ & _ & Hlen).
  exists invitations. split; [exact Hrun|]. rewrite Hlen. vm_compute. reflexivity.
Defined.

Lemma cleanup_removes_the_expired_witness :
  exists s1,
    cleanupExpiredInvitationCodes stale = (inr 1, s1)
    /\ items s1 !! js "invitation:0000000000000000"
       = items lasting !! js "invitation:0000000000000000".
Proof.
  destruct (cleanup_removes_the_expired stale eq_refl stale_wellKeyed)
    as (s1 & Hrun & Hitems).
  exists s1. split; [exact Hrun|]. rewrite Hitems. vm_compute. reflexivity.
Defined.

Lemma valid_code_is_stored_and_unspent_witness :
  exists v s',
    validateInvitationCode firstCode lasting = (inr v, s')
    /\ items s' = items lasting
    /\ (valid v = true ->
        exists presented invitation,
          firstCode = VStr presented
          /\ items lasting !! toInvitationKey (toUpperCase presented) = Some invitation
          /\ used invitation = false
          /\ expiredAt (timeAt lasting) invitation = false
          /\ v = accepted invitation).
Proof. apply (valid_code_is_stored_and_unspent firstCode lasting). reflexivity. Defined.
End InvitationEvaluation.

Section RouteEvaluation.
#[local] Existing Instance Demo.runtime.

Lemma nameless_card_is_stored_but_refused_witness :
  exists stored w',
    upload (H := DemoDots.runtime) DemoDots.jsonUpload
      (Demo.worldWith (Demo.stringify DemoDots.dotCard))
    = (inr (refused (js "Failed to import character")), w')
    /\ files w' !! InPublic (js ".png") = Some (File stored 1000).
Proof.
  apply (nameless_card_is_stored_but_refused (H := DemoDots.runtime)
           DemoDots.jsonUpload (Demo.worldWith (Demo.stringify DemoDots.dotCard))
           (File (Demo.stringify DemoDots.dotCard) 900) DemoDots.dotCard (js "...")
           Demo.avatar).
  - reflexivity.
  - reflexivity.
  - vm_compute. reflexivity.
  - vm_compute. reflexivity.
  - reflexivity.
  - reflexivity.
  - vm_compute. reflexivity.
  - vm_compute. discriminate.
  - vm_compute. reflexivity.
  - intros data.
    assert (Himage : chosenImage (H := DemoDots.runtime)
                       (ArgString (DEFAULT_AVATAR_PATH (Runtime := DemoDots.runtime)))
                       None Demo.avatar
                       (removeFile (Outside (upload_path DemoDots.jsonUpload))
                          (Demo.worldWith (Demo.stringify DemoDots.dotCard)))
                     = content Demo.avatar) by (vm_compute; reflexivity).
    rewrite Himage. change (write (Runtime := DemoDots.runtime)) with Demo.writeCard.
    unfold Demo.writeCard, Codec.encode.
    destruct (Codec.extract (content Demo.avatar)) as [e|chunks] eqn:Hextract;
      [vm_compute in Hextract; discriminate|].
    eexists. reflexivity.
Defined.

Lemma upload_answers_witness :
  (formatKey (file_type Demo.pngUpload) ∉ objectPrototypeMembers)
  /\ ((exists fileName,
         fst (upload (H := Demo.runtime) Demo.pngUpload
                (Demo.worldWith (Demo.cardPng Demo.v1Card)))
         = inr (uploaded fileName)
         /\ fileName <> []
         /\ is_Some (files (snd (upload Demo.pngUpload
                                   (Demo.worldWith (Demo.cardPng Demo.v1Card))))
                       !! InPublic (fileName ++ js ".png"))
         /\ (getPreservedName (preserved_name Demo.pngUpload) = None
             -> safeName fileName))
      \/ exists message,
           fst (upload (H := Demo.runtime) Demo.pngUpload
                  (Demo.worldWith (Demo.cardPng Demo.v1Card)))
           = inr (refused message)).
Proof.
  assert (Hformat : formatKey (file_type Demo.pngUpload) ∉ objectPrototypeMembers).
  { intros Hin. apply list_elem_of_In in Hin. vm_compute in Hin.
    repeat (destruct Hin as [Hin|Hin]; [discriminate|]). exact Hin. }
  split; [exact Hformat|].
  exact (upload_answers (H := Demo.runtime) Demo.pngUpload
           (Demo.worldWith (Demo.cardPng Demo.v1Card)) Hformat).
Defined.
End RouteEvaluation.
